(** * Splunk MCP server: credential vault, query session, query executor
      and result summarizer.

    A shallow embedding of

    - [encrypt_password.py] (module [EncryptScript]),
    - [src/utils/credential_manager.py] (module [CredentialManager]),
    - [src/utils/splunk_client.py] (module [SplunkClient]),
    - [src/utils/response_formatter.py] (module [ResponseFormatter]),
    - [src/config/config_reader.py] (module [ConfigReader]),
    - [splunk_mcp.py] with the rest of the client and of the formatter
      (modules [ClientStatus] and [Server]),

    followed by the properties of the specification that were checked
    against it, and by further properties of the code.

    Python [str] is [string], [bytes] is [list Byte.byte], [int] is [Z].
    A [Dict[str, str]] is a [gmap string string]; a result record, whose
    key order is visible in the output, is an association list.  A Python
    call that may raise returns a [result]. *)

From Stdlib Require Import ZArith QArith Lia Strings.Byte Strings.Ascii Strings.String.
From stdpp Require Import base gmap strings list sorting pretty.

Open Scope string_scope.
Open Scope Z_scope.

(** ** Python values, exceptions and results *)

Module Py.

Definition bytes := list Byte.byte.

(** The exception classes the modules raise, catch or let pass.  All of
    them derive from [Exception].  An [HTTPError] of splunklib carries its
    [status] and its [reason]; it has no [message] attribute. *)
Inductive exn : Type :=
| ValueError (msg : string)
| ConnectionError (msg : string)
| TimeoutError (msg : string)
| HTTPError (status : Z) (reason : string)    (* splunklib.binding.HTTPError *)
| InvalidToken                                 (* cryptography.fernet.InvalidToken *)
| KeyError (key : string)
| ZeroDivisionError
| LibraryError (cls msg : string).             (* any other Exception subclass *)

(** [socket.timeout]: since Python 3.10, the oldest version the [mcp]
    package runs on, it is the built-in [TimeoutError] under another name,
    so a clause for one catches the other. *)
Definition SocketTimeout : exn := TimeoutError "timed out".

(** [str(e)]. *)
Definition exn_str (e : exn) : string :=
  match e with
  | ValueError m | ConnectionError m | TimeoutError m => m
  | HTTPError st m => "HTTP " +:+ pretty st +:+ " " +:+ m
  | InvalidToken => ""
  | KeyError k => "'" +:+ k +:+ "'"
  | ZeroDivisionError => "integer division or modulo by zero"
  | LibraryError _ m => m
  end.

(** The result of running a piece of Python: a value or a raised
    exception. *)
Inductive result (A : Type) : Type :=
| Ok (a : A)
| Raise (e : exn).
Arguments Ok {A} a.
Arguments Raise {A} e.

Definition of_option {A} (e : exn) (o : option A) : result A :=
  match o with Some a => Ok a | None => Raise e end.

(** Sequencing: the first exception ends the block. *)
#[export] Instance result_ret : MRet result := fun A a => Ok a.
#[export] Instance result_bind : MBind result := fun A B k m =>
  match m with
  | Ok a => k a
  | Raise e => Raise e
  end.
#[export] Instance result_fmap : FMap result := fun A B f m =>
  match m with
  | Ok a => Ok (f a)
  | Raise e => Raise e
  end.

(** [d[k]] on a dict. *)
Definition getitem (d : gmap string string) (k : string) : result string :=
  of_option (KeyError k) (d !! k).

(** [s.strip()] and [s.startswith(p)].  A [str] is held as its UTF-8
    text.  White space, for [strip], is what [str.isspace] accepts: the
    characters U+0009 to U+000D, U+001C to U+0020, U+0085, U+00A0, U+1680,
    U+2000 to U+200A, U+2028, U+2029, U+202F, U+205F and U+3000. *)
Definition is_space (a : ascii) : bool :=
  let n := nat_of_ascii a in
  ((9 <=? n) && (n <=? 13) || (28 <=? n) && (n <=? 32))%nat.

(** The white space characters of two bytes in UTF-8 (U+0085, U+00A0)
    and of three bytes. *)
Definition is_space2 (a b : ascii) : bool :=
  let '(m, n) := (nat_of_ascii a, nat_of_ascii b) in
  ((m =? 194) && ((n =? 133) || (n =? 160)))%nat.

Definition is_space3 (a b c : ascii) : bool :=
  let '(l, m, n) := (nat_of_ascii a, nat_of_ascii b, nat_of_ascii c) in
  ((l =? 225) && (m =? 154) && (n =? 128)                       (* U+1680 *)
   || (l =? 226) && (m =? 128)
      && ((128 <=? n) && (n <=? 138)                            (* U+2000 to U+200A *)
          || (n =? 168) || (n =? 169) || (n =? 175))            (* U+2028, U+2029, U+202F *)
   || (l =? 226) && (m =? 129) && (n =? 159)                    (* U+205F *)
   || (l =? 227) && (m =? 128) && (n =? 128))%nat.              (* U+3000 *)

(** Removing white space at the front; [sp2] and [sp3] tell the
    characters of two and three bytes, in the order their bytes are met. *)
Fixpoint strip_front (sp2 : ascii -> ascii -> bool) (sp3 : ascii -> ascii -> ascii -> bool)
    (s : string) : string :=
  match s with
  | String a s1 =>
      if is_space a then strip_front sp2 sp3 s1
      else
        match s1 with
        | String b s2 =>
            if sp2 a b then strip_front sp2 sp3 s2
            else
              match s2 with
              | String c s3 => if sp3 a b c then strip_front sp2 sp3 s3 else s
              | EmptyString => s
              end
        | EmptyString => s
        end
  | EmptyString => EmptyString
  end.

Definition lstrip (s : string) : string := strip_front is_space2 is_space3 s.

(** At the end the bytes of a character are met last byte first. *)
Definition rstrip (s : string) : string :=
  String.rev (strip_front (fun a b => is_space2 b a) (fun a b c => is_space3 c b a)
                (String.rev s)).

Definition strip (s : string) : string := rstrip (lstrip s).

Definition startswith (s p : string) : bool := String.prefix p s.

End Py.
Import Py.


(** ** The libraries behind the credential code

    [hashlib], [base64], [cryptography] and the UTF-8 codec are not part
    of the repository.  They are an interface here, and their documented
    contracts are a separate class of laws. *)

Class CryptoLib : Type := {
  (** [hashlib.sha256(b).hexdigest()] *)
  sha256_hexdigest : bytes -> string;
  (** [s.encode('utf-8')] and [b.decode('utf-8')] *)
  utf8_encode : string -> bytes;
  utf8_decode : bytes -> option string;
  (** [base64.urlsafe_b64encode] and [base64.urlsafe_b64decode] *)
  urlsafe_b64encode : bytes -> bytes;
  urlsafe_b64decode : bytes -> option bytes;
  (** [PBKDF2HMAC(SHA256, length, salt, iterations).derive(pw)] *)
  pbkdf2hmac_sha256 : forall (length : Z) (salt : bytes) (iterations : Z), bytes -> bytes;
  (** [Fernet(key).encrypt(data)]; [iv] stands for the random IV and the
      timestamp the library draws. *)
  fernet_encrypt : forall (key iv data : bytes), bytes;
  (** [Fernet(key).decrypt(token)]; [None] is [InvalidToken]. *)
  fernet_decrypt : forall (key token : bytes), option bytes
}.

Class CryptoLaws (L : CryptoLib) : Prop := {
  fernet_decrypt_encrypt :
    forall key iv data, fernet_decrypt key (fernet_encrypt key iv data) = Some data;
  b64_decode_encode :
    forall b, urlsafe_b64decode (urlsafe_b64encode b) = Some b;
  utf8_decode_encode :
    forall s, utf8_decode (utf8_encode s) = Some s;
  utf8_encode_decode :
    forall b s, utf8_decode b = Some s -> utf8_encode s = b
}.

(** A key derivation function with its parameters: algorithm (always
    SHA-256 here), length, salt, iterations, then the password. *)
Definition kdf : Type := Z -> bytes -> Z -> bytes -> bytes.

(** The module [cryptography.hazmat.primitives.kdf.pbkdf2]: the one
    key derivation class it defines is [PBKDF2HMAC]. *)
Definition kdf_pbkdf2 {L : CryptoLib} (name : string) : option kdf :=
  if String.eqb name "PBKDF2HMAC" then Some pbkdf2hmac_sha256 else None.

(** [from module import name]; the interpreter adds the location of the
    module's file to the message. *)
Definition import_from {A} (module : string) (namespace : string -> option A)
    (name : string) : result A :=
  of_option (LibraryError "ImportError"
               ("cannot import name '" +:+ name +:+ "' from '" +:+ module +:+ "'"))
            (namespace name).

(** What [get_machine_id] reads from the host. *)
Record Host : Type := {
  node : string;                  (* hex(uuid.getnode()) *)
  env_USER : option string;       (* os.environ.get('USER') *)
  env_USERNAME : option string;   (* os.environ.get('USERNAME') *)
  home : string;                  (* os.path.expanduser('~') *)
  system : string;                (* platform.system() *)
  machine : string                (* platform.machine() *)
}.

(** ** encrypt_password.py *)

Module EncryptScript.
Section WithLib.
Context {L : CryptoLib}.

Definition get_machine_id (h : Host) : string :=
  let mac := utf8_encode (node h) in
  let username := default (default "default" (env_USERNAME h)) (env_USER h) in
  let username_bytes := utf8_encode username in
  let home_bytes := utf8_encode (home h) in
  let platform_info := system h +:+ "-" +:+ machine h in
  let platform_bytes := utf8_encode platform_info in
  let machine_id := (mac ++ username_bytes ++ home_bytes ++ platform_bytes)%list in
  sha256_hexdigest machine_id.

(** Line 21, [from cryptography.hazmat.primitives.kdf.pbkdf2 import
    PBKDF2], the last of the imports at the top of the script: it runs
    when the script is started or imported, before any of its functions
    exists. *)
Definition imports : result kdf :=
  import_from "cryptography.hazmat.primitives.kdf.pbkdf2" kdf_pbkdf2 "PBKDF2".

(** [derive_key(machine_id, salt)]; [PBKDF2] is the name bound by the
    import, [fresh] is what [os.urandom(16)] returns when [salt] is
    [None].  The key handed to [Fernet] is the base64 text of 32 derived
    bytes, which its constructor accepts. *)
Definition derive_key (PBKDF2 : kdf) (machine_id : string) (salt : option bytes)
    (fresh : bytes) : bytes * bytes :=
  let salt := default fresh salt in
  let key := urlsafe_b64encode
               (PBKDF2 32 salt 100000 (utf8_encode machine_id)) in
  (key, salt).

Definition machine_hash_of (machine_id : string) : string :=
  String.substring 0 16 (sha256_hexdigest (utf8_encode machine_id)).

(** [encrypt_password(password)] of the loaded script on host [h], with
    the random salt and the IV drawn by the libraries made explicit. *)
Definition encrypt_password (h : Host) (fresh iv : bytes) (password : string)
  : result (gmap string string) :=
  PBKDF2 ← imports;
  let machine_id := get_machine_id h in
  let '(key, salt) := derive_key PBKDF2 machine_id None fresh in
  let encrypted := fernet_encrypt key iv (utf8_encode password) in
  match utf8_decode (urlsafe_b64encode encrypted),
        utf8_decode (urlsafe_b64encode salt) with
  | Some e, Some s =>
      Ok (<["encrypted" := e]>
          (<["salt" := s]>
           (<["machine_hash" := machine_hash_of machine_id]> ∅)))
  | _, _ => Raise (LibraryError "UnicodeDecodeError" "invalid start byte")
  end.

(** [decrypt_password(encrypted_data)], the script's own self-check. *)
Definition decrypt_password (h : Host) (encrypted_data : gmap string string)
  : result string :=
  PBKDF2 ← imports;
  let machine_id := get_machine_id h in
  let current_hash := machine_hash_of machine_id in
  mh ← getitem encrypted_data "machine_hash";
  if negb (String.eqb current_hash mh)
  then Raise (ValueError "Cannot decrypt: Different machine or environment")
  else
    salt_s ← getitem encrypted_data "salt";
    salt ← of_option (LibraryError "binascii.Error" "Incorrect padding")
                      (urlsafe_b64decode (utf8_encode salt_s));
    let '(key, _) := derive_key PBKDF2 machine_id (Some salt) [] in
    enc_s ← getitem encrypted_data "encrypted";
    encrypted ← of_option (LibraryError "binascii.Error" "Incorrect padding")
                           (urlsafe_b64decode (utf8_encode enc_s));
    decrypted ← of_option InvalidToken (fernet_decrypt key encrypted);
    of_option (LibraryError "UnicodeDecodeError" "invalid start byte")
              (utf8_decode decrypted).

(** The configuration fragment [main] prints for the operator
    (the four lines under [splunk:]). *)
Definition config_fragment (username : string) (encrypted_data : gmap string string)
  : result (gmap string string) :=
  e ← getitem encrypted_data "encrypted";
  s ← getitem encrypted_data "salt";
  m ← getitem encrypted_data "machine_hash";
  Ok (<["username" := username]>
      (<["password_encrypted" := e]>
       (<["password_salt" := s]>
        (<["machine_hash" := m]> ∅)))).

(** Running the script: the imports, then [main()] with what the
    operator types at the three prompts.  [Ok None] is [sys.exit(1)],
    [Ok (Some c)] the fragment printed; an exception outside the [try]
    around the self-check ends the run with a traceback. *)
Definition main (h : Host) (fresh iv : bytes) (username password password_confirm : string)
  : result (option (gmap string string)) :=
  _ ← imports;
  let username := strip username in
  if String.eqb username "" then Ok None
  else if String.eqb password "" then Ok None
  else if negb (String.eqb password password_confirm) then Ok None
  else
    encrypted_data ← encrypt_password h fresh iv password;
    match decrypt_password h encrypted_data with
    | Ok decrypted =>
        if negb (String.eqb decrypted password) then Ok None
        else Some <$> config_fragment username encrypted_data
    | Raise _ => Ok None
    end.

End WithLib.
End EncryptScript.

(** ** src/utils/credential_manager.py *)

Module CredentialManager.

(** What the manager asks of the libraries and of the interpreter, in
    the order it happens.  A run of [decrypt_password] or
    [get_credentials] returns this log next to its result. *)
Inductive event : Type :=
| B64Decode (arg : bytes)               (* urlsafe_b64decode(arg) *)
| KdfDerive (salt : bytes)              (* PBKDF2HMAC(..., salt, ...).derive(...) *)
| FernetDecrypt (key token : bytes)     (* Fernet(key).decrypt(token) *)
| Utf8Decode (arg : bytes)              (* arg.decode('utf-8') *)
| Warn (msg : string).                  (* warnings.warn(msg, UserWarning) *)

Definition traced (A : Type) : Type := list event * result A.

#[export] Instance traced_ret : MRet traced := fun A a => ([], Ok a).
#[export] Instance traced_bind : MBind traced := fun A B k m =>
  match m with
  | (log, Ok a) => let '(log', r) := k a in ((log ++ log')%list, r)
  | (log, Raise e) => (log, Raise e)
  end.

Definition lift {A} (r : result A) : traced A := ([], r).
Definition emit {A} (ev : event) (r : result A) : traced A := ([ev], r).

(** [try: body except InvalidToken: ... except Exception as e: ...] *)
Definition try_except {A} (body : traced A) (handler : exn -> exn) : traced A :=
  match body with
  | (log, Raise e) => (log, Raise (handler e))
  | r => r
  end.

Record Credentials : Type := { username : string; password : string }.

Definition different_machine_msg : string :=
  "Cannot decrypt password: This password was encrypted on a different machine. "
  +:+ "Please re-run encrypt_password.py on this machine.".

Definition corrupted_msg : string :=
  "Failed to decrypt password. The encrypted data may be corrupted "
  +:+ "or the machine environment has changed.".

Section WithLib.
Context {L : CryptoLib}.

(** The two attributes set by [__init__]. *)
Record t : Type := { _machine_id : string; _machine_hash : string }.

Definition _get_machine_id (h : Host) : string :=
  let mac := utf8_encode (node h) in
  let username := default (default "default" (env_USERNAME h)) (env_USER h) in
  let username_bytes := utf8_encode username in
  let home_bytes := utf8_encode (home h) in
  let platform_info := system h +:+ "-" +:+ machine h in
  let platform_bytes := utf8_encode platform_info in
  let machine_id := (mac ++ username_bytes ++ home_bytes ++ platform_bytes)%list in
  sha256_hexdigest machine_id.

Definition __init__ (h : Host) : t :=
  let machine_id := _get_machine_id h in
  {| _machine_id := machine_id;
     _machine_hash :=
       String.substring 0 16 (sha256_hexdigest (utf8_encode machine_id)) |}.

Definition _derive_key (self : t) (salt : bytes) : traced bytes :=
  derived ← emit (KdfDerive salt)
              (Ok (pbkdf2hmac_sha256 32 salt 100000 (utf8_encode (_machine_id self))));
  mret (urlsafe_b64encode derived).

Definition b64decode (arg : bytes) : traced bytes :=
  emit (B64Decode arg)
       (of_option (LibraryError "binascii.Error" "Incorrect padding")
                  (urlsafe_b64decode arg)).

Definition decrypt_handler (e : exn) : exn :=
  match e with
  | InvalidToken => ValueError corrupted_msg
  | e => ValueError ("Failed to decrypt password: " +:+ exn_str e)
  end.

Definition decrypt_password (self : t) (encrypted_data : gmap string string)
  : traced string :=
  if bool_decide (encrypted_data !! "machine_hash" ≠ Some (_machine_hash self))
  then lift (Raise (ValueError different_machine_msg))
  else
    try_except
      (salt_s ← lift (getitem encrypted_data "password_salt");
       salt ← b64decode (utf8_encode salt_s);
       enc_s ← lift (getitem encrypted_data "password_encrypted");
       encrypted ← b64decode (utf8_encode enc_s);
       key ← _derive_key self salt;
       decrypted ← emit (FernetDecrypt key encrypted)
                     (of_option InvalidToken (fernet_decrypt key encrypted));
       emit (Utf8Decode decrypted)
            (of_option (LibraryError "UnicodeDecodeError" "invalid start byte")
                       (utf8_decode decrypted)))
      decrypt_handler.

Definition get_credentials (self : t) (splunk_config : gmap string string)
  : traced Credentials :=
  match splunk_config !! "username" with
  | None => lift (Raise (ValueError "No username found in configuration"))
  | Some user =>
      match splunk_config !! "password_encrypted" with
      | Some enc =>
          salt ← lift (getitem splunk_config "password_salt");
          let encrypted_data : gmap string string :=
            <["password_encrypted" := enc]>
            (<["password_salt" := salt]>
             (<["machine_hash" := default "" (splunk_config !! "machine_hash")]> ∅)) in
          pw ← decrypt_password self encrypted_data;
          mret {| username := user; password := pw |}
      | None =>
          match splunk_config !! "password" with
          | Some pw =>
              emit (Warn ("Using plain text password. "
                          +:+ "Please use encrypt_password.py for secure storage."))
                   (Ok {| username := user; password := pw |})
          | None => lift (Raise (ValueError "No password found in configuration"))
          end
      end
  end.

End WithLib.
End CredentialManager.

(** ** Data exchanged between the client and the formatter *)

Module Data.

(** A field of a result record as the remote service returns it in
    JSON: a string, or a list of strings for a multivalue field. *)
Inductive value : Type :=
| VStr (s : string)
| VMulti (vs : list string).

#[export] Instance value_eq_dec : EqDecision value.
Proof. solve_decision. Defined.

(** A result record: a dict, in its iteration order. *)
Definition record : Type := list (string * value).

(** [field in result], [result.get(field)]. *)
Definition has_key (r : record) (k : string) : bool :=
  existsb (fun kv => String.eqb (fst kv) k) r.

Fixpoint get (r : record) (k : string) : option value :=
  match r with
  | [] => None
  | (k', v) :: r' => if String.eqb k' k then Some v else get r' k
  end.

(** Truth value of a field ([if st]). *)
Definition truthy (v : value) : bool :=
  match v with
  | VStr s => negb (String.eqb s "")
  | VMulti vs => negb (Nat.eqb (length vs) 0)
  end.

Record Stats : Type := {
  scan_count : Z;
  event_count : Z;
  result_count : Z;
  run_duration : Q
}.

Record TimeRange : Type := { earliest : string; latest : string }.

(** The dict [execute_query] returns. *)
Inductive Envelope : Type :=
| Success (query : string) (time_range : TimeRange) (statistics : Stats)
          (results : list record) (fields messages : list record)
| Error (query : string) (error : string) (error_type : string).

Definition status (e : Envelope) : string :=
  match e with Success _ _ _ _ _ _ => "success" | Error _ _ _ => "error" end.

End Data.
Import Data.

(** ** src/utils/splunk_client.py *)

Module SplunkClient.

(** *** The remote service and the clock

    The client talks to a remote service through [splunklib] and reads
    [time.time()].  Both are outside the repository: a [Remote] scripts
    what each call returns or raises. *)

(** Keyword arguments of [client.connect]. *)
Record ConnectArgs : Type := {
  ca_host : string;
  ca_port : string;
  ca_username : string;
  ca_password : string;
  ca_verify : option bool       (* [Some false] when [verify] is passed *)
}.

(** Keyword arguments of [service.jobs.create]. *)
Record JobArgs : Type := {
  ja_earliest_time : string;
  ja_latest_time : string;
  ja_max_count : Z
}.

Record ResultsData : Type := {
  rd_results : option (list record);
  rd_fields : option (list record);
  rd_messages : option (list record)
}.

(** A search job on the server. *)
Record Job : Type := {
  sid : string;
  (** [job.is_done()], by the number of polls made before *)
  job_is_done : nat -> result bool;
  (** [job.cancel()] *)
  job_cancel : result unit;
  (** reading and converting the four counters of the job *)
  job_stats : result Stats;
  (** [json.loads(job.results(count=n, output_mode='json').read())] *)
  job_results : Z -> result ResultsData
}.

Record Remote : Type := {
  (** [socket.gethostbyname]; [None] is [socket.gaierror] *)
  gethostbyname : string -> option string;
  (** [client.connect] with these keyword arguments followed by
      [service.apps.list()], by the number of attempts made before *)
  connect : ConnectArgs -> nat -> result unit;
  (** [service.apps.list()] on the cached handle, by the number of
      probes made before *)
  apps_list : nat -> result unit;
  jobs_create : string -> JobArgs -> result Job;
  indexes_list : result (list string);
  (** milliseconds the n-th call to the outside world takes *)
  latency : nat -> Z
}.

(** A handle returned by [client.connect]: the attempt that opened it. *)
Definition Service : Type := nat.

(** The client object and what it has done to the outside world. *)
Record State : Type := {
  now : Z;                            (* time.time(), in milliseconds *)
  steps : nat;                        (* calls to the outside world so far *)
  sleeps : list Z;                    (* arguments of time.sleep, in milliseconds *)
  attempts : nat;                     (* connection attempts *)
  probes : nat;                       (* liveness probes *)
  polls : nat;                        (* job.is_done() calls *)
  cancels : nat;                      (* job.cancel() calls *)
  created : nat;                      (* jobs created by service.jobs.create *)
  cred_log : list CredentialManager.event;
  _connections : option Service;      (* self._connections.get('main') *)
  _last_query_info : option (string * string * Stats)
}.

(** A method of the client: from a state to a result and the state it
    leaves.  [None] is a run of the polling loop that the model cut off
    because its fuel ran out; it is not an exception and no [except]
    clause sees it. *)
Definition M (A : Type) : Type := State -> option (result A) * State.

#[export] Instance M_ret : MRet M := fun A a s => (Some (Ok a), s).
#[export] Instance M_bind : MBind M := fun A B k m s =>
  match m s with
  | (Some (Ok a), s') => k a s'
  | (Some (Raise e), s') => (Some (Raise e), s')
  | (None, s') => (None, s')
  end.

Definition raise {A} (e : exn) : M A := fun s => (Some (Raise e), s).
Definition out_of_fuel {A} : M A := fun s => (None, s).
Definition lift {A} (r : result A) : M A := fun s => (Some r, s).
Definition gets {A} (f : State -> A) : M A := fun s => (Some (Ok (f s)), s).
Definition modify (f : State -> State) : M unit := fun s => (Some (Ok tt), f s).

(** Run a block and hand its result to the [except] clauses. *)
Definition try {A} (m : M A) : M (result A) := fun s =>
  match m s with
  | (Some r, s') => (Some (Ok r), s')
  | (None, s') => (None, s')
  end.

Definition seconds (n : Z) : Z := 1000 * n.

(** A computation that leaves the poll and cancel counters alone. *)
Definition keeps_jobs {A} (m : M A) : Prop :=
  forall s,
    cancels (snd (m s)) = cancels s
    /\ polls (snd (m s)) = polls s
    /\ created (snd (m s)) = created s.

(** A computation that the model never cuts off. *)
Definition terminates {A} (m : M A) : Prop := forall s, fst (m s) <> None.

(** Total time asked of [time.sleep] so far, in milliseconds. *)
Definition slept (s : State) : Z := foldr Z.add 0 (sleeps s).



(** *** Steps in the outside world *)

(** A call to the outside world takes [latency] milliseconds. *)
Definition elapse (rm : Remote) (extra : Z) (s : State) : State :=
  {| now := now s + extra + latency rm (steps s); steps := S (steps s);
     sleeps := sleeps s; attempts := attempts s; probes := probes s;
     polls := polls s; cancels := cancels s; created := created s; cred_log := cred_log s;
     _connections := _connections s; _last_query_info := _last_query_info s |}.

(** [time.time()] *)
Definition time : M Z := gets now.

(** [time.sleep(ms / 1000)] *)
Definition after_sleep (rm : Remote) (ms : Z) (s : State) : State :=
  let s := elapse rm ms s in
  {| now := now s; steps := steps s;
     sleeps := (sleeps s ++ [ms])%list; attempts := attempts s; probes := probes s;
     polls := polls s; cancels := cancels s; created := created s; cred_log := cred_log s;
     _connections := _connections s; _last_query_info := _last_query_info s |}.

Definition sleep (rm : Remote) (ms : Z) : M unit := modify (after_sleep rm ms).

Definition count_attempt (s : State) : State :=
  {| now := now s; steps := steps s;
     sleeps := sleeps s; attempts := S (attempts s); probes := probes s;
     polls := polls s; cancels := cancels s; created := created s; cred_log := cred_log s;
     _connections := _connections s; _last_query_info := _last_query_info s |}.

Definition count_probe (s : State) : State :=
  {| now := now s; steps := steps s;
     sleeps := sleeps s; attempts := attempts s; probes := S (probes s);
     polls := polls s; cancels := cancels s; created := created s; cred_log := cred_log s;
     _connections := _connections s; _last_query_info := _last_query_info s |}.

Definition count_poll (s : State) : State :=
  {| now := now s; steps := steps s;
     sleeps := sleeps s; attempts := attempts s; probes := probes s;
     polls := S (polls s); cancels := cancels s; created := created s; cred_log := cred_log s;
     _connections := _connections s; _last_query_info := _last_query_info s |}.

Definition count_cancel (s : State) : State :=
  {| now := now s; steps := steps s;
     sleeps := sleeps s; attempts := attempts s; probes := probes s;
     polls := polls s; cancels := S (cancels s); created := created s; cred_log := cred_log s;
     _connections := _connections s; _last_query_info := _last_query_info s |}.

Definition count_created (s : State) : State :=
  {| now := now s; steps := steps s;
     sleeps := sleeps s; attempts := attempts s; probes := probes s;
     polls := polls s; cancels := cancels s; created := S (created s); cred_log := cred_log s;
     _connections := _connections s; _last_query_info := _last_query_info s |}.

Definition log_credentials (evs : list CredentialManager.event) (s : State) : State :=
  {| now := now s; steps := steps s;
     sleeps := sleeps s; attempts := attempts s; probes := probes s;
     polls := polls s; cancels := cancels s; created := created s; cred_log := (cred_log s ++ evs)%list;
     _connections := _connections s; _last_query_info := _last_query_info s |}.

Definition set_connection (svc : Service) (s : State) : State :=
  {| now := now s; steps := steps s;
     sleeps := sleeps s; attempts := attempts s; probes := probes s;
     polls := polls s; cancels := cancels s; created := created s; cred_log := cred_log s;
     _connections := Some svc; _last_query_info := _last_query_info s |}.

Definition set_last_query_info (i : string * string * Stats) (s : State) : State :=
  {| now := now s; steps := steps s;
     sleeps := sleeps s; attempts := attempts s; probes := probes s;
     polls := polls s; cancels := cancels s; created := created s; cred_log := cred_log s;
     _connections := _connections s; _last_query_info := Some i |}.

(** A run of the credential manager inside the client. *)
Definition of_traced {A} (t : CredentialManager.traced A) : M A := fun s =>
  (Some (snd t), log_credentials (fst t) s).

(** [client.connect(...)] and [service.apps.list()] of one attempt. *)
Definition remote_connect (rm : Remote) (kwargs : ConnectArgs) : M Service := fun s =>
  (Some ((fun _ => attempts s) <$> connect rm kwargs (attempts s)),
   count_attempt (elapse rm 0 s)).

(** [service.apps.list()] on a cached handle. *)
Definition remote_probe (rm : Remote) (svc : Service) : M unit := fun s =>
  (Some (apps_list rm (probes s)), count_probe (elapse rm 0 s)).

Definition remote_create_job (rm : Remote) (query : string) (kwargs : JobArgs) : M Job :=
  fun s =>
    match jobs_create rm query kwargs with
    | Ok job => (Some (Ok job), count_created (elapse rm 0 s))
    | Raise e => (Some (Raise e), elapse rm 0 s)
    end.

Definition remote_is_done (rm : Remote) (job : Job) : M bool := fun s =>
  (Some (job_is_done job (polls s)), count_poll (elapse rm 0 s)).

Definition remote_cancel (rm : Remote) (job : Job) : M unit := fun s =>
  (Some (job_cancel job), count_cancel (elapse rm 0 s)).

Definition remote_stats (rm : Remote) (job : Job) : M Stats := fun s =>
  (Some (job_stats job), elapse rm 0 s).

Definition remote_results (rm : Remote) (job : Job) (count : Z) : M ResultsData :=
  fun s => (Some (job_results job count), elapse rm 0 s).

Definition remote_indexes (rm : Remote) : M (list string) := fun s =>
  (Some (indexes_list rm), elapse rm 0 s).

(** *** The client *)

(** [config['query_settings']]: absent keys are [None]. *)
Record QuerySettings : Type := {
  default_earliest_time : option string;
  default_latest_time : option string;
  max_results : option Z;
  max_execution_time : option Z;
  page_size : option Z;
  include_raw_events : option bool
}.

(** What the client reads from its configuration reader and the
    credential manager it imports.  [splunk_config] holds the
    string-valued keys of [config['splunk']]; the port and the SSL
    switch are kept with their own types. *)
Record Client : Type := {
  splunk_config : gmap string string;
  splunk_port : Z;
  splunk_verify_ssl : option bool;
  query_settings : QuerySettings;
  credential_manager : CredentialManager.t
}.

Section WithRemote.
Context {L : CryptoLib} (rm : Remote) (self : Client).

Definition _resolve_hostname (hostname : string) : string :=
  default hostname (gethostbyname rm hostname).

Definition auth_failed_msg : string := "Authentication failed: Invalid credentials".

Definition retries_failed_msg (retry_count : Z) (last_error : string) : string :=
  "Failed to connect to Splunk after " +:+ pretty retry_count +:+ " attempts. "
  +:+ "Last error: " +:+ last_error.

(** [isinstance(e, HTTPError) and e.status == 401] *)
Definition is_auth_failure (e : exn) : bool :=
  match e with
  | HTTPError status _ => status =? 401
  | _ => false
  end.

(** What the [except] clauses leave in [last_error], as it is printed:
    the clause for [socket.timeout] takes every [TimeoutError]. *)
Definition last_error_of (e : exn) : string :=
  match e with
  | TimeoutError _ => "Connection timeout"
  | e => exn_str e
  end.

(** [for attempt in range(retry_count): ...] and the [raise] that
    follows the loop; [todo] is what is left of the range. *)
Fixpoint retry_loop (kwargs : ConnectArgs) (retry_count : Z) (todo : list Z)
    (last_error : string) : M Service :=
  match todo with
  | [] => raise (ConnectionError (retries_failed_msg retry_count last_error))
  | attempt :: todo' =>
      r ← try (remote_connect rm kwargs);
      match r with
      | Ok service => mret service
      | Raise e =>
          if is_auth_failure e
          then raise (ConnectionError auth_failed_msg)
          else
            (if attempt <? retry_count - 1
             then sleep rm (seconds (2 ^ attempt)) else mret tt) ;;
            retry_loop kwargs retry_count todo' (last_error_of e)
      end
  end.

Definition _create_connection (retry_count : Z) : M Service :=
  let splunk_config := splunk_config self in
  credentials ← of_traced
    (CredentialManager.get_credentials (credential_manager self) splunk_config);
  hostname ← lift (getitem splunk_config "host");
  let host := _resolve_hostname hostname in
  let port := splunk_port self in
  let verify_ssl := default false (splunk_verify_ssl self) in
  let kwargs :=
    {| ca_host := host;
       ca_port := pretty port;
       ca_username := CredentialManager.username credentials;
       ca_password := CredentialManager.password credentials;
       ca_verify := if negb verify_ssl then Some false else None |} in
  retry_loop kwargs retry_count (seqZ 0 retry_count) "None".

(** [self._connections['main'] = self._create_connection()] *)
Definition reconnect : M Service :=
  service ← _create_connection 3;
  modify (set_connection service) ;;
  mret service.

Definition get_connection (force_new : bool) : M Service :=
  cached ← gets _connections;
  current ←
    match force_new, cached with
    | false, Some service => mret service
    | _, _ => reconnect
    end;
  alive ← try (remote_probe rm current);
  match alive with
  | Ok _ => mret current
  | Raise _ => reconnect
  end.

(** [if arg is None: arg = query_settings.get(key, fallback)] *)
Definition or_setting {A} (arg setting : option A) (fallback : A) : A :=
  default (default fallback setting) arg.

(** [getattr(e, name)] on an [HTTPError] of splunklib: the attributes
    the claims and the code touch are [status] and [reason]; there is no
    [message]. *)
Definition http_error_attr (status : Z) (reason : string) (name : string) : result string :=
  if String.eqb name "status" then Ok (pretty status)
  else if String.eqb name "reason" then Ok reason
  else Raise (LibraryError "AttributeError"
                ("'HTTPError' object has no attribute '" +:+ name +:+ "'")).

(** The three [except] clauses of [execute_query].  What a clause raises
    leaves [execute_query]. *)
Definition handle_exception (query : string) (e : exn) : result Envelope :=
  match e with
  | TimeoutError msg => Ok (Error query msg "timeout")
  | HTTPError status reason =>
      st ← http_error_attr status reason "status";
      message ← http_error_attr status reason "message";
      Ok (Error query ("HTTP Error " +:+ st +:+ ": " +:+ message) "http_error")
  | e => Ok (Error query (exn_str e) "general_error")
  end.

Definition normalize_query (query : string) : string :=
  if existsb (startswith (strip query)) ["search"; "|"; "index"]
  then query
  else "search " +:+ query.

Definition timeout_msg (timeout : Z) : string :=
  "Query execution exceeded timeout of " +:+ pretty timeout +:+ " seconds".

(** [while not job.is_done(): ...]; one unit of fuel per poll. *)
Fixpoint wait_for_job (fuel : nat) (job : Job) (start_time timeout : Z) : M unit :=
  match fuel with
  | O => out_of_fuel
  | S fuel' =>
      done ← remote_is_done rm job;
      if done : bool then mret tt
      else
        t ← time;
        if seconds timeout <? t - start_time
        then remote_cancel rm job ;; raise (TimeoutError (timeout_msg timeout))
        else sleep rm 500 ;; wait_for_job fuel' job start_time timeout
  end.

(** One round of the loop for a job that is not done and not yet late:
    the poll, then half a second of sleep. *)
Definition next_round (s : State) : State :=
  after_sleep rm 500 (count_poll (elapse rm 0 s)).

(** The state in which poll [k] begins, counted from the state [s] in
    which the loop is entered, and what [time.time() - start_time] reads
    right after that poll. *)
Definition before_poll (k : nat) (s : State) : State := Nat.iter k next_round s.

Definition waited (k : nat) (s : State) : Z :=
  now (count_poll (elapse rm 0 (before_poll k s))) - now s.

(** The [try] block from the creation of the job on. *)
Definition run_job (fuel : nat) (query earliest_time latest_time : string)
    (max_results timeout : Z) (service : Service) : M Envelope :=
  let kwargs :=
    {| ja_earliest_time := earliest_time;
       ja_latest_time := latest_time;
       ja_max_count := max_results |} in
  job ← remote_create_job rm query kwargs;
  start_time ← time;
  wait_for_job fuel job start_time timeout ;;
  stats ← remote_stats rm job;
  modify (set_last_query_info (sid job, query, stats)) ;;
  results_data ← remote_results rm job max_results;
  remote_cancel rm job ;;
  mret (Success query
          {| earliest := earliest_time; latest := latest_time |}
          stats
          (default [] (rd_results results_data))
          (default [] (rd_fields results_data))
          (default [] (rd_messages results_data))).

Definition execute_query (fuel : nat) (query : string)
    (earliest_time latest_time : option string) (max_results timeout : option Z)
    : M Envelope :=
  opened ← try (get_connection false);
  match opened with
  | Raise e => lift (handle_exception query e)
  | Ok service =>
      let query_settings := query_settings self in
      let earliest_time :=
        or_setting earliest_time (default_earliest_time query_settings) "-30d" in
      let latest_time :=
        or_setting latest_time (default_latest_time query_settings) "now" in
      let max_results :=
        or_setting max_results (SplunkClient.max_results query_settings) 10000 in
      let timeout :=
        or_setting timeout (max_execution_time query_settings) 300 in
      let query := normalize_query query in
      ran ← try (run_job fuel query earliest_time latest_time max_results timeout service);
      match ran with
      | Raise e => lift (handle_exception query e)
      | Ok envelope => mret envelope
      end
  end.

Definition get_indexes : M (list string) :=
  r ← try (service ← get_connection false; remote_indexes rm);
  match r with
  | Ok indexes => mret indexes
  | Raise _ => mret []
  end.

Definition sourcetypes_query (index : option string) : string :=
  match index with
  | Some i => if String.eqb i "" then "| metadata type=sourcetypes"
              else "| metadata type=sourcetypes index=" +:+ i
  | None => "| metadata type=sourcetypes"
  end.

Definition get_sourcetypes (fuel : nat) (index : option string) : M (list value) :=
  r ← try (service ← get_connection false;
           let query := sourcetypes_query index in
           result ← execute_query fuel query (Some "-7d") (Some "now") (Some 1000) None;
           match result with
           | Success _ _ _ results _ _ =>
               let sourcetypes :=
                 map (fun r => default (VStr "") (get r "sourcetype")) results in
               mret (filter (fun st => truthy st = true) sourcetypes)
           | Error _ _ _ => mret []
           end);
  match r with
  | Ok sourcetypes => mret sourcetypes
  | Raise _ => mret []
  end.

End WithRemote.
End SplunkClient.

(** ** src/utils/response_formatter.py *)

(** What the formatter takes from the interpreter: the clock reading of
    [datetime.now().isoformat()], the float format [.2f] and [str()] of a
    list. *)
Class PyRuntime : Type := {
  now_isoformat : string;
  format_2f : Q -> string;
  list_str : list string -> string
}.

Module ResponseFormatter.

(** [collections.Counter] over strings: keys in first-insertion order. *)
Definition Counter : Type := list (string * nat).

(** [c[k] += 1] *)
Fixpoint incr (c : Counter) (k : string) : Counter :=
  match c with
  | [] => [(k, 1%nat)]
  | (k', n) :: c' => if String.eqb k' k then (k', S n) :: c' else (k', n) :: incr c' k
  end.

(** Stable sort by decreasing count: [sorted(items, key=count, reverse=True)]. *)
Fixpoint insert_desc (x : string * nat) (l : Counter) : Counter :=
  match l with
  | [] => [x]
  | y :: l' => if (snd x <? snd y)%nat then y :: insert_desc x l' else x :: l
  end.

Definition sort_desc (c : Counter) : Counter := foldr insert_desc [] c.

(** The order of [most_common]: [x] comes no later than [y]. *)
Definition by_count_desc (x y : string * nat) : Prop := (snd y <= snd x)%nat.

(** [c.most_common(n)] and [c.most_common()]. *)
Definition most_common (n : option nat) (c : Counter) : Counter :=
  match n with
  | Some n => take n (sort_desc c)
  | None => sort_desc c
  end.

Record Pagination : Type := {
  total_results : Z;
  page_size : Z;
  total_pages : Z;
  requires_pagination : bool
}.

Record FieldInfo : Type := {
  sample_values : list string;
  unique_count : nat;
  top_values : Counter              (* [{"value": v, "count": c}, ...] *)
}.

(** The working entry of [_generate_field_summary] for one field. *)
Record FieldData : Type := {
  fd_sample_values : list string;
  fd_value_count : Counter
}.

(** [{}] when there are no results: every key absent. *)
Record EventSummary : Type := {
  es_total_events : option nat;
  es_unique_hosts : option nat;
  es_top_hosts : option Counter;
  es_unique_sources : option nat;
  es_top_sources : option Counter;
  es_sourcetypes : option Counter;
  es_severity_distribution : option Counter
}.

Record Statistics : Type := {
  st_total_events : Z;
  st_total_results : Z;
  st_scan_count : Z;
  st_execution_time : string
}.

Record PaginationGuidance : Type := {
  pg_total_pages : Z;
  pg_results_per_page : Z;
  pg_suggestion : string
}.

(** The dict handed to [json.dumps]; an optional key is an [option]. *)
Inductive Report : Type :=
| QueryResults
    (query timestamp : string) (time_range : TimeRange) (statistics : Statistics)
    (pagination : Pagination) (field_summary : list (string * FieldInfo))
    (event_summary : EventSummary)
    (results results_preview : option (list record))
    (message : string) (pagination_guidance : option PaginationGuidance)
    (splunk_messages : option (list record))
| QueryError
    (query timestamp error_message error_type : string) (troubleshooting : list string).

Definition report_results (r : Report) : option (list record) :=
  match r with
  | QueryResults _ _ _ _ _ _ _ results _ _ _ _ => results
  | QueryError _ _ _ _ _ => None
  end.

Definition report_results_preview (r : Report) : option (list record) :=
  match r with
  | QueryResults _ _ _ _ _ _ _ _ preview _ _ _ => preview
  | QueryError _ _ _ _ _ => None
  end.

Definition report_pagination (r : Report) : option Pagination :=
  match r with
  | QueryResults _ _ _ _ p _ _ _ _ _ _ _ => Some p
  | QueryError _ _ _ _ _ => None
  end.

Definition report_field_summary (r : Report) : list (string * FieldInfo) :=
  match r with
  | QueryResults _ _ _ _ _ fs _ _ _ _ _ _ => fs
  | QueryError _ _ _ _ _ => []
  end.

Section WithRuntime.
Context {R : PyRuntime}.

(** [str(value)] *)
Definition str (v : value) : string :=
  match v with
  | VStr s => s
  | VMulti vs => list_str vs
  end.

(** [value in sample_values], the samples being strings. *)
Definition in_samples (v : value) (samples : list string) : bool :=
  match v with
  | VStr s => existsb (String.eqb s) samples
  | VMulti _ => false
  end.

Definition _calculate_pagination (total_results page_size : Z) : result Pagination :=
  if page_size =? 0 then Raise ZeroDivisionError
  else
    let total_pages := (total_results + page_size - 1) / page_size in
    Ok {| total_results := total_results;
          page_size := page_size;
          total_pages := total_pages;
          requires_pagination := 1 <? total_pages |}.

(** The two updates of [_generate_field_summary] on the entry of a
    field: the sample values and the count. *)
Definition record_value (d : FieldData) (v : value) : FieldData :=
  {| fd_sample_values :=
       if negb (in_samples v (fd_sample_values d))
       then if (length (fd_sample_values d) <? 5)%nat
            then (fd_sample_values d ++ [str v])%list
            else fd_sample_values d
       else fd_sample_values d;
     fd_value_count := incr (fd_value_count d) (str v) |}.

Definition new_field : FieldData := {| fd_sample_values := []; fd_value_count := [] |}.

(** The body of the inner loop of [_generate_field_summary] for a
    [(field, value)] item whose field is not internal: the entry of the
    field is created at the end when it is not there. *)
Fixpoint observe (summary : list (string * FieldData)) (field : string) (v : value)
  : list (string * FieldData) :=
  match summary with
  | [] => [(field, record_value new_field v)]
  | (f, d) :: summary' =>
      if String.eqb f field then (f, record_value d v) :: summary'
      else (f, d) :: observe summary' field v
  end.

Definition observe_item (summary : list (string * FieldData)) (item : string * value)
  : list (string * FieldData) :=
  if startswith (fst item) "_" then summary
  else observe summary (fst item) (snd item).

Definition observe_result (summary : list (string * FieldData)) (result : record)
  : list (string * FieldData) :=
  foldl observe_item summary result.

Definition format_field (data : FieldData) : FieldInfo :=
  {| sample_values := fd_sample_values data;
     unique_count := length (fd_value_count data);
     top_values := most_common (Some 5%nat) (fd_value_count data) |}.

Definition _generate_field_summary (results : list record) : list (string * FieldInfo) :=
  let sample_size := Nat.min 100 (length results) in
  let field_summary := foldl observe_result [] (take sample_size results) in
  map (fun fd => (fst fd, format_field (snd fd))) field_summary.

(** *** What the field summary is to say

    The notions the properties of the field summary are stated with;
    none of them is used by the code above. *)

(** The distinct elements of a list, in the order in which they are
    first seen. *)
Definition first_seen (l : list string) : list string :=
  foldl (fun seen x => if decide (x ∈ seen) then seen else (seen ++ [x])%list) [] l.

(** How often [x] occurs in [l]. *)
Definition occurrences (x : string) (l : list string) : nat :=
  length (filter (fun y => y = x) l).

(** The values, as text, of the items of a field, in the order of the
    items. *)
Definition field_values (field : string) (items : list (string * value)) : list string :=
  (fun item => str (snd item)) <$> filter (fun item => fst item = field) items.

(** The fields of the items that are not internal, each once, in
    first-seen order. *)
Definition public_fields (items : list (string * value)) : list string :=
  first_seen (filter (fun field => startswith field "_" = false) items.*1).

(** What an entry of the summary holds once the values [vals] of its
    field have been recorded. *)
Definition recorded (d : FieldData) (vals : list string) : Prop :=
  (fd_value_count d).*1 = first_seen vals
  /\ Forall (fun kc => snd kc = occurrences (fst kc) vals) (fd_value_count d)
  /\ fd_sample_values d = take 5 (first_seen vals).

(** [Counter(r.get(field, 'unknown') for r in results)]: a multivalue
    field is a list, which cannot be a key of a [Counter]. *)
Fixpoint count_field (field : string) (results : list record) (c : Counter)
  : result Counter :=
  match results with
  | [] => Ok c
  | r :: results' =>
      match default (VStr "unknown") (get r field) with
      | VStr s => count_field field results' (incr c s)
      | VMulti _ => Raise (LibraryError "TypeError" "unhashable type: 'list'")
      end
  end.

Definition any_has (field : string) (results : list record) : bool :=
  existsb (fun r => has_key r field) results.

(** [for severity_field in [...]: if any(...): ...; break] *)
Fixpoint severity_distribution (fields : list string) (results : list record)
  : result (option Counter) :=
  match fields with
  | [] => Ok None
  | severity_field :: fields' =>
      if any_has severity_field results
      then severities ← count_field severity_field results [];
           mret (Some (most_common None severities))
      else severity_distribution fields' results
  end.

Definition _generate_event_summary (results : list record) : result EventSummary :=
  match results with
  | [] => Ok {| es_total_events := None; es_unique_hosts := None; es_top_hosts := None;
                es_unique_sources := None; es_top_sources := None;
                es_sourcetypes := None; es_severity_distribution := None |}
  | _ =>
      hosts ← (if any_has "host" results
               then Some <$> count_field "host" results [] else Ok None);
      sources ← (if any_has "source" results
                 then Some <$> count_field "source" results [] else Ok None);
      sourcetypes ← (if any_has "sourcetype" results
                     then Some <$> count_field "sourcetype" results [] else Ok None);
      severities ← severity_distribution ["severity"; "level"; "log_level"] results;
      mret {| es_total_events := Some (length results);
              es_unique_hosts := length <$> hosts;
              es_top_hosts := most_common (Some 5%nat) <$> hosts;
              es_unique_sources := length <$> sources;
              es_top_sources := most_common (Some 5%nat) <$> sources;
              es_sourcetypes := most_common None <$> sourcetypes;
              es_severity_distribution := severities |}
  end.

(** [d[k] = v] on a dict kept in insertion order. *)
Fixpoint setitem (d : record) (k : string) (v : value) : record :=
  match d with
  | [] => [(k, v)]
  | (k', v') :: d' => if String.eqb k' k then (k', v) :: d' else (k', v') :: setitem d' k v
  end.

Definition priority_fields : list string :=
  ["_time"; "host"; "source"; "sourcetype"; "message"; "_raw"].

(** The body of the loop of [_clean_results] for one result. *)
Definition clean_result (result : record) : record :=
  let cleaned_result :=
    foldl (fun cleaned field =>
             match get result field with
             | Some v => setitem cleaned field v
             | None => cleaned
             end) [] priority_fields in
  let cleaned_result :=
    foldl (fun cleaned item =>
             if negb (startswith (fst item) "_") && negb (has_key cleaned (fst item))
             then setitem cleaned (fst item) (snd item)
             else cleaned) cleaned_result result in
  if negb (has_key cleaned_result "_raw") && negb (has_key cleaned_result "message")
  then
    foldl (fun cleaned item =>
             if startswith (fst item) "_"
                && negb (existsb (String.eqb (fst item)) ["_time"; "_raw"])
             then setitem cleaned (fst item) (snd item)
             else cleaned) cleaned_result result
  else cleaned_result.

Definition _clean_results (results : list record) : list record :=
  map clean_result results.

Definition tips_timeout : list string :=
  ["Query took too long to execute";
   "Try reducing the time range";
   "Add more specific filters to reduce data volume";
   "Consider using summary indexes for large datasets"].

Definition tips_http_error : list string :=
  ["Check your network connectivity";
   "Verify Splunk server is accessible";
   "Ensure credentials are correct";
   "Check if your account has necessary permissions"].

Definition tips_general_error : list string :=
  ["Verify query syntax is correct";
   "Check if specified indexes exist";
   "Ensure you have permissions for the requested data";
   "Try a simpler query to test connectivity"].

Definition _get_troubleshooting_tips (error_type : string) : list string :=
  if String.eqb error_type "timeout" then tips_timeout
  else if String.eqb error_type "http_error" then tips_http_error
  else tips_general_error.

Definition _format_error_response (query error error_type : string) : Report :=
  QueryError query now_isoformat error error_type (_get_troubleshooting_tips error_type).

Definition single_page_msg (total_results : Z) : string :=
  "Query completed with " +:+ pretty total_results +:+ " results".

Definition preview_msg (total_results page_size : Z) : string :=
  "Query returned " +:+ pretty total_results
  +:+ " results (exceeds page size of " +:+ pretty page_size +:+ "). "
  +:+ "Showing preview of first 100 results. "
  +:+ "Use pagination or refine your query for complete results.".

(** [format_query_response]: the dict it serializes. *)
Definition format_query_response (query_data : Envelope) (include_raw : bool)
    (page_size : Z) : result Report :=
  match query_data with
  | Error query error error_type => Ok (_format_error_response query error error_type)
  | Success query time_range stats results _ messages =>
      let total_results := Z.of_nat (length results) in
      pagination_info ← _calculate_pagination total_results page_size;
      let field_summary := _generate_field_summary results in
      event_summary ← _generate_event_summary results;
      let statistics :=
        {| st_total_events := event_count stats;
           st_total_results := total_results;
           st_scan_count := scan_count stats;
           st_execution_time := format_2f (run_duration stats) +:+ "s" |} in
      let splunk_messages :=
        match messages with [] => None | _ => Some messages end in
      if total_results <=? page_size
      then
        mret (QueryResults query now_isoformat time_range statistics pagination_info
                field_summary event_summary
                (if include_raw then Some (_clean_results results) else None)
                None
                (single_page_msg total_results)
                None
                splunk_messages)
      else
        mret (QueryResults query now_isoformat time_range statistics pagination_info
                field_summary event_summary
                None
                (Some (_clean_results (take 100 results)))
                (preview_msg total_results page_size)
                (Some {| pg_total_pages := total_pages pagination_info;
                         pg_results_per_page := page_size;
                         pg_suggestion :=
                           "Consider adding filters or time constraints to reduce result set" |})
                splunk_messages)
  end.

End WithRuntime.
End ResponseFormatter.

(** ** A small instance of the library interfaces

    Enough to run the model on examples: text is its own byte sequence,
    base64 is the identity, the derived key is the salt followed by the
    password, and a token is the key followed by the data. *)

Module Small.

Definition encode (s : string) : bytes := list_byte_of_string s.
Definition decode (b : bytes) : string := string_of_list_byte b.

Definition encrypt (key iv data : bytes) : bytes := (key ++ data)%list.
Fixpoint decrypt (key token : bytes) : option bytes :=
  match key, token with
  | [], _ => Some token
  | k :: key', t :: token' => if Byte.eqb k t then decrypt key' token' else None
  | _ :: _, [] => None
  end.

Definition lib : CryptoLib := {|
  sha256_hexdigest := decode;
  utf8_encode := encode;
  utf8_decode := fun b => Some (decode b);
  urlsafe_b64encode := fun b => b;
  urlsafe_b64decode := fun b => Some b;
  pbkdf2hmac_sha256 := fun _ salt _ pw => (salt ++ pw)%list;
  fernet_encrypt := encrypt;
  fernet_decrypt := decrypt
|}.

Definition runtime : PyRuntime := {|
  now_isoformat := "2024-01-01T00:00:00";
  format_2f := fun _ => "0.00";
  list_str := fun vs =>
    "[" +:+ String.concat ", " ((fun v => "'" +:+ v +:+ "'") <$> vs) +:+ "]"
|}.

Definition host : Host :=
  {| node := "0x1a2b3c4d5e6f"; env_USER := Some "splunk"; env_USERNAME := None;
     home := "/home/splunk"; system := "Linux"; machine := "x86_64" |}.

Definition salt : bytes := encode "0123456789abcdef".
Definition iv : bytes := encode "fedcba9876543210".

(** The password "hunter2" under the key the manager derives on [host]
    from [salt]. *)
Definition key : bytes :=
  @urlsafe_b64encode lib
    (@pbkdf2hmac_sha256 lib 32 salt 100000
       (encode (CredentialManager._machine_id (CredentialManager.__init__ (L := lib) host)))).

Definition token : bytes := encrypt key iv (encode "hunter2").

(** A dict with the keys [encrypt_password] of the script writes. *)
Definition script_output : gmap string string :=
  <["encrypted" := decode token]>
  (<["salt" := decode salt]>
   (<["machine_hash" :=
        CredentialManager._machine_hash (CredentialManager.__init__ (L := lib) host)]> ∅)).

(** A secret provisioned on another machine. *)
Definition foreign : gmap string string :=
  <["password_encrypted" := "c2VjcmV0"]>
  (<["password_salt" := "c2FsdA=="]>
   (<["machine_hash" := "00112233445566ff"]> ∅)).

(** Search results: three events, and the same multivalue field twice. *)
Definition events : list record :=
  [[("_time", VStr "2024-01-01T00:00:00"); ("host", VStr "web-1");
    ("level", VStr "ERROR"); ("_raw", VStr "disk full")];
   [("_time", VStr "2024-01-01T00:00:01"); ("host", VStr "web-2");
    ("level", VStr "INFO"); ("_raw", VStr "started")];
   [("_time", VStr "2024-01-01T00:00:02"); ("host", VStr "web-1");
    ("level", VStr "ERROR"); ("_raw", VStr "disk full")]].

Definition tagged : list record :=
  [[("tags", VMulti ["a"; "b"])]; [("tags", VMulti ["a"; "b"])]].

(** The configuration of a client provisioned on [host]. *)
Definition splunk_config : gmap string string :=
  <["host" := "splunk.example.com"]>
  (<["username" := "admin"]>
   (<["password_encrypted" := decode token]>
    (<["password_salt" := decode salt]>
     (<["machine_hash" :=
          CredentialManager._machine_hash (CredentialManager.__init__ (L := lib) host)]> ∅)))).

Definition client : SplunkClient.Client :=
  {| SplunkClient.splunk_config := splunk_config;
     SplunkClient.splunk_port := 8089;
     SplunkClient.splunk_verify_ssl := None;
     SplunkClient.query_settings :=
       {| SplunkClient.default_earliest_time := None;
          SplunkClient.default_latest_time := None;
          SplunkClient.max_results := Some 100;
          SplunkClient.max_execution_time := Some 2;
          SplunkClient.page_size := Some 1000;
          SplunkClient.include_raw_events := None |};
     SplunkClient.credential_manager := CredentialManager.__init__ (L := lib) host |}.

Definition credentials : CredentialManager.Credentials :=
  {| CredentialManager.username := "admin"; CredentialManager.password := "hunter2" |}.

(** A fresh client, and one that holds an open session. *)
Definition fresh : SplunkClient.State :=
  {| SplunkClient.now := 1700000000000; SplunkClient.steps := 0;
     SplunkClient.sleeps := []; SplunkClient.attempts := 0; SplunkClient.probes := 0;
     SplunkClient.polls := 0; SplunkClient.cancels := 0; SplunkClient.created := 0;
     SplunkClient.cred_log := [];
     SplunkClient._connections := None; SplunkClient._last_query_info := None |}.

Definition connected : SplunkClient.State :=
  SplunkClient.set_connection 0%nat fresh.

Definition stats : Stats :=
  {| scan_count := 120; event_count := 3; result_count := 3; run_duration := 1 # 4 |}.

Definition no_results : SplunkClient.ResultsData :=
  {| SplunkClient.rd_results := Some [];
     SplunkClient.rd_fields := None;
     SplunkClient.rd_messages := None |}.

(** A job that never finishes. *)
Definition endless_job : SplunkClient.Job :=
  {| SplunkClient.sid := "1700000000.17";
     SplunkClient.job_is_done := fun _ => Ok false;
     SplunkClient.job_cancel := Ok tt;
     SplunkClient.job_stats := Ok stats;
     SplunkClient.job_results := fun _ => Ok no_results |}.

(** A job that reports done from its fifth poll on. *)
Definition late_job : SplunkClient.Job :=
  {| SplunkClient.sid := "1700000000.20";
     SplunkClient.job_is_done := fun n => Ok (4 <=? n)%nat;
     SplunkClient.job_cancel := Ok tt;
     SplunkClient.job_stats := Ok stats;
     SplunkClient.job_results := fun _ => Ok no_results |}.

(** A finished job whose results are lost with the connection. *)
Definition dropped_job : SplunkClient.Job :=
  {| SplunkClient.sid := "1700000000.21";
     SplunkClient.job_is_done := fun _ => Ok true;
     SplunkClient.job_cancel := Ok tt;
     SplunkClient.job_stats := Ok stats;
     SplunkClient.job_results := fun _ => Raise (ConnectionError "Connection aborted.") |}.

(** A finished job whose results cannot be fetched. *)
Definition unreadable_job : SplunkClient.Job :=
  {| SplunkClient.sid := "1700000000.18";
     SplunkClient.job_is_done := fun _ => Ok true;
     SplunkClient.job_cancel := Ok tt;
     SplunkClient.job_stats := Ok stats;
     SplunkClient.job_results := fun _ => Raise (HTTPError 503 "Service Unavailable") |}.

(** A finished [metadata] job listing sourcetypes, one of them empty. *)
Definition sourcetypes_job : SplunkClient.Job :=
  {| SplunkClient.sid := "1700000000.19";
     SplunkClient.job_is_done := fun _ => Ok true;
     SplunkClient.job_cancel := Ok tt;
     SplunkClient.job_stats := Ok stats;
     SplunkClient.job_results := fun _ =>
       Ok {| SplunkClient.rd_results :=
               Some [[("sourcetype", VStr "syslog"); ("totalCount", VStr "12")];
                     [("sourcetype", VStr "")];
                     [("totalCount", VStr "7")];
                     [("sourcetype", VStr "access_combined")]];
             SplunkClient.rd_fields := None;
             SplunkClient.rd_messages := None |} |}.

(** A service whose connection attempts follow [attempt] and whose
    searches run as [job]. *)
Definition remote (attempt : nat -> result unit) (job : result SplunkClient.Job)
  : SplunkClient.Remote :=
  {| SplunkClient.gethostbyname := fun _ => None;
     SplunkClient.connect := fun _ => attempt;
     SplunkClient.apps_list := fun _ => Ok tt;
     SplunkClient.jobs_create := fun _ _ => job;
     SplunkClient.indexes_list := Ok ["main"; "history"];
     SplunkClient.latency := fun _ => 20 |}.


Definition rejecting (n : nat) : result unit := Raise (HTTPError 401 "Unauthorized").


Definition up (n : nat) : result unit := Ok tt.

End Small.

(** ** src/config/config_reader.py *)

Module ConfigReader.

(** A scalar of the YAML document. *)
Inductive scalar : Type :=
| SStr (s : string)
| SInt (n : Z)
| SBool (b : bool).

(** [str(v)] *)
Definition scalar_str (v : scalar) : string :=
  match v with
  | SStr s => s
  | SInt n => pretty n
  | SBool true => "True"
  | SBool false => "False"
  end.

(** The document the reader works on is a mapping of sections, and a
    section a mapping of scalars; both keep the order of the file, and
    their keys are distinct. *)
Definition section : Type := list (string * scalar).
Definition document : Type := list (string * section).

(** [k in d], [d.get(k)] and [d[k]]. *)
Definition contains {A} (d : list (string * A)) (k : string) : bool :=
  existsb (fun kv => String.eqb (fst kv) k) d.

Fixpoint find {A} (d : list (string * A)) (k : string) : option A :=
  match d with
  | [] => None
  | (k', v) :: d' => if String.eqb k' k then Some v else find d' k
  end.

Definition item {A} (d : list (string * A)) (k : string) : result A :=
  of_option (KeyError k) (find d k).

(** [d[k] = v] *)
Fixpoint assign {A} (d : list (string * A)) (k : string) (v : A) : list (string * A) :=
  match d with
  | [] => [(k, v)]
  | (k', v') :: d' => if String.eqb k' k then (k', v) :: d' else (k', v') :: assign d' k v
  end.

(** What opening and parsing the configuration file comes to. *)
Inductive file : Type :=
| Missing                                 (* the path does not exist *)
| Failed (yaml_error : bool) (e : exn)    (* [open] or [yaml.safe_load] raised [e];
                                             [yaml_error]: [e] is a [yaml.YAMLError] *)
| Loaded (config : option document).      (* [None]: an empty file *)

Definition newline : string := String (ascii_of_nat 10) "".

(** [_load_config]: the [ValueError] of an empty file is raised inside
    the [try] block, so the last [except] clause catches it and raises
    its own. *)
Definition _load_config (config_path : string) (f : file) : result document :=
  match f with
  | Missing =>
      Raise (LibraryError "FileNotFoundError"
               ("Configuration file not found: " +:+ config_path +:+ newline
                +:+ "Please ensure config.yml exists and is properly configured."))
  | Failed true e =>
      Raise (ValueError ("Invalid YAML in configuration file: " +:+ exn_str e))
  | Failed false e =>
      Raise (ValueError ("Error loading configuration: " +:+ exn_str e))
  | Loaded None =>
      Raise (ValueError ("Error loading configuration: "
                         +:+ exn_str (ValueError "Configuration file is empty")))
  | Loaded (Some config) => Ok config
  end.

(** [for section in required_sections: ...] *)
Fixpoint require_sections (config : document) (required_sections : list string)
  : result unit :=
  match required_sections with
  | [] => Ok tt
  | section :: rest =>
      if negb (contains config section)
      then Raise (ValueError ("Missing required configuration section: " +:+ section))
      else require_sections config rest
  end.

Definition _validate_config (config : document) : result unit :=
  require_sections config ["splunk"; "indexes"; "query_settings"] ;;
  splunk ← item config "splunk";
  if negb (contains splunk "host")
  then Raise (ValueError "Missing 'host' in splunk configuration")
  else if negb (contains splunk "port")
  then Raise (ValueError "Missing 'port' in splunk configuration")
  else if negb (contains splunk "username")
  then Raise (ValueError "Missing 'username' in splunk configuration")
  else
    indexes ← item config "indexes";
    if negb (contains indexes "uat")
    then Raise (ValueError "Missing 'uat' indexes in configuration")
    else if negb (contains indexes "prod")
    then Raise (ValueError "Missing 'prod' indexes in configuration")
    else Ok tt.

(** [ConfigReader(config_path)]: the [config] attribute it ends with. *)
Definition __init__ (config_path : string) (f : file) : result document :=
  config ← _load_config config_path f;
  _validate_config config ;;
  Ok config.

Definition get_splunk_config (config : document) : result section :=
  item config "splunk".

Definition get_index_for_environment (config : document) (environment : string)
  : result scalar :=
  indexes ← item config "indexes";
  if negb (contains indexes environment)
  then
    let available := indexes.*1 in
    Raise (ValueError ("Environment '" +:+ environment +:+ "' not found. "
                       +:+ "Available environments: " +:+ String.concat ", " available))
  else item indexes environment.

Definition default_query_settings : section :=
  [("default_earliest_time", SStr "-30d");
   ("default_latest_time", SStr "now");
   ("max_results", SInt 10000);
   ("page_size", SInt 1000);
   ("output_mode", SStr "json");
   ("include_field_summary", SBool true);
   ("include_raw_events", SBool true);
   ("max_execution_time", SInt 300)].

Definition get_query_settings (config : document) : section :=
  default default_query_settings (find config "query_settings").

Definition list_environments (config : document) : result (list string) :=
  indexes ← item config "indexes";
  Ok indexes.*1.

(** The entries of a section whose value is a string, as the credential
    manager reads them.  An entry with a number or a truth value is left
    out: this stands for the section only where the entries looked at
    are strings or absent. *)
Definition strings_of (s : section) : gmap string string :=
  foldr (fun kv acc => match snd kv with
                       | SStr v => <[fst kv := v]> acc
                       | _ => delete (fst kv) acc
                       end) ∅ s.

End ConfigReader.

(** ** The rest of src/utils/splunk_client.py *)

(** What the server takes from the interpreter besides [PyRuntime]. *)
Class PyText : Type := {
  str_upper : string -> string;     (* [s.upper()] *)
  strftime_now : string             (* [time.strftime('%Y-%m-%d %H:%M:%S')] *)
}.

Module ClientStatus.
Import SplunkClient.

Record ServerInfo : Type := { version : string; build : string; server_name : string }.

(** The dict [check_connection] returns. *)
Inductive ConnectionData : Type :=
| Connected (server_info : ServerInfo) (available_indexes : list string)
            (connection_time : string)
| Unreachable (error : string) (connection_time : string).

(** Two calls on a session that the query code does not make. *)
Record Admin : Type := {
  service_info : result (gmap string string);    (* [service.info()] *)
  service_logout : Service -> result unit        (* [service.logout()] *)
}.

Definition clear_connections (s : State) : State :=
  {| now := now s; steps := steps s;
     sleeps := sleeps s; attempts := attempts s; probes := probes s;
     polls := polls s; cancels := cancels s; created := created s; cred_log := cred_log s;
     _connections := None; _last_query_info := _last_query_info s |}.

Section WithRemote.
Context {L : CryptoLib} {T : PyText} (rm : Remote) (adm : Admin) (self : Client).

Definition remote_info (service : Service) : M (gmap string string) := fun s =>
  (Some (service_info adm), elapse rm 0 s).

Definition remote_logout (service : Service) : M unit := fun s =>
  (Some (service_logout adm service), elapse rm 0 s).

(** [current_user] is [None]: [credentials] is not a local name of the
    method, so [service.users] is not read. *)
Definition check_connection : M ConnectionData :=
  r ← try (service ← get_connection rm self false;
           info ← remote_info service;
           names ← remote_indexes rm;
           let indexes := take 10 names in
           mret (Connected
                   {| version := default "Unknown" (info !! "version");
                      build := default "Unknown" (info !! "build");
                      server_name := default "Unknown" (info !! "serverName") |}
                   indexes strftime_now));
  match r with
  | Ok data => mret data
  | Raise e => mret (Unreachable (exn_str e) strftime_now)
  end.

Definition close_all_connections : M unit :=
  cached ← gets _connections;
  match cached with
  | Some service => try (remote_logout service) ;; mret tt
  | None => mret tt
  end ;;
  modify clear_connections.

End WithRemote.
End ClientStatus.

(** ** The rest of src/utils/response_formatter.py, and splunk_mcp.py *)

Module Server.
Import SplunkClient ClientStatus ConfigReader.

(** The dicts handed to [json.dumps], one constructor per shape. *)
Inductive Response : Type :=
| ConnectionStatus (status timestamp : string) (server_info : option ServerInfo)
                   (available_indexes : option (list string)) (error : option string)
                   (message : string)
| IndexesList (timestamp : string) (total_indexes : nat) (indexes : list string)
              (message : string)
| SourcetypesList (timestamp : string) (total_sourcetypes : nat) (sourcetypes : list value)
                  (index : option string) (message : string)
| EnvironmentIndex (environment timestamp : string) (index : scalar) (message : string)
| QueryResponse (report : ResponseFormatter.Report)
| ToolError (tool error message : string).

(** The arguments of a tool call, by key; [None] is an absent key. *)
Record Arguments : Type := {
  arg_environment : option string;
  arg_query : option string;
  arg_earliest_time : option string;
  arg_latest_time : option string;
  arg_max_results : option Z;
  arg_index : option string
}.

(** [query.replace('\\"', '"')] *)
Fixpoint unescape_quotes (query : string) : string :=
  match query with
  | String a rest =>
      match rest with
      | String b rest' =>
          if Ascii.eqb a "\"%char && Ascii.eqb b (ascii_of_nat 34)
          then String b (unescape_quotes rest')
          else String a (unescape_quotes rest)
      | EmptyString => query
      end
  | EmptyString => EmptyString
  end.

(** The exception classes the [except] clauses of [call_tool] select,
    with the subclasses that this development names. *)
Definition is_FileNotFoundError (e : exn) : bool :=
  match e with
  | LibraryError cls _ => String.eqb cls "FileNotFoundError"
  | _ => false
  end.

Definition is_ValueError (e : exn) : bool :=
  match e with
  | ValueError _ => true
  | LibraryError cls _ => existsb (String.eqb cls) ["UnicodeDecodeError"; "binascii.Error"]
  | _ => false
  end.

Definition is_ConnectionError (e : exn) : bool :=
  match e with
  | ConnectionError _ => true
  | LibraryError cls _ => String.eqb cls "ConnectionRefusedError"
  | _ => false
  end.

Definition config_not_found_msg : string :=
  "Configuration file not found. Please create config.yaml from config.yaml.example".

Definition connection_failed_msg : string :=
  "Failed to connect to Splunk. Check your configuration and network.".

(** The four [except] clauses of [call_tool], in their order. *)
Definition error_response (name : string) (e : exn) : Response :=
  if is_FileNotFoundError e then ToolError name (exn_str e) config_not_found_msg
  else if is_ValueError e
  then ToolError name (exn_str e) ("Invalid parameters: " +:+ exn_str e)
  else if is_ConnectionError e then ToolError name (exn_str e) connection_failed_msg
  else ToolError name (exn_str e)
         ("Failed to execute " +:+ name +:+ ": " +:+ exn_str e).

(** The reader's configuration in memory.  The top-level dict holds
    references to the dicts of the sections; [dict.copy()] copies the
    references, not the sections. *)
Record Memory : Type := {
  heap : nat -> section;              (* the section dicts, by address *)
  config : list (string * nat)        (* [config_reader.config] *)
}.

(** What a top-level dict holds, read through the heap. *)
Definition deref (m : Memory) (top : list (string * nat)) : document :=
  map (fun kv => (fst kv, heap m (snd kv))) top.

(** The reader's [config] attribute as a document. *)
Definition view (m : Memory) : document := deref m (config m).

(** [d[k] = v] on the dict at address [a]. *)
Definition store (m : Memory) (a : nat) (k : string) (v : scalar) : Memory :=
  {| heap := fun b => if Nat.eqb b a then assign (heap m a) k v else heap m b;
     config := config m |}.

(** What [read_resource] serializes. *)
Inductive Resource : Type :=
| ConfigResource (config : document)
| EnvironmentsResource (env_info : list (string * scalar))
| ResourceError (error : string).

(** [if key in config['splunk']: config['splunk'][key] = mask] *)
Definition mask (a : nat) (key : string) (masked : string) (m : Memory) : Memory :=
  if contains (heap m a) key then store m a key (SStr masked) else m.

(** [for env in environments: env_info[env] = {"index": index}]; the
    one-key dict is its value here. *)
Fixpoint environment_indexes (cfg : document) (environments : list string)
    (env_info : list (string * scalar)) : result (list (string * scalar)) :=
  match environments with
  | [] => Ok env_info
  | env :: rest =>
      index ← get_index_for_environment cfg env;
      environment_indexes cfg rest (assign env_info env index)
  end.

Definition read_resource (uri : string) (m : Memory) : Resource * Memory :=
  if String.eqb uri "splunk://config" then
    (* [config_reader.config.copy()] *)
    let config := config m in
    let m :=
      match find config "splunk" with
      | Some a =>
          mask a "password_salt" "***SALT***"
            (mask a "password_encrypted" "***ENCRYPTED***"
               (mask a "password" "***HIDDEN***" m))
      | None => m
      end in
    (ConfigResource (deref m config), m)
  else if String.eqb uri "splunk://environments" then
    match (environments ← list_environments (view m);
           environment_indexes (view m) environments []) with
    | Ok env_info => (EnvironmentsResource env_info, m)
    | Raise e => (ResourceError (exn_str e), m)
    end
  else (ResourceError (exn_str (ValueError ("Unknown resource: " +:+ uri))), m).

Section WithRemote.
Context {L : CryptoLib} {R : PyRuntime} {T : PyText}.
Context (rm : Remote) (adm : Admin) (self : Client) (cfg : document).

Definition format_connection_response (connection_data : ConnectionData) : Response :=
  match connection_data with
  | Connected server_info available_indexes _ =>
      ConnectionStatus "connected" now_isoformat (Some server_info)
        (Some available_indexes) None "Successfully connected to Splunk"
  | Unreachable error _ =>
      ConnectionStatus "error" now_isoformat None None (Some error)
        "Failed to connect to Splunk"
  end.

Definition format_indexes_response (indexes : list string) : Response :=
  IndexesList now_isoformat (length indexes) indexes
    ("Found " +:+ pretty (length indexes) +:+ " indexes").

Definition format_sourcetypes_response (sourcetypes : list value) (index : option string)
  : Response :=
  match index with
  | Some i =>
      if String.eqb i ""
      then SourcetypesList now_isoformat (length sourcetypes) sourcetypes None
             ("Found " +:+ pretty (length sourcetypes) +:+ " sourcetypes")
      else SourcetypesList now_isoformat (length sourcetypes) sourcetypes (Some i)
             ("Found " +:+ pretty (length sourcetypes) +:+ " sourcetypes in index '"
              +:+ i +:+ "'")
  | None =>
      SourcetypesList now_isoformat (length sourcetypes) sourcetypes None
        ("Found " +:+ pretty (length sourcetypes) +:+ " sourcetypes")
  end.

Definition format_environment_index_response (environment : string) (index : scalar)
  : Response :=
  EnvironmentIndex environment now_isoformat index
    ("Index for " +:+ str_upper environment +:+ " environment: " +:+ scalar_str index).

(** [if not value: raise ValueError(...)] for an argument read with
    [arguments.get]. *)
Definition required (value : option string) (msg : string) : M string :=
  match value with
  | Some v => if String.eqb v "" then raise (ValueError msg) else mret v
  | None => raise (ValueError msg)
  end.

(** The [try] block of [call_tool].  [get_config_reader()] returns the
    reader built when the client module was imported; the query settings
    are those the client holds. *)
Definition call_tool_body (fuel : nat) (name : string) (arguments : Arguments)
  : M Response :=
  let query_settings := query_settings self in
  if String.eqb name "get_index_for_environment" then
    environment ← required (arg_environment arguments) "environment parameter is required";
    index ← lift (get_index_for_environment cfg environment);
    mret (format_environment_index_response environment index)
  else if String.eqb name "check_connection" then
    result ← check_connection rm adm self;
    mret (format_connection_response result)
  else if String.eqb name "execute_query" then
    query ← required (arg_query arguments) "query parameter is required";
    let query := unescape_quotes query in
    result ← execute_query rm self fuel query
               (arg_earliest_time arguments) (arg_latest_time arguments)
               (arg_max_results arguments) None;
    formatted ← lift (ResponseFormatter.format_query_response result
                        (default true (include_raw_events query_settings))
                        (default 1000 (page_size query_settings)));
    mret (QueryResponse formatted)
  else if String.eqb name "get_available_indexes" then
    indexes ← get_indexes rm self;
    mret (format_indexes_response indexes)
  else if String.eqb name "get_sourcetypes" then
    sourcetypes ← get_sourcetypes rm self fuel (arg_index arguments);
    mret (format_sourcetypes_response sourcetypes (arg_index arguments))
  else raise (ValueError ("Unknown tool: " +:+ name)).

Definition call_tool (fuel : nat) (name : string) (arguments : Arguments) : M Response :=
  r ← try (call_tool_body fuel name arguments);
  match r with
  | Ok response => mret response
  | Raise e => mret (error_response name e)
  end.

End WithRemote.
End Server.

(** ** A small configuration and server *)

Module SmallServer.
Import ConfigReader.

(** [upper] on ASCII letters. *)
Fixpoint upper (s : string) : string :=
  match s with
  | String a s' =>
      let n := nat_of_ascii a in
      String (if ((97 <=? n) && (n <=? 122))%nat then ascii_of_nat (n - 32) else a)
             (upper s')
  | EmptyString => EmptyString
  end.

Definition text : PyText :=
  {| str_upper := upper; strftime_now := "2024-01-01 00:00:00" |}.

Definition splunk : section :=
  [("host", SStr "splunk.example.com"); ("port", SInt 8089);
   ("username", SStr "admin"); ("password", SStr "hunter2");
   ("verify_ssl", SBool false)].

Definition indexes : section := [("uat", SStr "app_uat"); ("prod", SStr "app_prod")].

Definition config : document :=
  [("splunk", splunk); ("indexes", indexes);
   ("query_settings", [("page_size", SInt 1000)])].

(** The reader's configuration with its three sections at the addresses
    0, 1 and 2. *)
Definition memory : Server.Memory :=
  {| Server.heap := fun a =>
       match a with
       | O => splunk
       | S O => indexes
       | _ => [("page_size", SInt 1000)]
       end;
     Server.config := [("splunk", 0%nat); ("indexes", 1%nat); ("query_settings", 2%nat)] |}.

Definition admin : ClientStatus.Admin :=
  {| ClientStatus.service_info := Ok (<["version" := "9.1.2"]> ∅);
     ClientStatus.service_logout := fun _ => Ok tt |}.

Definition no_arguments : Server.Arguments :=
  {| Server.arg_environment := None; Server.arg_query := None;
     Server.arg_earliest_time := None; Server.arg_latest_time := None;
     Server.arg_max_results := None; Server.arg_index := None |}.

End SmallServer.

(** * Properties *)

(** ** The small instance satisfies the library contracts *)

Lemma small_decrypt_encrypt (key iv data : bytes) :
  Small.decrypt key (Small.encrypt key iv data) = Some data.
Proof.
  unfold Small.encrypt. induction key as [|k key IH]; simpl; [reflexivity|].
  rewrite (Byte.byte_dec_lb (x:=k) (y:=k) eq_refl). exact IH.
Qed.

Lemma small_lib_laws : CryptoLaws Small.lib.
Proof.
  split; simpl.
  - apply small_decrypt_encrypt.
  - reflexivity.
  - intros s. unfold Small.decode, Small.encode.
    now rewrite string_of_list_byte_of_string.
  - intros b s [= <-]. unfold Small.decode, Small.encode.
    apply list_byte_of_string_of_list_byte.
Qed.

(** ** Credential vault *)

Section CredentialProperties.
Context {L : CryptoLib}.

(** The script and the manager compute the same machine identity. *)
Lemma machine_id_agree (h : Host) :
  CredentialManager._get_machine_id h = EncryptScript.get_machine_id h.
Proof. reflexivity. Qed.

Lemma machine_hash_agree (h : Host) :
  CredentialManager._machine_hash (CredentialManager.__init__ h)
  = EncryptScript.machine_hash_of (EncryptScript.get_machine_id h).
Proof. reflexivity. Qed.

(** The manager's side of the round trip: a dict that carries, under the
    keys the manager reads, the text of a token made on the same host
    with a key derived by [PBKDF2HMAC]. *)
Lemma decrypt_password_of_encrypted (Laws : CryptoLaws L) (h : Host)
    (fresh iv : bytes) (S e s : string) (d : gmap string string) :
  let machine_id := CredentialManager._get_machine_id h in
  let key := urlsafe_b64encode
               (pbkdf2hmac_sha256 32 fresh 100000 (utf8_encode machine_id)) in
  utf8_decode (urlsafe_b64encode (fernet_encrypt key iv (utf8_encode S))) = Some e ->
  utf8_decode (urlsafe_b64encode fresh) = Some s ->
  d !! "machine_hash" = Some (CredentialManager._machine_hash (CredentialManager.__init__ h)) ->
  d !! "password_salt" = Some s ->
  d !! "password_encrypted" = Some e ->
  snd (CredentialManager.decrypt_password (CredentialManager.__init__ h) d) = Ok S.
Proof.
  intros machine_id key He Hs Hm Hsalt Henc.
  unfold CredentialManager.decrypt_password.
  rewrite bool_decide_eq_false_2 by (rewrite Hm; intros Hne; by apply Hne).
  unfold getitem. rewrite Hsalt, Henc. cbn.
  rewrite (utf8_encode_decode _ _ Hs), (utf8_encode_decode _ _ He).
  rewrite !b64_decode_encode. cbn.
  fold machine_id. fold key.
  rewrite fernet_decrypt_encrypt. cbn.
  by rewrite utf8_decode_encode.
Qed.

(** The import at line 21 of the script fails: the module has no
    [PBKDF2]. *)
Lemma imports_raise :
  EncryptScript.imports
  = Raise (LibraryError "ImportError"
             "cannot import name 'PBKDF2' from 'cryptography.hazmat.primitives.kdf.pbkdf2'").
Proof. reflexivity. Qed.

(** The manager reads [password_salt] and [password_encrypted]: a dict
    with the keys [encrypt_password] of the script writes passes the
    machine check on the same host and then misses [password_salt]. *)
Lemma decrypt_password_script_keys (h : Host) (e s : string) :
  CredentialManager.decrypt_password (CredentialManager.__init__ h)
    (<["encrypted" := e]>
     (<["salt" := s]>
      (<["machine_hash" :=
           EncryptScript.machine_hash_of (EncryptScript.get_machine_id h)]> ∅)))
  = ([], Raise (ValueError "Failed to decrypt password: 'password_salt'")).
Proof.
  unfold CredentialManager.decrypt_password.
  rewrite bool_decide_eq_false_2.
  - reflexivity.
  - intros Hne. apply Hne. by simplify_map_eq.
Qed.

(** C1. The round trip does not hold of the code.  The provisioning
    script stops at its imports with [ImportError], for the name
    [PBKDF2] it asks of the key derivation module is not there: on every
    host and for every secret [S], [encrypt_password], the script's own
    [decrypt_password] and [main] raise that error, and no ciphertext,
    salt or machine hash is produced.  And a dict with the three keys
    [encrypt_password] is written to return ([encrypted], [salt],
    [machine_hash]), whatever its ciphertext and salt, is refused by
    [CredentialManager.decrypt_password] on the same host, which reads
    [password_salt] and [password_encrypted]. *)
Theorem C1_encrypt_password_fails_at_import (h : Host) (fresh iv : bytes) (S : string) :
  let import_error :=
    LibraryError "ImportError"
      "cannot import name 'PBKDF2' from 'cryptography.hazmat.primitives.kdf.pbkdf2'" in
  EncryptScript.encrypt_password h fresh iv S = Raise import_error
  /\ (forall encrypted_data,
        EncryptScript.decrypt_password h encrypted_data = Raise import_error)
  /\ (forall username confirm,
        EncryptScript.main h fresh iv username S confirm = Raise import_error)
  /\ (forall e s,
        snd (CredentialManager.decrypt_password (CredentialManager.__init__ h)
               (<["encrypted" := e]>
                (<["salt" := s]>
                 (<["machine_hash" :=
                      EncryptScript.machine_hash_of (EncryptScript.get_machine_id h)]> ∅))))
        = Raise (ValueError "Failed to decrypt password: 'password_salt'")).
Proof.
  intros import_error. split; [|split; [|split]].
  - unfold EncryptScript.encrypt_password. by rewrite imports_raise.
  - intros d. unfold EncryptScript.decrypt_password. by rewrite imports_raise.
  - intros user confirm. unfold EncryptScript.main. by rewrite imports_raise.
  - intros e s. by rewrite decrypt_password_script_keys.
Qed.

(** C2. When the machine hash of the encrypted data is not the
    truncated hash of this host's machine digest, [decrypt_password]
    raises the different-machine error and has asked nothing of the
    libraries: no base64 decoding, no key derivation, no decryption. *)
Theorem C2_machine_mismatch_fails_fast (h : Host) (encrypted_data : gmap string string) :
  encrypted_data !! "machine_hash"
    ≠ Some (String.substring 0 16
              (sha256_hexdigest (utf8_encode (CredentialManager._get_machine_id h)))) ->
  CredentialManager.decrypt_password (CredentialManager.__init__ h) encrypted_data
  = ([], Raise (ValueError CredentialManager.different_machine_msg)).
Proof.
  intros Hne. unfold CredentialManager.decrypt_password.
  rewrite bool_decide_eq_true_2 by exact Hne. reflexivity.
Qed.

End CredentialProperties.

Section CredentialExamples.
#[local] Existing Instance Small.lib.

Lemma C2_machine_mismatch_fails_fast_witness :
CredentialManager.decrypt_password (CredentialManager.__init__ Small.host) Small.foreign
= ([], Raise (ValueError CredentialManager.different_machine_msg)).
Proof.
apply (C2_machine_mismatch_fails_fast Small.host Small.foreign).
vm_compute. discriminate.
Defined.

(** The manager does decrypt what was provisioned for it on the host. *)
Example manager_decrypts_provisioned :
  snd (CredentialManager.get_credentials (CredentialManager.__init__ Small.host)
         Small.splunk_config)
  = Ok Small.credentials.
Proof. vm_compute. reflexivity. Qed.

Example manager_refuses_script_output :
  CredentialManager.decrypt_password (CredentialManager.__init__ Small.host)
    Small.script_output
  = ([], Raise (ValueError "Failed to decrypt password: 'password_salt'")).
Proof. vm_compute. reflexivity. Qed.

End CredentialExamples.


(** ** Query session: connection retries *)

Section SessionProperties.
Context {L : CryptoLib} (rm : SplunkClient.Remote) (self : SplunkClient.Client).
Import SplunkClient.

Lemma bind_run {A B} (m : M A) (k : A -> M B) (s : State) :
  (m ≫= k) s =
  match m s with
  | (Some (Ok a), s') => k a s'
  | (Some (Raise e), s') => (Some (Raise e), s')
  | (None, s') => (None, s')
  end.
Proof. reflexivity. Qed.








End SessionProperties.


(** ** Query executor *)

Section ExecutorProperties.
Context {L : CryptoLib} (rm : SplunkClient.Remote) (self : SplunkClient.Client).
Import SplunkClient.

(** Opening or reusing a session touches no job. *)
Lemma keeps_bind {A B} (m : M A) (k : A -> M B) :
  keeps_jobs m -> (forall a, keeps_jobs (k a)) -> keeps_jobs (m ≫= k).
Proof.
  intros Hm Hk s. rewrite bind_run. specialize (Hm s).
  destruct (m s) as [[[a|e]|] s1]; simpl in *; [|exact Hm|exact Hm].
  destruct (Hk a s1) as (Hc & Hp & Hj). destruct Hm as (Hc1 & Hp1 & Hj1).
  repeat split; congruence.
Qed.

Lemma keeps_try {A} (m : M A) : keeps_jobs m -> keeps_jobs (try m).
Proof.
  intros Hm s. unfold try. specialize (Hm s).
  by destruct (m s) as [[r|] s1].
Qed.

(** Leaves: [mret], [raise], [lift], [gets] and the like. *)
Ltac keeps_leaf := by intros ?.

Lemma keeps_modify (f : State -> State) :
  (forall s, cancels (f s) = cancels s /\ polls (f s) = polls s
             /\ created (f s) = created s) ->
  keeps_jobs (modify f).
Proof. intros Hf s. apply Hf. Qed.

Lemma keeps_remote_connect (kwargs : ConnectArgs) : keeps_jobs (remote_connect rm kwargs).
Proof. by intros s. Qed.

Lemma keeps_retry_loop (kwargs : ConnectArgs) (retry_count : Z) (todo : list Z) :
  forall last_error, keeps_jobs (retry_loop rm kwargs retry_count todo last_error).
Proof.
  induction todo as [|attempt todo IH]; intros last_error; [keeps_leaf|].
  cbn [retry_loop]. apply keeps_bind; [apply keeps_try, keeps_remote_connect|].
  intros [service|e]; try keeps_leaf.
  destruct (is_auth_failure e); [keeps_leaf|].
  apply keeps_bind; [|intros _; apply IH].
  destruct (attempt <? retry_count - 1); [by apply keeps_modify|keeps_leaf].
Qed.

Lemma keeps_create_connection (retry_count : Z) :
  keeps_jobs (_create_connection rm self retry_count).
Proof.
  unfold _create_connection.
  apply keeps_bind; [by intros s|]. intros credentials.
  apply keeps_bind; [keeps_leaf|]. intros hostname.
  apply keeps_retry_loop.
Qed.

Lemma keeps_reconnect : keeps_jobs (reconnect rm self).
Proof.
  unfold reconnect. apply keeps_bind; [apply keeps_create_connection|].
  intros service. apply keeps_bind; [by apply keeps_modify|]. intros _. keeps_leaf.
Qed.

Lemma keeps_get_connection (force_new : bool) : keeps_jobs (get_connection rm self force_new).
Proof.
  unfold get_connection.
  apply keeps_bind; [keeps_leaf|]. intros cached.
  apply keeps_bind.
  { destruct force_new, cached; first [apply keeps_reconnect | keeps_leaf]. }
  intros current. apply keeps_bind; [by apply keeps_try; intros s|].
  intros [[]|e]; first [apply keeps_reconnect | keeps_leaf].
Qed.

(** One round of the polling loop. *)
Lemma wait_for_job_step (fuel : nat) (job : Job) (start_time timeout : Z) (s : State) :
  wait_for_job rm (S fuel) job start_time timeout s =
  let s1 := count_poll (elapse rm 0 s) in
  match job_is_done job (polls s) with
  | Ok true => (Some (Ok tt), s1)
  | Ok false =>
      if seconds timeout <? now s1 - start_time
      then (Some (match job_cancel job with
                  | Ok _ => Raise (TimeoutError (timeout_msg timeout))
                  | Raise e => Raise e
                  end), count_cancel (elapse rm 0 s1))
      else wait_for_job rm fuel job start_time timeout (after_sleep rm 500 s1)
  | Raise e => (Some (Raise e), s1)
  end.
Proof.
  cbn [wait_for_job]. rewrite bind_run. unfold remote_is_done.
  destruct (job_is_done job (polls s)) as [[]|e]; try reflexivity.
  rewrite bind_run. unfold time, gets. cbv zeta.
  destruct (seconds timeout <? _); [|reflexivity].
  rewrite bind_run. unfold remote_cancel. by destruct (job_cancel job) as [[]|e].
Qed.

(** A job that is never done: once [timeout] seconds separate the clock
    from [start_time] the loop cancels the job, once, and raises.  Every
    round sleeps half a second, so [2 * timeout] rounds are enough. *)
Lemma wait_for_job_times_out (job : Job) (start_time timeout : Z) :
  (forall n, job_is_done job n = Ok false) ->
  job_cancel job = Ok tt ->
  (forall n, 0 <= latency rm n) ->
  forall (fuel : nat) (s : State),
    seconds timeout - (now s - start_time) < 500 * Z.of_nat fuel ->
    exists s',
      wait_for_job rm (S fuel) job start_time timeout s
      = (Some (Raise (TimeoutError (timeout_msg timeout))), s')
      /\ cancels s' = S (cancels s)
      /\ created s' = created s
      /\ seconds timeout < now s' - start_time.
Proof.
  intros Hbusy Hcancel Hlat.
  induction fuel as [|fuel IH]; intros s Hfuel;
    rewrite wait_for_job_step, Hbusy, Hcancel; cbv zeta;
    pose proof (Hlat (steps s)); pose proof (Hlat (S (steps s))).
  - rewrite (proj2 (Z.ltb_lt _ _)) by (cbn; lia).
    eexists. split; [reflexivity|]. cbn. repeat split. lia.
  - destruct (seconds timeout <? _) eqn:Hlate.
    + apply Z.ltb_lt in Hlate. cbn in Hlate.
      eexists. split; [reflexivity|]. cbn. repeat split. lia.
    + apply Z.ltb_ge in Hlate. cbn in Hlate.
      destruct (IH (after_sleep rm 500 (count_poll (elapse rm 0 s))))
        as (s' & Hrun & Hc & Hj & Hn); [cbn; lia|].
      exists s'. split; [exact Hrun|]. split; [exact Hc|]. split; [exact Hj|exact Hn].
Qed.

(** Opening or reusing a session never runs out of fuel: it has no
    unbounded loop. *)
Lemma terminates_bind {A B} (m : M A) (k : A -> M B) :
  terminates m -> (forall a, terminates (k a)) -> terminates (m ≫= k).
Proof.
  intros Hm Hk s. rewrite bind_run. specialize (Hm s).
  destruct (m s) as [[[a|e]|] s1]; simpl in *; [apply Hk|done|done].
Qed.

Lemma terminates_try {A} (m : M A) : terminates m -> terminates (try m).
Proof.
  intros Hm s. unfold try. specialize (Hm s). by destruct (m s) as [[r|] s1].
Qed.

Ltac terminates_leaf := by intros ?.

Lemma terminates_retry_loop (kwargs : ConnectArgs) (retry_count : Z) (todo : list Z) :
  forall last_error, terminates (retry_loop rm kwargs retry_count todo last_error).
Proof.
  induction todo as [|attempt todo IH]; intros last_error; [terminates_leaf|].
  cbn [retry_loop]. apply terminates_bind; [apply terminates_try; terminates_leaf|].
  intros [service|e]; try terminates_leaf.
  destruct (is_auth_failure e); [terminates_leaf|].
  apply terminates_bind; [|intros _; apply IH].
  destruct (attempt <? retry_count - 1); terminates_leaf.
Qed.

Lemma terminates_reconnect : terminates (reconnect rm self).
Proof.
  unfold reconnect, _create_connection.
  apply terminates_bind.
  - apply terminates_bind; [terminates_leaf|]. intros credentials.
    apply terminates_bind; [terminates_leaf|]. intros hostname.
    apply terminates_retry_loop.
  - intros service. apply terminates_bind; [terminates_leaf|]. intros _. terminates_leaf.
Qed.

Lemma terminates_get_connection (force_new : bool) :
  terminates (get_connection rm self force_new).
Proof.
  unfold get_connection.
  apply terminates_bind; [terminates_leaf|]. intros cached.
  apply terminates_bind.
  { destruct force_new, cached; first [apply terminates_reconnect | terminates_leaf]. }
  intros current. apply terminates_bind; [apply terminates_try; terminates_leaf|].
  intros [[]|e]; first [apply terminates_reconnect | terminates_leaf].
Qed.

(** [execute_query] once the session is there: the rest of the [try]
    block and the [except] clauses. *)
Lemma execute_query_connected (fuel : nat) (query : string)
    (earliest_time latest_time : option string) (max_results timeout : option Z)
    (s s1 : State) (service : Service) :
  get_connection rm self false s = (Some (Ok service), s1) ->
  execute_query rm self fuel query earliest_time latest_time max_results timeout s =
  let q := normalize_query query in
  match run_job rm fuel q
          (or_setting earliest_time (default_earliest_time (query_settings self)) "-30d")
          (or_setting latest_time (default_latest_time (query_settings self)) "now")
          (or_setting max_results (SplunkClient.max_results (query_settings self)) 10000)
          (or_setting timeout (max_execution_time (query_settings self)) 300)
          service s1 with
  | (Some (Ok envelope), s2) => (Some (Ok envelope), s2)
  | (Some (Raise e), s2) => (Some (handle_exception q e), s2)
  | (None, s2) => (None, s2)
  end.
Proof.
  intros Hconn. unfold execute_query. rewrite bind_run. unfold try at 1. rewrite Hconn.
  cbv zeta. rewrite bind_run. unfold try.
  by destruct (run_job _ _ _ _ _ _ _ _ _) as [[[envelope|e]|] s2].
Qed.

Lemma execute_query_disconnected (fuel : nat) (query : string)
    (earliest_time latest_time : option string) (max_results timeout : option Z)
    (s s1 : State) (e : exn) :
  get_connection rm self false s = (Some (Raise e), s1) ->
  execute_query rm self fuel query earliest_time latest_time max_results timeout s
  = (Some (handle_exception query e), s1).
Proof.
  intros Hconn. unfold execute_query. rewrite bind_run. unfold try. by rewrite Hconn.
Qed.

(** What the [except] clauses give: an envelope classified [timeout] or
    [general_error], or the [AttributeError] of the clause for
    [HTTPError]; never an envelope classified [http_error]. *)
Lemma handle_exception_cases (query : string) (e : exn) :
  (exists error error_type,
     handle_exception query e = Ok (Error query error error_type)
     /\ (error_type = "timeout" \/ error_type = "general_error")
     /\ ((exists msg, e = TimeoutError msg) <-> error_type = "timeout")
     /\ error = exn_str e)
  \/ ((exists status reason, e = HTTPError status reason)
      /\ handle_exception query e
         = Raise (LibraryError "AttributeError"
                    "'HTTPError' object has no attribute 'message'")).
Proof.
  destruct e; try (left; eexists _, _; split; [reflexivity|];
                   split; [by right|]; split; [|reflexivity];
                   split; [by intros [? [=]]|discriminate]).
  - left. eexists _, _. split; [reflexivity|]. split; [by left|].
    split; [|reflexivity]. split; [done|eauto].
  - right. split; [eauto|reflexivity].
Qed.

(** The one exception that leaves [execute_query] is the
    [AttributeError] raised inside its clause for [HTTPError]. *)
Lemma execute_query_raises_only (fuel : nat) (query : string)
    (earliest_time latest_time : option string) (max_results timeout : option Z)
    (s : State) (e : exn) :
  fst (execute_query rm self fuel query earliest_time latest_time max_results timeout s)
  = Some (Raise e) ->
  e = LibraryError "AttributeError" "'HTTPError' object has no attribute 'message'".
Proof.
  destruct (get_connection rm self false s) as [[[service|e']|] s1] eqn:Hconn.
  - rewrite (execute_query_connected _ _ _ _ _ _ _ _ _ Hconn). cbv zeta.
    destruct (run_job _ _ _ _ _ _ _ _ _) as [[[envelope|e'']|] s2]; simpl; try done.
    destruct (handle_exception_cases (normalize_query query) e'')
      as [(er & et & -> & _)|[_ ->]]; [done|]. by intros [= <-].
  - rewrite (execute_query_disconnected _ _ _ _ _ _ _ _ _ Hconn). simpl.
    destruct (handle_exception_cases query e')
      as [(er & et & -> & _)|[_ ->]]; [done|]. by intros [= <-].
  - by destruct (terminates_get_connection false s); rewrite Hconn.
Qed.

(** The part of [run_job] up to the end of the polling loop, for a job
    that is never done. *)
Lemma run_job_times_out (fuel : nat) (query earliest_time latest_time : string)
    (max_results timeout : Z) (service : Service) (job : Job) (s : State) :
  (forall kwargs, jobs_create rm query kwargs = Ok job) ->
  (forall n, job_is_done job n = Ok false) ->
  job_cancel job = Ok tt ->
  (forall n, 0 <= latency rm n) ->
  2 * Z.max 0 timeout + 1 < Z.of_nat fuel ->
  exists s',
    run_job rm fuel query earliest_time latest_time max_results timeout service s
    = (Some (Raise (TimeoutError (timeout_msg timeout))), s')
    /\ cancels s' = S (cancels s)
    /\ created s' = S (created s).
Proof.
  intros Hjob Hbusy Hcancel Hlat Hfuel.
  unfold run_job. rewrite bind_run. unfold remote_create_job. rewrite Hjob.
  rewrite bind_run. unfold time, gets. cbv beta iota. rewrite bind_run.
  destruct fuel as [|fuel]; [lia|].
  destruct (wait_for_job_times_out job (now (count_created (elapse rm 0 s))) timeout
              Hbusy Hcancel Hlat fuel (count_created (elapse rm 0 s)))
    as (s' & Hrun & Hc & Hj & _).
  { unfold seconds. lia. }
  rewrite Hrun. exists s'. split; [reflexivity|]. split; [exact Hc|exact Hj].
Qed.

(** A job that is never done, on a clock that does not run backwards
    and with a cancellation that goes through: any fuel above
    [2 * timeout + 1] brings the loop to its timeout. *)
Lemma execute_query_never_done (fuel : nat) (query : string)
    (earliest_time latest_time : option string) (max_results timeout : option Z)
    (s s1 : State) (service : Service) (job : Job) :
  get_connection rm self false s = (Some (Ok service), s1) ->
  (forall kwargs, jobs_create rm (normalize_query query) kwargs = Ok job) ->
  (forall n, job_is_done job n = Ok false) ->
  job_cancel job = Ok tt ->
  (forall n, 0 <= latency rm n) ->
  2 * Z.max 0 (or_setting timeout (max_execution_time (query_settings self)) 300) + 1
    < Z.of_nat fuel ->
  exists s',
    execute_query rm self fuel query earliest_time latest_time max_results timeout s
    = (Some (Ok (Error (normalize_query query)
                   (timeout_msg
                      (or_setting timeout (max_execution_time (query_settings self)) 300))
                   "timeout")), s')
    /\ created s' = S (created s)
    /\ cancels s' = S (cancels s).
Proof.
  intros Hconn Hjob Hbusy Hcancel Hlat Hfuel.
  rewrite (execute_query_connected _ _ _ _ _ _ _ _ _ Hconn). cbv zeta.
  destruct (keeps_get_connection false s) as (Hc & _ & Hj). rewrite Hconn in Hc, Hj.
  simpl in Hc, Hj.
  match goal with
  | |- context [run_job rm fuel ?q ?et ?lt ?mr ?to service s1] =>
      destruct (run_job_times_out fuel q et lt mr to service job s1
                  Hjob Hbusy Hcancel Hlat Hfuel) as (s' & -> & Hc' & Hj')
  end.
  exists s'. split; [reflexivity|]. split; congruence.
Qed.

(** The counters while the loop goes round. *)
Lemma before_poll_counters (k : nat) (s : State) :
  polls (before_poll rm k s) = (polls s + k)%nat
  /\ cancels (before_poll rm k s) = cancels s
  /\ created (before_poll rm k s) = created s.
Proof.
  induction k as [|k (Hp & Hc & Hj)]; [by rewrite Nat.add_0_r|].
  change (before_poll rm (S k) s) with (next_round rm (before_poll rm k s)).
  cbn. rewrite Hp, Hc, Hj. repeat split. lia.
Qed.

Lemma before_poll_next (k : nat) (s : State) :
  before_poll rm k (next_round rm s) = before_poll rm (S k) s.
Proof. unfold before_poll. symmetry. apply Nat.iter_succ_r. Qed.

(** [k] rounds of the loop, for a job that is not done at any of these
    polls while the clock stays within the timeout. *)
Lemma wait_for_job_rounds (job : Job) (start_time timeout : Z) (k : nat) :
  forall (fuel : nat) (s : State),
    (forall i, (i < k)%nat -> job_is_done job (polls s + i) = Ok false) ->
    (forall i, (i < k)%nat ->
       now (count_poll (elapse rm 0 (before_poll rm i s))) - start_time
       <= seconds timeout) ->
    wait_for_job rm (k + fuel) job start_time timeout s
    = wait_for_job rm fuel job start_time timeout (before_poll rm k s).
Proof.
  induction k as [|k IH]; intros fuel s Hbusy Hearly; [reflexivity|].
  change (S k + fuel)%nat with (S (k + fuel)).
  rewrite wait_for_job_step.
  pose proof (Hbusy 0%nat ltac:(lia)) as Hb0. rewrite Nat.add_0_r in Hb0. rewrite Hb0.
  cbv zeta.
  pose proof (Hearly 0%nat ltac:(lia)) as He0. change (before_poll rm 0 s) with s in He0.
  rewrite (proj2 (Z.ltb_ge _ _) He0).
  fold (next_round rm s). rewrite IH.
  - by rewrite before_poll_next.
  - intros i Hi.
    replace (polls (next_round rm s) + i)%nat with (polls s + S i)%nat by (cbn; lia).
    apply Hbusy. lia.
  - intros i Hi. rewrite before_poll_next. apply Hearly. lia.
Qed.

(** C4. Timeout.  The loop looks at the clock only after a poll that
    found the job not done.  When no poll reports done up to and
    including poll [k], the first one after which more than [timeout]
    seconds have passed since the job was created, [execute_query] calls
    [job.cancel()] exactly once, after [k + 1] polls; it returns the
    error envelope classified [timeout] when that call returns, and what
    its [except] clauses make of the exception when that call raises.
    Any fuel above [k] is enough. *)
Theorem C4_timeout_cancels_once (fuel k : nat) (query : string)
    (earliest_time latest_time : option string) (max_results timeout : option Z)
    (s s1 : State) (service : Service) (job : Job) :
  get_connection rm self false s = (Some (Ok service), s1) ->
  (forall kwargs, jobs_create rm (normalize_query query) kwargs = Ok job) ->
  let limit := or_setting timeout (max_execution_time (query_settings self)) 300 in
  let entered := count_created (elapse rm 0 s1) in
  (forall i, (i <= k)%nat -> job_is_done job (polls entered + i) = Ok false) ->
  (forall i, (i < k)%nat -> waited rm i entered <= seconds limit) ->
  seconds limit < waited rm k entered ->
  (k < fuel)%nat ->
  exists s',
    execute_query rm self fuel query earliest_time latest_time max_results timeout s
    = (Some (match job_cancel job with
             | Ok _ => Ok (Error (normalize_query query) (timeout_msg limit) "timeout")
             | Raise e => handle_exception (normalize_query query) e
             end), s')
    /\ created s' = S (created s)
    /\ cancels s' = S (cancels s)
    /\ polls s' = (polls s + k + 1)%nat.
Proof.
  intros Hconn Hjob limit entered Hbusy Hearly Hlate Hfuel.
  rewrite (execute_query_connected _ _ _ _ _ _ _ _ _ Hconn). cbv zeta.
  destruct (keeps_get_connection false s) as (Hc & Hp & Hj).
  rewrite Hconn in Hc, Hp, Hj. simpl in Hc, Hp, Hj.
  fold limit. unfold run_job. rewrite bind_run. unfold remote_create_job. rewrite Hjob.
  rewrite bind_run. unfold time, gets. cbv beta iota. rewrite bind_run.
  fold entered.
  replace fuel with (k + S (fuel - k - 1))%nat by lia.
  rewrite (wait_for_job_rounds job (now entered) limit k);
    [|intros i Hi; apply Hbusy; lia|exact Hearly].
  rewrite wait_for_job_step.
  destruct (before_poll_counters k entered) as (Hbp & Hbc & Hbj).
  rewrite Hbp, (Hbusy k) by lia. cbv zeta.
  unfold waited in Hlate. rewrite (proj2 (Z.ltb_lt _ _) Hlate).
  destruct (job_cancel job) as [[]|e];
    (eexists; split; [reflexivity|]; cbn; rewrite Hbp, Hbc, Hbj; cbn;
     split; [congruence|]; split; [congruence|lia]).
Qed.

(** C3. The job is not released on the exception paths.  With a
    session and a job created that is done at its first poll and whose
    counters read fine: when fetching the results raises an exception
    [e], [execute_query] ends with what its [except] clauses make of [e]
    (an error envelope, or the [AttributeError] of the clause for
    [HTTPError]), having created one job, polled it once and never
    called [job.cancel()]. *)
Theorem C3_job_not_cancelled_on_results_error (fuel : nat) (query : string)
    (earliest_time latest_time : option string) (max_results timeout : option Z)
    (s s1 : State) (service : Service) (job : Job) (stats : Stats) (e : exn) :
  get_connection rm self false s = (Some (Ok service), s1) ->
  (forall kwargs, jobs_create rm (normalize_query query) kwargs = Ok job) ->
  (forall n, job_is_done job n = Ok true) ->
  job_stats job = Ok stats ->
  (forall count, job_results job count = Raise e) ->
  exists s',
    execute_query rm self (S fuel) query earliest_time latest_time max_results timeout s
    = (Some (handle_exception (normalize_query query) e), s')
    /\ created s' = S (created s)
    /\ polls s' = S (polls s)
    /\ cancels s' = cancels s.
Proof.
  intros Hconn Hjob Hdone Hstats Hres.
  rewrite (execute_query_connected _ _ _ _ _ _ _ _ _ Hconn). cbv zeta.
  destruct (keeps_get_connection false s) as (Hc & Hp & Hj). rewrite Hconn in Hc, Hp, Hj.
  simpl in Hc, Hp, Hj.
  unfold run_job. rewrite bind_run. unfold remote_create_job. rewrite Hjob.
  rewrite bind_run. unfold time, gets. cbv beta iota. rewrite bind_run.
  rewrite wait_for_job_step, Hdone. cbv zeta beta iota.
  rewrite bind_run. unfold remote_stats. rewrite Hstats.
  rewrite bind_run. unfold modify. cbv beta iota.
  rewrite bind_run. unfold remote_results. rewrite Hres.
  eexists. split; [reflexivity|]. cbn. split; [congruence|]. split; congruence.
Qed.

(** [get_indexes], case by case. *)
Lemma get_indexes_run (s : State) :
  get_indexes rm self s =
  match get_connection rm self false s with
  | (Some (Ok _), s1) =>
      (Some (Ok (match indexes_list rm with Ok indexes => indexes | Raise _ => [] end)),
       elapse rm 0 s1)
  | (Some (Raise _), s1) => (Some (Ok []), s1)
  | (None, s1) => (None, s1)
  end.
Proof.
  unfold get_indexes. rewrite bind_run. unfold try. rewrite bind_run.
  destruct (get_connection rm self false s) as [[[service|e]|] s1]; try reflexivity.
  unfold remote_indexes. by destruct (indexes_list rm).
Qed.

(** [get_sourcetypes], case by case. *)
Lemma get_sourcetypes_run (fuel : nat) (index : option string) (s : State) :
  get_sourcetypes rm self fuel index s =
  match get_connection rm self false s with
  | (Some (Ok _), s1) =>
      match execute_query rm self fuel (sourcetypes_query index)
              (Some "-7d") (Some "now") (Some 1000) None s1 with
      | (Some (Ok (Success _ _ _ results _ _)), s2) =>
          (Some (Ok (filter (fun st => truthy st = true)
                       (map (fun r => default (VStr "") (get r "sourcetype")) results))),
           s2)
      | (Some (Ok (Error _ _ _)), s2) => (Some (Ok []), s2)
      | (Some (Raise _), s2) => (Some (Ok []), s2)
      | (None, s2) => (None, s2)
      end
  | (Some (Raise _), s1) => (Some (Ok []), s1)
  | (None, s1) => (None, s1)
  end.
Proof.
  unfold get_sourcetypes. rewrite bind_run. unfold try. rewrite bind_run.
  destruct (get_connection rm self false s) as [[[service|e]|] s1]; try reflexivity.
  cbv zeta. rewrite bind_run.
  by destruct (execute_query _ _ _ _ _ _ _ _ _) as [[[[]|e]|] s2].
Qed.


End ExecutorProperties.

Section ClientExamples.
#[local] Existing Instance Small.lib.
Import SplunkClient.



Lemma C4_timeout_cancels_once_witness :
  exists s',
    execute_query (Small.remote Small.up (Ok Small.endless_job)) Small.client 6
      "index=main error" None None None None Small.connected
    = (Some (Ok (Error "index=main error"
                   "Query execution exceeded timeout of 2 seconds" "timeout")), s')
    /\ created s' = 1%nat
    /\ cancels s' = 1%nat
    /\ polls s' = 5%nat.
Proof.
  apply (C4_timeout_cancels_once (Small.remote Small.up (Ok Small.endless_job)) Small.client
           6 4 "index=main error" None None None None Small.connected
           (count_probe (elapse (Small.remote Small.up (Ok Small.endless_job)) 0 Small.connected))
           0%nat Small.endless_job).
  - reflexivity.
  - intros kwargs. reflexivity.
  - intros i Hi. reflexivity.
  - intros i Hi. destruct i as [|[|[|[|i]]]]; [by vm_compute..|lia].
  - by vm_compute.
  - lia.
Defined.

(** C4 as stated fails for a job that is first done at a poll after
    the timeout.  With a timeout of 2 seconds, polls 0 to 3 fall 20, 560,
    1100 and 1640 ms after the creation of the job and find it not done;
    poll 4 falls at 2180 ms and finds it done: the job has not reported
    done before the 2 seconds elapsed, and [execute_query] returns the
    success envelope. *)
Lemma C4_counterexample :
  max_execution_time (query_settings Small.client) = Some 2
  /\ (forall i, (i < 4)%nat ->
        job_is_done Small.late_job i = Ok false
        /\ waited (Small.remote Small.up (Ok Small.late_job)) i
             (count_created
                (elapse (Small.remote Small.up (Ok Small.late_job)) 0
                   (count_probe
                      (elapse (Small.remote Small.up (Ok Small.late_job)) 0 Small.connected))))
           <= seconds 2)
  /\ seconds 2
     < waited (Small.remote Small.up (Ok Small.late_job)) 4
         (count_created
            (elapse (Small.remote Small.up (Ok Small.late_job)) 0
               (count_probe
                  (elapse (Small.remote Small.up (Ok Small.late_job)) 0 Small.connected))))
  /\ fst (execute_query (Small.remote Small.up (Ok Small.late_job)) Small.client 6
            "index=main error" None None None None Small.connected)
     = Some (Ok (Success "index=main error" {| earliest := "-30d"; latest := "now" |}
                   Small.stats [] [] []))
  /\ polls (snd (execute_query (Small.remote Small.up (Ok Small.late_job)) Small.client 6
                   "index=main error" None None None None Small.connected)) = 5%nat.
Proof.
  split; [reflexivity|]. split.
  - intros i Hi. destruct i as [|[|[|[|i]]]]; [by vm_compute..|lia].
  - by vm_compute.
Qed.

Lemma C3_job_not_cancelled_on_results_error_witness :
  exists s',
    execute_query (Small.remote Small.up (Ok Small.dropped_job)) Small.client 6
      "index=main error" None None None None Small.connected
    = (Some (Ok (Error "index=main error" "Connection aborted." "general_error")), s')
    /\ created s' = 1%nat
    /\ polls s' = 1%nat
    /\ cancels s' = 0%nat.
Proof.
  apply (C3_job_not_cancelled_on_results_error
           (Small.remote Small.up (Ok Small.dropped_job)) Small.client
           5 "index=main error" None None None None Small.connected
           (count_probe (elapse (Small.remote Small.up (Ok Small.dropped_job)) 0 Small.connected))
           0%nat Small.dropped_job Small.stats (ConnectionError "Connection aborted.")).
  - reflexivity.
  - intros kwargs. reflexivity.
  - intros n. reflexivity.
  - reflexivity.
  - intros count. reflexivity.
Defined.

(** With an [HTTPError] from [job.results] the clause for it raises,
    and the job is not cancelled either. *)
Example execute_query_unreadable_job :
  let run := execute_query (Small.remote Small.up (Ok Small.unreadable_job)) Small.client 6
               "index=main error" None None None None Small.connected in
  fst run = Some (Raise (LibraryError "AttributeError"
                           "'HTTPError' object has no attribute 'message'"))
  /\ created (snd run) = 1%nat
  /\ polls (snd run) = 1%nat
  /\ cancels (snd run) = 0%nat.
Proof. vm_compute. repeat split. Qed.


End ClientExamples.


(** ** Result summarizer *)

Section FormatterProperties.
Context {R : PyRuntime}.
Import ResponseFormatter.

Lemma _calculate_pagination_ok (total page_size : Z) :
  page_size <> 0 ->
  _calculate_pagination total page_size
  = Ok {| total_results := total;
          page_size := page_size;
          total_pages := (total + page_size - 1) / page_size;
          requires_pagination := 1 <? (total + page_size - 1) / page_size |}.
Proof.
  intros Hne. unfold _calculate_pagination.
  by rewrite (proj2 (Z.eqb_neq _ _) Hne).
Qed.

(** What [format_query_response] puts in the report of a success
    envelope, when it returns one. *)
Lemma format_query_response_success (query : string) (time_range : TimeRange)
    (stats : Stats) (results fields messages : list record)
    (include_raw : bool) (page_size : Z) (es : EventSummary) :
  page_size <> 0 ->
  _generate_event_summary results = Ok es ->
  let total := Z.of_nat (length results) in
  exists report,
    format_query_response (Success query time_range stats results fields messages)
      include_raw page_size = Ok report
    /\ Some <$> _calculate_pagination total page_size = Ok (report_pagination report)
    /\ report_field_summary report = _generate_field_summary results
    /\ report_results report =
         (if total <=? page_size
          then if include_raw then Some (_clean_results results) else None
          else None)
    /\ report_results_preview report =
         (if total <=? page_size then None
          else Some (_clean_results (take 100 results))).
Proof.
  intros Hne Hes total. unfold format_query_response. fold total.
  rewrite (_calculate_pagination_ok total page_size Hne), Hes. cbn.
  destruct (total <=? page_size); eexists; (split; [reflexivity|]); by cbn.
Qed.

(** Conversely a report for a success envelope means that neither the
    pagination nor the event summary raised. *)
Lemma format_query_response_inv (query : string) (time_range : TimeRange)
    (stats : Stats) (results fields messages : list record)
    (include_raw : bool) (page_size : Z) (report : Report) :
  format_query_response (Success query time_range stats results fields messages)
    include_raw page_size = Ok report ->
  page_size <> 0 /\ exists es, _generate_event_summary results = Ok es.
Proof.
  unfold format_query_response, _calculate_pagination.
  destruct (page_size =? 0) eqn:Hz; [discriminate|]. cbn.
  destruct (_generate_event_summary results) as [es|e]; [|discriminate].
  intros _. split; [by apply Z.eqb_neq|eauto].
Qed.

Lemma _clean_results_length (results : list record) :
  length (_clean_results results) = length results.
Proof. unfold _clean_results. apply length_map. Qed.

(** C7. Pagination boundary.  For a positive page size the report of a
    success envelope exists as soon as the event summary does; it does
    not require pagination when the results fill exactly one page, and
    requires it, with two pages, when there is one result more.  For
    every page size, a preview in a report has at most 100 records. *)
Theorem C7_pagination_boundary (query : string) (time_range : TimeRange)
    (stats : Stats) (results fields messages : list record)
    (include_raw : bool) (page_size : Z) :
  let envelope := Success query time_range stats results fields messages in
  let total := Z.of_nat (length results) in
  (0 < page_size ->
     (forall es, _generate_event_summary results = Ok es ->
        exists report, format_query_response envelope include_raw page_size = Ok report)
     /\ (forall report,
          format_query_response envelope include_raw page_size = Ok report ->
          exists pagination,
            report_pagination report = Some pagination
            /\ total_results pagination = total
            /\ (total = page_size -> requires_pagination pagination = false)
            /\ (total = page_size + 1 ->
                requires_pagination pagination = true
                /\ total_pages pagination = 2)))
  /\ (forall report preview,
        format_query_response envelope include_raw page_size = Ok report ->
        report_results_preview report = Some preview ->
        (length preview <= 100)%nat).
Proof.
  cbv zeta. split.
  - intros Hpos. split.
    + intros es Hes.
      destruct (format_query_response_success query time_range stats results fields
                  messages include_raw page_size es ltac:(lia) Hes) as (report & Hrun & _).
      eauto.
    + intros report Hrun.
      destruct (format_query_response_inv _ _ _ _ _ _ _ _ _ Hrun) as (Hne & es & Hes).
      destruct (format_query_response_success query time_range stats results fields
                  messages include_raw page_size es Hne Hes)
        as (report' & Hrun' & Hpag & _).
      rewrite Hrun in Hrun'. injection Hrun' as <-.
      rewrite (_calculate_pagination_ok _ _ Hne) in Hpag. cbn in Hpag.
      injection Hpag as Hpag.
      eexists. split; [symmetry; exact Hpag|]. cbn. split; [reflexivity|]. split.
      * intros ->. apply Z.ltb_ge.
        rewrite <- (Z.div_unique_pos (page_size + page_size - 1) page_size 1 (page_size - 1));
          lia.
      * intros ->.
        replace (page_size + 1 + page_size - 1) with (2 * page_size) by lia.
        rewrite Z.div_mul by lia. by split.
  - intros report preview Hrun Hprev.
    destruct (format_query_response_inv _ _ _ _ _ _ _ _ _ Hrun) as (Hne & es & Hes).
    destruct (format_query_response_success query time_range stats results fields
                messages include_raw page_size es Hne Hes)
      as (report' & Hrun' & _ & _ & _ & Hpreview).
    rewrite Hrun in Hrun'. injection Hrun' as <-.
    rewrite Hprev in Hpreview.
    destruct (_ <=? _); [discriminate|]. injection Hpreview as ->.
    rewrite _clean_results_length, length_take. lia.
Qed.

(** C8, as amended.  When the results fit in one page, the page size
    is not zero and the event summary can be computed, the report embeds
    the whole cleaned result set under [results] if [include_raw] is set,
    and has no [results] key otherwise; it has no preview. *)
Theorem C8_single_page_embeds_results (query : string) (time_range : TimeRange)
    (stats : Stats) (results fields messages : list record)
    (include_raw : bool) (page_size : Z) (es : EventSummary) :
  Z.of_nat (length results) <= page_size ->
  page_size <> 0 ->
  _generate_event_summary results = Ok es ->
  exists report,
    format_query_response (Success query time_range stats results fields messages)
      include_raw page_size = Ok report
    /\ report_results report
       = (if include_raw then Some (_clean_results results) else None)
    /\ report_results_preview report = None.
Proof.
  intros Hfit Hne Hes.
  destruct (format_query_response_success query time_range stats results fields
              messages include_raw page_size es Hne Hes)
    as (report & Hrun & _ & _ & Hres & Hprev).
  rewrite (proj2 (Z.leb_le _ _) Hfit) in Hres, Hprev. eauto.
Qed.

(** *** The field summary *)

Lemma insert_desc_Forall (P : string * nat -> Prop) (x : string * nat) (l : Counter) :
  P x -> Forall P l -> Forall P (insert_desc x l).
Proof.
  intros Hx Hl. induction Hl as [|y l Hy Hl IH]; simpl; [by constructor|].
  destruct (snd x <? snd y)%nat; repeat constructor; done.
Qed.

Lemma insert_desc_sorted (x : string * nat) (l : Counter) :
  StronglySorted by_count_desc l -> StronglySorted by_count_desc (insert_desc x l).
Proof.
  induction 1 as [|y l Hl IH Hy]; simpl; [repeat constructor|].
  destruct (snd x <? snd y)%nat eqn:Hlt.
  - apply Nat.ltb_lt in Hlt. constructor; [exact IH|].
    apply insert_desc_Forall; [unfold by_count_desc; lia|exact Hy].
  - apply Nat.ltb_ge in Hlt. constructor; [by constructor|].
    constructor; [exact Hlt|].
    eapply Forall_impl; [exact Hy|]. unfold by_count_desc. intros z Hz. simpl in *. lia.
Qed.

Lemma insert_desc_perm (x : string * nat) (l : Counter) : insert_desc x l ≡ₚ x :: l.
Proof.
  induction l as [|y l IH]; simpl; [done|].
  destruct (snd x <? snd y)%nat; [|done]. rewrite IH. apply Permutation_swap.
Qed.

Lemma sort_desc_sorted (c : Counter) : StronglySorted by_count_desc (sort_desc c).
Proof.
  induction c as [|x c IH]; simpl; [constructor|]. by apply insert_desc_sorted.
Qed.

Lemma sort_desc_perm (c : Counter) : sort_desc c ≡ₚ c.
Proof.
  induction c as [|x c IH]; simpl; [done|]. by rewrite insert_desc_perm, IH.
Qed.

(** [most_common(n)] is sorted by decreasing count, has at most [n]
    entries, and they are entries of the counter. *)
Lemma most_common_spec (n : nat) (c : Counter) :
  StronglySorted by_count_desc (most_common (Some n) c)
  /\ (length (most_common (Some n) c) <= n)%nat
  /\ most_common (Some n) c ⊆ c.
Proof.
  unfold most_common. split; [|split].
  - pose proof (sort_desc_sorted c) as Hs.
    rewrite <- (take_drop n (sort_desc c)) in Hs. by apply StronglySorted_app_1_l in Hs.
  - rewrite length_take. lia.
  - intros x Hx. rewrite <- (sort_desc_perm c). by eapply subseteq_take.
Qed.

(** An invariant of the entries of the summary that every recorded value
    preserves holds of the whole summary. *)
Lemma observe_invariant (P : FieldData -> Prop) (v : value) (field : string)
    (summary : list (string * FieldData)) :
  P (record_value new_field v) ->
  (forall d, P d -> P (record_value d v)) ->
  Forall (fun fd => P (snd fd)) summary ->
  Forall (fun fd => P (snd fd)) (observe summary field v).
Proof.
  intros Hnew Hstep. induction 1 as [|[f d] summary Hd Hs IH]; simpl in *.
  - by repeat constructor.
  - destruct (String.eqb f field); constructor; simpl; auto.
Qed.

Lemma field_summary_invariant (P : FieldData -> Prop) (Q : value -> Prop) :
  (forall v, Q v -> P (record_value new_field v)) ->
  (forall v d, Q v -> P d -> P (record_value d v)) ->
  forall (results : list record) (summary : list (string * FieldData)),
    Forall (Forall (fun item => Q (snd item))) results ->
    Forall (fun fd => P (snd fd)) summary ->
    Forall (fun fd => P (snd fd)) (foldl observe_result summary results).
Proof.
  intros Hnew Hstep results. induction results as [|result results IH];
    intros summary Hq Hp; simpl; [exact Hp|].
  apply Forall_cons in Hq as [Hq_result Hq_results].
  apply IH; [exact Hq_results|].
  clear IH Hq_results. unfold observe_result. revert summary Hp.
  induction result as [|item result IH]; intros summary Hp; simpl; [exact Hp|].
  apply Forall_cons in Hq_result as [Hq_item Hq_rest].
  apply IH; [exact Hq_rest|]. unfold observe_item.
  destruct (startswith (fst item) "_"); [exact Hp|].
  apply observe_invariant; auto.
Qed.

(** Internal fields never enter the summary. *)
Lemma field_summary_fields (results : list record) (summary : list (string * FieldData)) :
  Forall (fun fd => startswith (fst fd) "_" = false) summary ->
  Forall (fun fd => startswith (fst fd) "_" = false) (foldl observe_result summary results).
Proof.
  revert summary. induction results as [|result results IH]; intros summary Hp; simpl;
    [exact Hp|].
  apply IH. clear IH. unfold observe_result. revert summary Hp.
  induction result as [|item result IH]; intros summary Hp; simpl; [exact Hp|].
  apply IH. unfold observe_item.
  destruct (startswith (fst item) "_") eqn:Hint; [exact Hp|].
  clear IH. induction Hp as [|[f d] summary Hf Hs IHs]; simpl.
  - by repeat constructor.
  - destruct (String.eqb f (fst item)); constructor; auto.
Qed.

Lemma take_min_length {A} (n : nat) (l : list A) :
  take (Nat.min n (length l)) l = take n l.
Proof.
  destruct (Nat.le_ge_cases n (length l)) as [Hle|Hge].
  - by rewrite (Nat.min_l _ _ Hle).
  - rewrite (Nat.min_r _ _ Hge). by rewrite !take_ge by lia.
Qed.

(** X19. Only the first hundred records are examined. *)
Lemma field_summary_first_100 (results : list record) :
  _generate_field_summary results = _generate_field_summary (take 100 results).
Proof.
  unfold _generate_field_summary.
  by rewrite !take_min_length, take_take, Nat.min_id.
Qed.

(** X20. For every record sequence: no internal field is summarized, there
    are at most five sample values per field, and the top values are at
    most five entries of the frequency count in decreasing order of
    count. *)
Lemma field_summary_bounds (results : list record) :
  Forall (fun fi =>
            startswith (fst fi) "_" = false
            /\ (length (sample_values (snd fi)) <= 5)%nat
            /\ StronglySorted by_count_desc (top_values (snd fi))
            /\ (length (top_values (snd fi)) <= 5)%nat)
         (_generate_field_summary results).
Proof.
  unfold _generate_field_summary.
  set (sample := take _ results).
  pose proof (field_summary_fields sample [] (Forall_nil_2 _)) as Hfields.
  pose proof (field_summary_invariant
                (fun d => (length (fd_sample_values d) <= 5)%nat) (fun _ => True)) as Hcap.
  specialize (Hcap ltac:(intros v _; simpl; destruct (negb _); simpl; lia)).
  specialize (Hcap ltac:(intros v d _ Hd; simpl;
                         destruct (negb _); [|exact Hd];
                         destruct (length (fd_sample_values d) <? 5)%nat eqn:Hlt;
                           [|exact Hd];
                         apply Nat.ltb_lt in Hlt; rewrite length_app; simpl; lia)).
  specialize (Hcap sample [] ltac:(apply Forall_forall; intros r _;
                                   apply Forall_forall; by intros) (Forall_nil_2 _)).
  rewrite Forall_fmap. rewrite Forall_forall in Hfields, Hcap |- *.
  intros [f d] Hin. simpl.
  destruct (most_common_spec 5 (fd_value_count d)) as (Hsorted & Hlen & _).
  split; [exact (Hfields _ Hin)|]. split; [exact (Hcap _ Hin)|]. by split.
Qed.

(** The keys of a counter after [c[k] += 1]: a new key goes last. *)
Lemma incr_keys (c : Counter) (k : string) :
  (incr c k).*1 = if decide (k ∈ c.*1) then c.*1 else (c.*1 ++ [k])%list.
Proof.
  induction c as [|[k' n] c IH]; cbn [incr].
  - rewrite decide_False; [done|]. apply not_elem_of_nil.
  - destruct (String.eqb_spec k' k) as [->|Hne]; rewrite !fmap_cons; cbn [fst].
    + rewrite decide_True; [done|]. by left.
    + rewrite IH. destruct (decide (k ∈ c.*1)) as [Hin|Hnin].
      * rewrite decide_True; [done|]. by right.
      * rewrite decide_False; [done|]. by intros [->|H]%elem_of_cons.
Qed.

Lemma in_samples_str (s : string) (samples : list string) :
  in_samples (VStr s) samples = true <-> s ∈ samples.
Proof.
  simpl. rewrite existsb_exists. split.
  - intros (x & Hin & Heq). apply String.eqb_eq in Heq as ->. by apply list_elem_of_In.
  - intros Hin. exists s. split; [by apply list_elem_of_In|apply String.eqb_refl].
Qed.

(** For string values the sample values are the first five keys of the
    frequency count, which are distinct and in first-seen order. *)
Lemma record_value_strings (d : FieldData) (s : string) :
  let P d := NoDup (fd_value_count d).*1
             /\ fd_sample_values d = take 5 (fd_value_count d).*1 in
  P d -> P (record_value d (VStr s)).
Proof.
  intros P [Hnd Hsamples]. unfold P, record_value.
  cbn [fd_sample_values fd_value_count str]. rewrite incr_keys.
  destruct (in_samples (VStr s) (fd_sample_values d)) eqn:Hin; cbn [negb].
  - apply in_samples_str in Hin. rewrite Hsamples in Hin.
    apply subseteq_take in Hin. by rewrite decide_True.
  - assert (s ∉ fd_sample_values d) as Hnin.
    { intros Hin'. apply in_samples_str in Hin'. congruence. }
    destruct (length (fd_sample_values d) <? 5)%nat eqn:Hlt.
    + apply Nat.ltb_lt in Hlt. rewrite Hsamples, length_take in Hlt.
      rewrite take_ge in Hsamples by lia. rewrite Hsamples in Hnin |- *.
      rewrite decide_False by exact Hnin. split.
      * apply NoDup_app. split; [exact Hnd|]. split; [|apply NoDup_singleton].
        intros x Hx Hx'. apply list_elem_of_singleton in Hx' as ->. done.
      * rewrite take_ge; [done|]. rewrite length_app. simpl. lia.
    + apply Nat.ltb_ge in Hlt. rewrite Hsamples, length_take in Hlt.
      destruct (decide (s ∈ (fd_value_count d).*1)) as [Hk|Hk]; [done|]. split.
      * apply NoDup_app. split; [exact Hnd|]. split; [|apply NoDup_singleton].
        intros x Hx Hx'. apply list_elem_of_singleton in Hx' as ->. done.
      * rewrite take_app_le by lia. exact Hsamples.
Qed.

Lemma first_seen_snoc (l : list string) (x : string) :
  first_seen (l ++ [x])
  = if decide (x ∈ first_seen l) then first_seen l else (first_seen l ++ [x])%list.
Proof. unfold first_seen. by rewrite foldl_snoc. Qed.

Lemma first_seen_spec (l : list string) :
  NoDup (first_seen l) /\ (forall x, x ∈ first_seen l <-> x ∈ l).
Proof.
  induction l as [|x l [Hnd Hin]] using rev_ind.
  - split; [apply NoDup_nil_2|done].
  - rewrite first_seen_snoc. destruct (decide (x ∈ first_seen l)) as [Hx|Hx].
    + split; [exact Hnd|]. intros y. rewrite elem_of_app, list_elem_of_singleton, <- Hin.
      split; [by left|]. by intros [?| ->].
    + split.
      * apply NoDup_app. split; [exact Hnd|]. split; [|apply NoDup_singleton].
        by intros y Hy ->%list_elem_of_singleton.
      * intros y. by rewrite !elem_of_app, Hin.
Qed.

(** [first_seen] keeps the first occurrence of each element. *)
Lemma first_seen_cons (x : string) (l : list string) :
  first_seen (x :: l) = x :: filter (fun y => y <> x) (first_seen l).
Proof.
  induction l as [|y l IH] using rev_ind; [reflexivity|].
  rewrite app_comm_cons, !first_seen_snoc, IH.
  destruct (first_seen_spec l) as [_ Hin].
  destruct (decide (y = x)) as [->|Hne].
  - rewrite decide_True by (by left).
    destruct (decide (x ∈ first_seen l)); [reflexivity|].
    rewrite filter_app, filter_cons, decide_False by (by intros ?).
    by rewrite filter_nil, app_nil_r.
  - destruct (decide (y ∈ first_seen l)) as [Hy|Hy].
    + rewrite decide_True; [reflexivity|]. right. by apply list_elem_of_filter.
    + rewrite decide_False.
      * rewrite filter_app, filter_cons, decide_True by done. by rewrite filter_nil.
      * intros [?|[_ ?]%list_elem_of_filter]%elem_of_cons; done.
Qed.

Lemma occurrences_snoc (x y : string) (l : list string) :
  occurrences x (l ++ [y]) = (occurrences x l + if decide (y = x) then 1 else 0)%nat.
Proof.
  unfold occurrences. rewrite filter_app, length_app. f_equal.
  rewrite filter_cons. by destruct (decide (y = x)).
Qed.

Lemma occurrences_0 (x : string) (l : list string) : x ∉ l -> occurrences x l = 0%nat.
Proof.
  intros Hx. unfold occurrences. induction l as [|y l IH]; [done|].
  rewrite filter_cons. destruct (decide (y = x)) as [->|Hne].
  - exfalso. apply Hx. by left.
  - apply IH. intros Hin. apply Hx. by right.
Qed.

(** The counter after one more value. *)
Lemma incr_counts (c : Counter) (k : string) (vals : list string) :
  c.*1 = first_seen vals ->
  Forall (fun kc => snd kc = occurrences (fst kc) vals) c ->
  (incr c k).*1 = first_seen (vals ++ [k])
  /\ Forall (fun kc => snd kc = occurrences (fst kc) (vals ++ [k])) (incr c k).
Proof.
  intros Hkeys Hcounts. split.
  { rewrite incr_keys, first_seen_snoc, Hkeys. reflexivity. }
  assert (NoDup c.*1) as Hnd by (rewrite Hkeys; apply first_seen_spec).
  assert (k ∉ c.*1 -> occurrences k vals = 0%nat) as Hnew.
  { intros Hk. apply occurrences_0. rewrite <- (proj2 (first_seen_spec vals)).
    by rewrite <- Hkeys. }
  clear Hkeys. induction c as [|[k' n] c IH]; cbn [incr].
  - constructor; [|constructor]. cbn. rewrite occurrences_snoc, Hnew.
    + by rewrite decide_True.
    + apply not_elem_of_nil.
  - rewrite fmap_cons in Hnd. apply NoDup_cons in Hnd as [Hk' Hnd].
    apply Forall_cons in Hcounts as [Hn Hcounts]. cbn in Hn, Hk'.
    destruct (String.eqb_spec k' k) as [->|Hne].
    + constructor.
      * cbn. rewrite occurrences_snoc, decide_True by done. lia.
      * rewrite Forall_forall in Hcounts |- *. intros [k1 n1] Hin. cbn.
        pose proof (Hcounts _ Hin) as Hn1. cbn in Hn1.
        rewrite occurrences_snoc, decide_False; [lia|].
        intros ->. apply Hk'. apply list_elem_of_fmap. by exists (k1, n1).
    + constructor.
      * cbn. rewrite occurrences_snoc, decide_False by done. lia.
      * apply IH; [exact Hcounts|exact Hnd|].
        intros Hk. apply Hnew. rewrite fmap_cons. by intros [?|?]%elem_of_cons.
Qed.
Lemma recorded_new : recorded new_field [].
Proof. repeat split. constructor. Qed.

Lemma record_value_recorded (d : FieldData) (s : string) (vals : list string) :
  recorded d vals -> recorded (record_value d (VStr s)) (vals ++ [s]).
Proof.
  intros (Hkeys & Hcounts & Hsamples).
  destruct (incr_counts (fd_value_count d) s vals Hkeys Hcounts) as [Hkeys' Hcounts'].
  split; [exact Hkeys'|]. split; [exact Hcounts'|].
  destruct (record_value_strings d s) as [_ Hs].
  { split; [rewrite Hkeys; apply first_seen_spec|by rewrite Hkeys]. }
  rewrite Hs. cbn [record_value fd_value_count str]. by rewrite Hkeys'.
Qed.

Lemma observe_keys (summary : list (string * FieldData)) (field : string) (v : value) :
  (observe summary field v).*1
  = if decide (field ∈ summary.*1) then summary.*1 else (summary.*1 ++ [field])%list.
Proof.
  induction summary as [|[f d] summary IH]; cbn [observe].
  - rewrite decide_False; [done|]. apply not_elem_of_nil.
  - destruct (String.eqb_spec f field) as [->|Hne]; rewrite !fmap_cons; cbn [fst].
    + rewrite decide_True; [done|]. by left.
    + rewrite IH. destruct (decide (field ∈ summary.*1)) as [Hin|Hnin].
      * rewrite decide_True; [done|]. by right.
      * rewrite decide_False; [done|]. by intros [->|H]%elem_of_cons.
Qed.

Lemma observe_entries (P Q : string -> FieldData -> Prop)
    (summary : list (string * FieldData)) (field : string) (v : value) :
  NoDup summary.*1 ->
  (forall f d, f <> field -> P f d -> Q f d) ->
  (forall d, P field d -> Q field (record_value d v)) ->
  (field ∉ summary.*1 -> Q field (record_value new_field v)) ->
  Forall (fun fd => P (fst fd) (snd fd)) summary ->
  Forall (fun fd => Q (fst fd) (snd fd)) (observe summary field v).
Proof.
  intros Hnd Hother Hsame Hnew. induction summary as [|[f d] summary IH]; intros Hall;
    cbn [observe].
  - constructor; [|constructor]. apply Hnew, not_elem_of_nil.
  - rewrite fmap_cons in Hnd. apply NoDup_cons in Hnd as [Hf Hnd].
    apply Forall_cons in Hall as [Hd Hall]. cbn in Hd, Hf.
    destruct (String.eqb_spec f field) as [->|Hne].
    + constructor; [by apply Hsame|].
      rewrite Forall_forall in Hall |- *. intros [f1 d1] Hin. cbn.
      apply Hother; [|exact (Hall _ Hin)].
      intros ->. apply Hf. apply list_elem_of_fmap. by exists (field, d1).
    + constructor; [by apply Hother|]. apply IH; [exact Hnd| |exact Hall].
      intros Hk. apply Hnew. rewrite fmap_cons. by intros [?|?]%elem_of_cons.
Qed.

Lemma public_fields_snoc (items : list (string * value)) (item : string * value) :
  public_fields (items ++ [item])
  = if startswith (fst item) "_" then public_fields items
    else if decide (fst item ∈ public_fields items) then public_fields items
         else (public_fields items ++ [fst item])%list.
Proof.
  unfold public_fields. rewrite fmap_app, filter_app. cbn [fmap list_fmap].
  rewrite filter_cons. destruct (startswith (fst item) "_") eqn:Hint.
  - rewrite decide_False by done. by rewrite filter_nil, app_nil_r.
  - rewrite decide_True by done. rewrite filter_nil. apply first_seen_snoc.
Qed.

Lemma field_values_snoc (field : string) (items : list (string * value))
    (item : string * value) :
  field_values field (items ++ [item])
  = (field_values field items
     ++ if decide (fst item = field) then [str (snd item)] else [])%list.
Proof.
  unfold field_values. rewrite filter_app, fmap_app. f_equal.
  rewrite filter_cons. by destruct (decide (fst item = field)).
Qed.

Lemma field_values_nil (field : string) (items : list (string * value)) :
  field ∉ items.*1 -> field_values field items = [].
Proof.
  intros Hf. unfold field_values. induction items as [|[f v] items IH]; [done|].
  rewrite filter_cons. cbn [fst]. rewrite fmap_cons in Hf. cbn in Hf.
  destruct (decide (f = field)) as [->|Hne].
  - exfalso. apply Hf. by left.
  - apply IH. intros Hin. apply Hf. by right.
Qed.

Lemma public_fields_elem (field : string) (items : list (string * value)) :
  field ∈ public_fields items <-> startswith field "_" = false /\ field ∈ items.*1.
Proof.
  unfold public_fields. rewrite (proj2 (first_seen_spec _)), list_elem_of_filter. done.
Qed.

(** The summary while the items of the records go by. *)
Lemma observe_items (items : list (string * value)) :
  Forall (fun item => exists s, snd item = VStr s) items ->
  let summary := foldl observe_item [] items in
  summary.*1 = public_fields items
  /\ Forall (fun fd => recorded (snd fd) (field_values (fst fd) items)) summary.
Proof.
  induction items as [|[f v] items IH] using rev_ind; intros Hstr.
  - split; [reflexivity|constructor].
  - apply Forall_app in Hstr as [Hstr Hv]. apply Forall_cons in Hv as [[s Hs] _].
    cbn in Hs. subst v. destruct (IH Hstr) as [Hkeys Hall]. clear IH.
    cbv zeta. rewrite foldl_snoc, public_fields_snoc.
    set (summary := foldl observe_item [] items) in *.
    unfold observe_item. cbn [fst snd].
    destruct (startswith f "_") eqn:Hint.
    + split; [exact Hkeys|]. rewrite Forall_forall in Hall |- *.
      intros [f1 d1] Hin. cbn. rewrite field_values_snoc. cbn [fst].
      rewrite decide_False, app_nil_r; [exact (Hall _ Hin)|].
      intros ->. assert (f1 ∈ public_fields items) as Hf1.
      { rewrite <- Hkeys. apply list_elem_of_fmap. by exists (f1, d1). }
      apply public_fields_elem in Hf1 as [Hf1 _]. congruence.
    + split; [by rewrite observe_keys, Hkeys|].
      apply (observe_entries
               (fun f1 d1 => recorded d1 (field_values f1 items))
               (fun f1 d1 => recorded d1 (field_values f1 (items ++ [(f, VStr s)])))).
      * rewrite Hkeys. apply first_seen_spec.
      * intros f1 d1 Hne Hrec. rewrite field_values_snoc. cbn [fst].
        by rewrite decide_False, app_nil_r by done.
      * intros d Hrec. rewrite field_values_snoc. cbn [fst snd].
        rewrite decide_True by done. by apply record_value_recorded.
      * intros Hnew. rewrite field_values_snoc. cbn [fst snd].
        rewrite decide_True by done.
        rewrite field_values_nil.
        { apply (record_value_recorded new_field s []), recorded_new. }
        intros Hin. apply Hnew. rewrite Hkeys. by apply public_fields_elem.
      * exact Hall.
Qed.

Lemma foldl_observe_result (results : list record) (summary : list (string * FieldData)) :
  foldl observe_result summary results = foldl observe_item summary (concat results).
Proof.
  revert summary. induction results as [|r results IH]; intros summary; [reflexivity|].
  cbn [foldl concat]. rewrite foldl_app, IH. reflexivity.
Qed.

(** The most common entries of a counter whose keys are distinct. *)
Lemma most_common_frequent (n : nat) (c : Counter) :
  NoDup c.*1 ->
  length (most_common (Some n) c) = Nat.min n (length c)
  /\ NoDup (most_common (Some n) c).*1
  /\ (forall x, x ∈ c -> fst x ∉ (most_common (Some n) c).*1 ->
        Forall (fun y => (snd x <= snd y)%nat) (most_common (Some n) c)).
Proof.
  intros Hnd. unfold most_common.
  pose proof (sort_desc_perm c) as Hperm. pose proof (sort_desc_sorted c) as Hsorted.
  assert (NoDup (sort_desc c).*1) as Hnd' by (by rewrite Hperm).
  split; [|split].
  - by rewrite length_take, Hperm.
  - eapply sublist_NoDup; [exact Hnd'|]. apply fmap_sublist, sublist_take.
  - intros x Hx Hnot. rewrite <- Hperm in Hx.
    rewrite <- (take_drop n (sort_desc c)) in Hx, Hsorted.
    apply elem_of_app in Hx as [Hx|Hx].
    + exfalso. apply Hnot. apply list_elem_of_fmap. by exists x.
    + apply Forall_forall. intros y Hy.
      exact (StronglySorted_app_1_elem_of _ _ _ _ _ Hsorted Hy Hx).
Qed.

(** X21. The field summary of records whose field values are strings,
    in terms of the items of the first hundred records.  Its fields are
    the fields of these items that are not internal, in first-seen order.
    For each field, with [values] the values of its items in order: the
    sample values are the first five distinct values in first-seen order;
    the unique count is the number of distinct values; the top values
    are five entries, or as many as there are distinct values, each a
    value with the number of its occurrences, no value twice, in
    decreasing order of count; and no value left out occurs more often
    than one that is listed. *)
Lemma field_summary_of_strings (results : list record) :
  Forall (Forall (fun item => exists s, snd item = VStr s)) results ->
  let items := concat (take 100 results) in
  (_generate_field_summary results).*1 = public_fields items
  /\ Forall (fun fi =>
               let values := field_values (fst fi) items in
               sample_values (snd fi) = take 5 (first_seen values)
               /\ NoDup (sample_values (snd fi))
               /\ unique_count (snd fi) = length (first_seen values)
               /\ length (top_values (snd fi)) = Nat.min 5 (unique_count (snd fi))
               /\ NoDup (top_values (snd fi)).*1
               /\ StronglySorted by_count_desc (top_values (snd fi))
               /\ Forall (fun vc => fst vc ∈ values
                                    /\ snd vc = occurrences (fst vc) values)
                         (top_values (snd fi))
               /\ (forall v, v ∈ values -> v ∉ (top_values (snd fi)).*1 ->
                     Forall (fun vc => (occurrences v values <= snd vc)%nat)
                            (top_values (snd fi))))
            (_generate_field_summary results).
Proof.
  intros Hstr items. unfold _generate_field_summary.
  rewrite take_min_length, foldl_observe_result. fold items.
  destruct (observe_items items) as [Hkeys Hall].
  { apply Forall_concat. by apply Forall_take. }
  split.
  { rewrite <- Hkeys, <- list_fmap_compose. reflexivity. }
  rewrite Forall_fmap. eapply Forall_impl; [exact Hall|].
  intros [f d] (Hk & Hcounts & Hsamples). unfold compose. cbn [fst snd] in *.
  cbn [format_field sample_values unique_count top_values]. cbv zeta.
  set (values := field_values f items) in *.
  destruct (first_seen_spec values) as [Hnd Hin].
  destruct (most_common_spec 5 (fd_value_count d)) as (Hsorted & _ & Hsub).
  destruct (most_common_frequent 5 (fd_value_count d)) as (Hlen & Hndtop & Hfreq).
  { by rewrite Hk. }
  assert (length (fd_value_count d) = length (first_seen values)) as Hlength.
  { by rewrite <- Hk, length_fmap. }
  split; [exact Hsamples|]. split.
  { rewrite Hsamples. eapply sublist_NoDup; [exact Hnd|]. apply sublist_take. }
  split; [exact Hlength|]. split; [exact Hlen|]. split; [exact Hndtop|].
  split; [exact Hsorted|]. split.
  - rewrite Forall_forall in Hcounts |- *. intros vc Hvc. apply Hsub in Hvc. split.
    + apply Hin. rewrite <- Hk. apply list_elem_of_fmap. by exists vc.
    + by apply Hcounts.
  - intros v Hv Hnot.
    assert ((v, occurrences v values) ∈ fd_value_count d) as Hentry.
    { apply Hin in Hv. rewrite <- Hk in Hv.
      apply list_elem_of_fmap in Hv as ([v' n] & -> & Hvn). cbn.
      rewrite Forall_forall in Hcounts. pose proof (Hcounts _ Hvn) as Hn.
      cbn in Hn. by rewrite <- Hn. }
    exact (Hfreq _ Hentry Hnot).
Qed.

(** C9.  Two records carrying the same multivalue field: the value is
    compared, as a list, with the strings already sampled, so its text is
    sampled twice. *)
Theorem C9_multivalue_sample_repeats :
  exists info,
    _generate_field_summary Small.tagged = [("tags", info)]
    /\ sample_values info = [list_str ["a"; "b"]; list_str ["a"; "b"]]
    /\ ~ NoDup (sample_values info)
    /\ unique_count info = 1%nat
    /\ top_values info = [(list_str ["a"; "b"], 2%nat)].
Proof.
  eexists. split; [reflexivity|].
  unfold format_field, record_value, new_field. cbn. rewrite String.eqb_refl.
  split; [reflexivity|]. split; [|by split].
  intros Hnd. apply NoDup_cons in Hnd as [Hin _]. apply Hin. by left.
Qed.

End FormatterProperties.

Section FormatterExamples.
#[local] Existing Instance Small.runtime.
Import ResponseFormatter.

Lemma C7_pagination_boundary_witness :
  exists report pagination,
    format_query_response
      (Success "index=main" {| earliest := "-1h"; latest := "now" |} Small.stats
         Small.events [] []) true 3 = Ok report
    /\ report_pagination report = Some pagination
    /\ requires_pagination pagination = false
    /\ report_results_preview report = None.
Proof.
  destruct (C7_pagination_boundary "index=main" {| earliest := "-1h"; latest := "now" |}
              Small.stats Small.events [] [] true 3) as [Hpos Hprev].
  destruct (Hpos ltac:(lia)) as [Hex Hpag].
  edestruct Hex as [report Hrun]; [vm_compute; reflexivity|].
  destruct (Hpag report Hrun) as (pagination & Hp & _ & Hfull & _).
  exists report, pagination. split; [exact Hrun|]. split; [exact Hp|].
  split; [apply Hfull; reflexivity|].
  vm_compute in Hrun. injection Hrun as <-. reflexivity.
Defined.

(** C8 as stated fails when raw events are switched off: three results,
    a page of a thousand, and no [results] key in the report. *)
Lemma C8_counterexample :
  Z.of_nat (length Small.events) <= 1000
  /\ exists report,
       format_query_response
         (Success "index=main" {| earliest := "-1h"; latest := "now" |} Small.stats
            Small.events [] []) false 1000 = Ok report
       /\ report_results report = None
       /\ report_results report <> Some (_clean_results Small.events).
Proof.
  split; [vm_compute; discriminate|].
  eexists. split; [vm_compute; reflexivity|]. split; [reflexivity|discriminate].
Qed.

Lemma C8_single_page_embeds_results_witness :
  exists report,
    format_query_response
      (Success "index=main" {| earliest := "-1h"; latest := "now" |} Small.stats
         Small.events [] []) true 1000 = Ok report
    /\ report_results report = Some (_clean_results Small.events)
    /\ report_results_preview report = None.
Proof.
  eapply (C8_single_page_embeds_results "index=main"
            {| earliest := "-1h"; latest := "now" |} Small.stats Small.events [] []
            true 1000).
  - vm_compute. discriminate.
  - lia.
  - vm_compute. reflexivity.
Defined.

End FormatterExamples.

(** * Further properties of the code *)

(** ** Credential manager and provisioning script *)

Section CredentialCoverage.
Context {L : CryptoLib}.

Lemma decrypt_handler_ValueError (e : exn) :
  exists msg, CredentialManager.decrypt_handler e = ValueError msg.
Proof. destruct e; simpl; eauto. Qed.

Lemma decrypt_password_classes (cm : CredentialManager.t)
    (encrypted_data : gmap string string) :
  (exists pw, snd (CredentialManager.decrypt_password cm encrypted_data) = Ok pw)
  \/ (exists msg,
        snd (CredentialManager.decrypt_password cm encrypted_data) = Raise (ValueError msg)).
Proof.
  unfold CredentialManager.decrypt_password.
  case_bool_decide; [right; eauto|].
  unfold CredentialManager.try_except.
  match goal with |- context [match ?body with _ => _ end] => destruct body as [log [pw|e]] end.
  - left. eauto.
  - right. destruct (decrypt_handler_ValueError e) as [msg ->]. eauto.
Qed.

Lemma get_credentials_classes (cm : CredentialManager.t) (cfg : gmap string string)
    (e : exn) :
  snd (CredentialManager.get_credentials cm cfg) = Raise e ->
  (exists msg, e = ValueError msg) \/ e = KeyError "password_salt".
Proof.
  unfold CredentialManager.get_credentials, getitem.
  destruct (cfg !! "username") as [user|]; [|intros [= <-]; eauto].
  destruct (cfg !! "password_encrypted") as [enc|].
  - destruct (cfg !! "password_salt") as [salt|]; [|intros [= <-]; eauto].
    cbn -[CredentialManager.decrypt_password].
    match goal with
    | |- context [CredentialManager.decrypt_password cm ?d] =>
        destruct (decrypt_password_classes cm d) as [[pw Hd]|[msg Hd]];
        destruct (CredentialManager.decrypt_password cm d) as [log r]
    end; simpl in Hd; subst r; simpl; [discriminate|intros [= <-]; eauto].
  - destruct (cfg !! "password") as [pw|]; [discriminate|intros [= <-]; eauto].
Qed.

(** X1. The decision table of [get_credentials].  Without a user name it
    raises [ValueError] whatever else is configured; with neither an
    encrypted nor a plain password it raises [ValueError]; a plain
    password is returned as it is, with a warning and without asking
    anything of the cryptographic libraries; an encrypted password
    without its salt raises [KeyError], before any decryption. *)
Theorem get_credentials_decision_table (cm : CredentialManager.t)
    (cfg : gmap string string) :
  (cfg !! "username" = None ->
     CredentialManager.get_credentials cm cfg
     = ([], Raise (ValueError "No username found in configuration")))
  /\ (forall user,
        cfg !! "username" = Some user ->
        cfg !! "password_encrypted" = None ->
        cfg !! "password" = None ->
        CredentialManager.get_credentials cm cfg
        = ([], Raise (ValueError "No password found in configuration")))
  /\ (forall user pw,
        cfg !! "username" = Some user ->
        cfg !! "password_encrypted" = None ->
        cfg !! "password" = Some pw ->
        CredentialManager.get_credentials cm cfg
        = ([CredentialManager.Warn
              "Using plain text password. Please use encrypt_password.py for secure storage."],
           Ok {| CredentialManager.username := user; CredentialManager.password := pw |}))
  /\ (forall user enc,
        cfg !! "username" = Some user ->
        cfg !! "password_encrypted" = Some enc ->
        cfg !! "password_salt" = None ->
        CredentialManager.get_credentials cm cfg = ([], Raise (KeyError "password_salt"))).
Proof.
  unfold CredentialManager.get_credentials, getitem.
  split; [by intros ->|]. split; [by intros user -> -> ->|].
  split; [by intros user pw -> -> ->|]. by intros user enc -> -> ->.
Qed.

(** X2. When an encrypted password is configured, a plain password left
    in the configuration plays no part: the result and the library calls
    are the same with any plain password, or none. *)
Theorem get_credentials_ignores_plain_password (cm : CredentialManager.t)
    (cfg : gmap string string) (enc : string) :
  cfg !! "password_encrypted" = Some enc ->
  forall pw,
    CredentialManager.get_credentials cm (<["password" := pw]> cfg)
    = CredentialManager.get_credentials cm (delete "password" cfg).
Proof.
  intros Henc pw. unfold CredentialManager.get_credentials, getitem.
  rewrite !lookup_insert_ne by done. rewrite !lookup_delete_ne by done.
  by rewrite Henc.
Qed.

(** X3. The exceptions of the credential manager.  Whatever goes wrong
    in [decrypt_password] (a foreign machine, a missing key, text that is
    not base64, a token that does not authenticate, bytes that are not
    UTF-8), the caller sees a [ValueError]; [get_credentials] raises a
    [ValueError] too, or the [KeyError] of a missing [password_salt]. *)
Theorem credential_manager_exceptions (cm : CredentialManager.t)
    (encrypted_data cfg : gmap string string) :
  ((exists pw, snd (CredentialManager.decrypt_password cm encrypted_data) = Ok pw)
   \/ (exists msg,
         snd (CredentialManager.decrypt_password cm encrypted_data)
         = Raise (ValueError msg)))
  /\ (forall e,
        snd (CredentialManager.get_credentials cm cfg) = Raise e ->
        (exists msg, e = ValueError msg) \/ e = KeyError "password_salt").
Proof.
  split; [apply decrypt_password_classes|]. intros e. apply get_credentials_classes.
Qed.

(** X4. A token that does not authenticate under the key of this machine
    (corrupted data, or a salt that is not the one of the encryption) is
    reported as the corrupted-data [ValueError], after the two base64
    decodings, the key derivation and the decryption attempt, in that
    order. *)
Theorem decrypt_password_rejects_bad_token (cm : CredentialManager.t)
    (encrypted_data : gmap string string) (salt_text token_text : string)
    (salt token : bytes) :
  encrypted_data !! "machine_hash" = Some (CredentialManager._machine_hash cm) ->
  encrypted_data !! "password_salt" = Some salt_text ->
  encrypted_data !! "password_encrypted" = Some token_text ->
  urlsafe_b64decode (utf8_encode salt_text) = Some salt ->
  urlsafe_b64decode (utf8_encode token_text) = Some token ->
  let key := urlsafe_b64encode
               (pbkdf2hmac_sha256 32 salt 100000
                  (utf8_encode (CredentialManager._machine_id cm))) in
  fernet_decrypt key token = None ->
  CredentialManager.decrypt_password cm encrypted_data
  = ([CredentialManager.B64Decode (utf8_encode salt_text);
      CredentialManager.B64Decode (utf8_encode token_text);
      CredentialManager.KdfDerive salt;
      CredentialManager.FernetDecrypt key token],
     Raise (ValueError CredentialManager.corrupted_msg)).
Proof.
  intros Hm Hs Ht Hsalt Htoken key Hbad.
  unfold CredentialManager.decrypt_password, getitem.
  rewrite bool_decide_eq_false_2 by (rewrite Hm; intros Hne; by apply Hne).
  rewrite Hs, Ht. cbn. rewrite Hsalt, Htoken. cbn. fold key. by rewrite Hbad.
Qed.

End CredentialCoverage.

Section CredentialCoverageExamples.
#[local] Existing Instance Small.lib.

Lemma get_credentials_ignores_plain_password_witness :
  CredentialManager.get_credentials (CredentialManager.__init__ Small.host)
    (<["password" := "left over"]> Small.splunk_config)
  = CredentialManager.get_credentials (CredentialManager.__init__ Small.host)
      (delete "password" Small.splunk_config).
Proof.
  eapply (get_credentials_ignores_plain_password (CredentialManager.__init__ Small.host)
            Small.splunk_config).
  vm_compute. reflexivity.
Defined.

Lemma decrypt_password_rejects_bad_token_witness :
  CredentialManager.decrypt_password (CredentialManager.__init__ Small.host)
    (<["password_encrypted" := "garbage"]>
     (<["password_salt" := "0123456789abcdef"]>
      (<["machine_hash" :=
           CredentialManager._machine_hash (CredentialManager.__init__ Small.host)]> ∅)))
  = ([CredentialManager.B64Decode (utf8_encode "0123456789abcdef");
      CredentialManager.B64Decode (utf8_encode "garbage");
      CredentialManager.KdfDerive Small.salt;
      CredentialManager.FernetDecrypt
        (urlsafe_b64encode
           (pbkdf2hmac_sha256 32 Small.salt 100000
              (utf8_encode
                 (CredentialManager._machine_id (CredentialManager.__init__ Small.host)))))
        (Small.encode "garbage")],
     Raise (ValueError CredentialManager.corrupted_msg)).
Proof.
  apply (decrypt_password_rejects_bad_token (CredentialManager.__init__ Small.host)
           (<["password_encrypted" := "garbage"]>
            (<["password_salt" := "0123456789abcdef"]>
             (<["machine_hash" :=
                  CredentialManager._machine_hash
                    (CredentialManager.__init__ Small.host)]> ∅)))
           "0123456789abcdef" "garbage" Small.salt (Small.encode "garbage"));
    vm_compute; reflexivity.
Defined.

End CredentialCoverageExamples.

(** ** Session: bounds that hold whatever the service answers *)

Section SessionCoverage.
Context {L : CryptoLib} (rm : SplunkClient.Remote) (self : SplunkClient.Client).
Import SplunkClient.

Lemma slept_after_sleep (ms : Z) (s : State) :
  slept (after_sleep rm ms s) = slept s + ms.
Proof.
  unfold slept. cbn. induction (sleeps s) as [|x xs IH]; simpl; lia.
Qed.

(** The retry loop from attempt [a] on, whatever the service answers. *)
Lemma retry_loop_bounds (kwargs : ConnectArgs) (retry_count : Z) :
  forall (n : nat) (a : Z) (last_error : string) (s : State),
    0 <= a ->
    Z.to_nat (retry_count - a) = n ->
    let run := retry_loop rm kwargs retry_count (seqZ a (retry_count - a)) last_error s in
    (attempts s <= attempts (snd run) <= attempts s + n)%nat
    /\ 0 <= slept (snd run) - slept s <= seconds (2 ^ Z.max a (retry_count - 1) - 2 ^ a)
    /\ probes (snd run) = probes s
    /\ _connections (snd run) = _connections s
    /\ cred_log (snd run) = cred_log s
    /\ (forall e, fst run = Some (Raise e) -> exists msg, e = ConnectionError msg)
    /\ (forall service, fst run = Some (Ok service) ->
          (attempts s <= service < attempts (snd run))%nat
          /\ connect rm kwargs service = Ok tt).
Proof.
  induction n as [|n IH]; intros a last_error s Ha Hn; cbv zeta.
  - rewrite seqZ_nil by lia. cbn.
    assert (0 < 2 ^ a) by (apply Z.pow_pos_nonneg; lia).
    rewrite Z.max_l by lia. unfold seconds.
    split; [lia|]. split; [lia|]. do 3 (split; [reflexivity|]).
    split; [intros e [= <-]; eauto|intros service [=]].
  - rewrite seqZ_cons by lia.
    cbn [retry_loop]. rewrite bind_run. unfold try, remote_connect.
    destruct (connect rm kwargs (attempts s)) as [[]|e] eqn:Hconn; cbn [fmap result_fmap].
    + cbn. assert (0 < 2 ^ a) by (apply Z.pow_pos_nonneg; lia).
      assert (2 ^ a <= 2 ^ Z.max a (retry_count - 1))
        by (apply Z.pow_le_mono_r; lia).
      unfold seconds, slept.
      split; [lia|]. split; [lia|]. do 3 (split; [reflexivity|]).
      split; [intros e [=]|intros service [= <-]]. split; [lia|exact Hconn].
    + cbv beta iota. destruct (is_auth_failure e).
      * cbn. assert (0 < 2 ^ a) by (apply Z.pow_pos_nonneg; lia).
        assert (2 ^ a <= 2 ^ Z.max a (retry_count - 1))
          by (apply Z.pow_le_mono_r; lia).
        unfold seconds, slept.
        split; [lia|]. split; [lia|]. do 3 (split; [reflexivity|]).
        split; [intros e' [= <-]; eauto|intros service [=]].
      * rewrite bind_run.
        replace (Z.pred (retry_count - a)) with (retry_count - Z.succ a) by lia.
        set (s1 := count_attempt (elapse rm 0 s)).
        destruct (a <? retry_count - 1) eqn:Hlt.
        -- apply Z.ltb_lt in Hlt. unfold sleep, modify. cbv beta iota.
           set (s2 := after_sleep rm (seconds (2 ^ a)) s1).
           specialize (IH (Z.succ a) (last_error_of e) s2 ltac:(lia) ltac:(lia)).
           cbv zeta in IH.
           destruct (retry_loop rm kwargs retry_count _ _ s2) as [r s'].
           cbn [fst snd] in *.
           destruct IH as (Hatt & Hsl & Hp & Hc & Hl & He & Hs).
           assert (slept s2 = slept s + seconds (2 ^ a)) as Hs2
             by (unfold s2; rewrite slept_after_sleep; reflexivity).
           assert (attempts s2 = S (attempts s)) as Ha2 by reflexivity.
           rewrite Z.max_r in Hsl by lia. rewrite Z.max_r by lia.
           rewrite Z.pow_succ_r in Hsl by lia.
           unfold seconds in *.
           split; [lia|]. split; [lia|]. split; [exact Hp|]. split; [exact Hc|].
           split; [exact Hl|]. split; [exact He|].
           intros service Hr. destruct (Hs service Hr). split; [lia|done].
        -- apply Z.ltb_ge in Hlt. unfold mret, M_ret. cbv beta iota.
           specialize (IH (Z.succ a) (last_error_of e) s1 ltac:(lia) ltac:(lia)).
           cbv zeta in IH.
           destruct (retry_loop rm kwargs retry_count _ _ s1) as [r s'].
           cbn [fst snd] in *.
           destruct IH as (Hatt & Hsl & Hp & Hc & Hl & He & Hs).
           assert (slept s1 = slept s) as Hs1 by reflexivity.
           assert (attempts s1 = S (attempts s)) as Ha1 by reflexivity.
           rewrite Z.max_l in Hsl by lia. rewrite Z.max_l by lia.
           unfold seconds in *.
           split; [lia|]. split; [lia|]. split; [exact Hp|]. split; [exact Hc|].
           split; [exact Hl|]. split; [exact He|].
           intros service Hr. destruct (Hs service Hr). split; [lia|done].
Qed.

Lemma create_connection_facts (retry_count : Z) (s : State) :
  let run := _create_connection rm self retry_count s in
  fst run <> None
  /\ (attempts s <= attempts (snd run) <= attempts s + Z.to_nat retry_count)%nat
  /\ 0 <= slept (snd run) - slept s <= seconds (2 ^ Z.max 0 (retry_count - 1) - 1)
  /\ probes (snd run) = probes s
  /\ _connections (snd run) = _connections s
  /\ (forall e, fst run = Some (Raise e) ->
        (exists msg, e = ConnectionError msg)
        \/ ((exists msg, e = ValueError msg) \/ (exists key, e = KeyError key))
           /\ attempts (snd run) = attempts s)
  /\ (forall service, fst run = Some (Ok service) ->
        (attempts s <= service < attempts (snd run))%nat).
Proof.
  cbv zeta.
  split; [apply terminates_bind; [by intros ?|]; intros credentials;
          apply terminates_bind; [by intros ?|]; intros hostname;
          apply terminates_retry_loop|].
  unfold _create_connection. rewrite bind_run. unfold of_traced.
  pose proof (get_credentials_classes (credential_manager self) (splunk_config self))
    as Hcred.
  destruct (CredentialManager.get_credentials _ _) as [log [credentials|e]];
    cbn [fst snd] in *.
  - rewrite bind_run. unfold lift, getitem.
    destruct (splunk_config self !! "host") as [hostname|]; cbn [of_option].
    + match goal with
      | |- context [retry_loop rm ?kwargs retry_count _ _ ?s0] =>
          pose proof (retry_loop_bounds kwargs retry_count (Z.to_nat retry_count) 0
                        "None" s0 ltac:(lia) ltac:(f_equal; lia)) as Hloop
      end.
      cbv zeta in Hloop. rewrite Z.sub_0_r in Hloop.
      destruct (retry_loop rm _ retry_count _ _ _) as [r s'].
      cbn [fst snd] in *. destruct Hloop as (Hatt & Hsl & Hp & Hc & _ & He & Hs).
      change (2 ^ 0) with 1 in Hsl.
      split; [exact Hatt|]. split; [exact Hsl|]. split; [exact Hp|]. split; [exact Hc|].
      split; [intros e Hr; left; by apply He|]. intros service Hr. by apply Hs.
    + assert (0 <= seconds (2 ^ Z.max 0 (retry_count - 1) - 1)).
      { assert (1 = 2 ^ 0) as Hone by reflexivity.
        assert (2 ^ 0 <= 2 ^ Z.max 0 (retry_count - 1))
          by (apply Z.pow_le_mono_r; lia).
        unfold seconds. lia. }
      cbn. unfold slept. cbn. split; [lia|]. split; [lia|]. do 2 (split; [reflexivity|]).
      split; [|intros service [=]]. intros e [= <-]. right. split; [eauto|reflexivity].
  - assert (0 <= seconds (2 ^ Z.max 0 (retry_count - 1) - 1)).
    { assert (2 ^ 0 <= 2 ^ Z.max 0 (retry_count - 1))
        by (apply Z.pow_le_mono_r; lia).
      change (2 ^ 0) with 1 in *. unfold seconds. lia. }
    cbn. unfold slept. cbn. split; [lia|]. split; [lia|]. do 2 (split; [reflexivity|]).
    split; [|intros service [=]]. intros e' [= <-]. right. split; [|reflexivity].
    destruct (Hcred e eq_refl) as [Hv| ->]; eauto.
Qed.

(** X6. Whatever the service answers, [_create_connection] returns or
    raises after at most [retry_count] attempts and at most
    [2^0 + ... + 2^(retry_count-2)] seconds asked of [time.sleep]; it
    leaves the cached session alone; it raises [ConnectionError], or,
    before any attempt, the [ValueError] or [KeyError] of a configuration
    it cannot use. *)
Theorem _create_connection_bounds (retry_count : Z) (s : State) :
  let run := _create_connection rm self retry_count s in
  fst run <> None
  /\ (attempts s <= attempts (snd run) <= attempts s + Z.to_nat retry_count)%nat
  /\ 0 <= slept (snd run) - slept s <= seconds (2 ^ Z.max 0 (retry_count - 1) - 1)
  /\ probes (snd run) = probes s
  /\ _connections (snd run) = _connections s
  /\ (forall e, fst run = Some (Raise e) ->
        (exists msg, e = ConnectionError msg)
        \/ ((exists msg, e = ValueError msg) \/ (exists key, e = KeyError key))
           /\ attempts (snd run) = attempts s)
  /\ (forall service, fst run = Some (Ok service) ->
        (attempts s <= service < attempts (snd run))%nat).
Proof. apply create_connection_facts. Qed.

Lemma reconnect_facts (s : State) :
  let run := reconnect rm self s in
  (attempts s <= attempts (snd run) <= attempts s + 3)%nat
  /\ 0 <= slept (snd run) - slept s <= seconds 3
  /\ probes (snd run) = probes s
  /\ (forall e, fst run = Some (Raise e) ->
        _connections (snd run) = _connections s
        /\ ((exists msg, e = ConnectionError msg)
            \/ (exists msg, e = ValueError msg) \/ (exists key, e = KeyError key)))
  /\ (forall service, fst run = Some (Ok service) ->
        _connections (snd run) = Some service
        /\ (attempts s <= service < attempts (snd run))%nat).
Proof.
  cbv zeta. unfold reconnect. rewrite bind_run.
  pose proof (create_connection_facts 3 s) as Hc. cbv zeta in Hc.
  destruct (_create_connection rm self 3 s) as [[[service|e]|] s1]; cbn [fst snd] in *;
    destruct Hc as (Hterm & Hatt & Hsl & Hp & Hconn & He & Hs); [| |done].
  - cbn. change (slept (set_connection service s1)) with (slept s1).
    split; [exact Hatt|]. split; [exact Hsl|]. split; [exact Hp|].
    split; [intros e [=]|]. intros service' [= <-]. split; [reflexivity|by apply Hs].
  - split; [exact Hatt|]. split; [exact Hsl|]. split; [exact Hp|].
    split; [|intros service [=]]. intros e' [= <-]. split; [exact Hconn|].
    destruct (He e eq_refl) as [?|[[?|?] _]]; eauto.
Qed.

Lemma get_connection_facts (force_new : bool) (s : State) :
  let run := get_connection rm self force_new s in
  (attempts s <= attempts (snd run) <= attempts s + 6)%nat
  /\ 0 <= slept (snd run) - slept s <= seconds 6
  /\ (probes s <= probes (snd run) <= probes s + 1)%nat
  /\ (forall e, fst run = Some (Raise e) ->
        (exists msg, e = ConnectionError msg)
        \/ (exists msg, e = ValueError msg) \/ (exists key, e = KeyError key))
  /\ (forall service, fst run = Some (Ok service) ->
        _connections (snd run) = Some service)
  /\ (forall service,
        force_new = false -> _connections s = Some service ->
        apps_list rm (probes s) = Ok tt ->
        fst run = Some (Ok service)
        /\ attempts (snd run) = attempts s /\ sleeps (snd run) = sleeps s
        /\ cred_log (snd run) = cred_log s).
Proof.
  cbv zeta. unfold get_connection. rewrite bind_run. unfold gets. cbv beta iota.
  rewrite bind_run.
  assert (forall (current : Service) (s1 : State),
            _connections s1 = Some current ->
            let run := (alive ← try (remote_probe rm current);
                        match alive with
                        | Ok _ => mret current
                        | Raise _ => reconnect rm self
                        end) s1 in
            (attempts s1 <= attempts (snd run) <= attempts s1 + 3)%nat
            /\ 0 <= slept (snd run) - slept s1 <= seconds 3
            /\ probes (snd run) = S (probes s1)
            /\ (forall e, fst run = Some (Raise e) ->
                  (exists msg, e = ConnectionError msg)
                  \/ (exists msg, e = ValueError msg) \/ (exists key, e = KeyError key))
            /\ (forall service, fst run = Some (Ok service) ->
                  _connections (snd run) = Some service)
            /\ (apps_list rm (probes s1) = Ok tt ->
                  fst run = Some (Ok current)
                  /\ attempts (snd run) = attempts s1 /\ sleeps (snd run) = sleeps s1
                  /\ cred_log (snd run) = cred_log s1)) as Hprobe.
  { intros current s1 Hcur. cbv zeta. rewrite bind_run. unfold try, remote_probe.
    destruct (apps_list rm (probes s1)) as [[]|e].
    - cbn. unfold slept, seconds. cbn.
      split; [lia|]. split; [lia|]. split; [reflexivity|]. split; [intros e [=]|].
      split; [by intros service [= <-]|done].
    - cbv beta iota.
      pose proof (reconnect_facts (count_probe (elapse rm 0 s1))) as Hr. cbv zeta in Hr.
      destruct (reconnect rm self _) as [r s2]. cbn [fst snd] in *.
      destruct Hr as (Hatt & Hsl & Hp & He & Hs).
      split; [exact Hatt|]. split; [exact Hsl|]. split; [exact Hp|].
      split; [intros e' Hr; by apply He|].
      split; [intros service Hr; by apply Hs|done]. }
  assert (seconds 6 = seconds 3 + seconds 3) as Hsix by reflexivity.
  destruct force_new, (_connections s) as [cached|] eqn:Hcached;
    try (pose proof (reconnect_facts s) as Hr; cbv zeta in Hr;
         destruct (reconnect rm self s) as [[[service|e]|] s1]; cbn [fst snd] in *;
         destruct Hr as (Hatt & Hsl & Hp & He & Hs);
         [destruct (Hs service eq_refl) as [Hnew _];
          specialize (Hprobe service s1 Hnew); cbv zeta in Hprobe;
          match type of Hprobe with
          | context [(?m ≫= ?k) s1] => destruct ((m ≫= k) s1) as [r s2]
          end; cbn [fst snd] in *;
          destruct Hprobe as (Hatt' & Hsl' & Hp' & He' & Hs' & _);
          split; [lia|]; split; [lia|]; split; [lia|];
          split; [exact He'|]; split; [exact Hs'|]; by intros ? ? ?
         |split; [lia|]; split; [unfold seconds in *; lia|]; split; [lia|];
          split; [intros e' [= <-]; by apply He|];
          split; [intros ? [=]|by intros ? ? ?]
         |split; [lia|]; split; [unfold seconds in *; lia|]; split; [lia|];
          split; [intros e' [=]|]; split; [intros ? [=]|by intros ? ? ?]]).
  change ((mret cached : M Service) s) with (Some (Ok cached), s). cbv beta iota.
  specialize (Hprobe cached s Hcached). cbv zeta in Hprobe.
  match type of Hprobe with
  | context [(?m ≫= ?k) s] => destruct ((m ≫= k) s) as [r s2] eqn:Hrun
  end; cbn [fst snd] in *.
  destruct Hprobe as (Hatt' & Hsl' & Hp' & He' & Hs' & Hlive).
  split; [lia|]. split; [unfold seconds in *; lia|]. split; [lia|].
  split; [exact He'|]. split; [exact Hs'|].
  intros service _ [= <-] Halive. by apply Hlive.
Qed.

(** X7. [get_connection], whatever the service answers: at most six
    connection attempts (a fresh session is probed at once, and a failed
    probe opens another), at most one liveness probe, at most six seconds
    asked of [time.sleep]; the session it returns is the one left in the
    cache; it raises [ConnectionError], [ValueError] or [KeyError] only;
    and a cached session that answers the probe is returned as it is,
    without an attempt, a sleep or a look at the credentials. *)
Theorem get_connection_bounds (force_new : bool) (s : State) :
  let run := get_connection rm self force_new s in
  (attempts s <= attempts (snd run) <= attempts s + 6)%nat
  /\ 0 <= slept (snd run) - slept s <= seconds 6
  /\ (probes s <= probes (snd run) <= probes s + 1)%nat
  /\ (forall e, fst run = Some (Raise e) ->
        (exists msg, e = ConnectionError msg)
        \/ (exists msg, e = ValueError msg) \/ (exists key, e = KeyError key))
  /\ (forall service, fst run = Some (Ok service) ->
        _connections (snd run) = Some service)
  /\ (forall service,
        force_new = false -> _connections s = Some service ->
        apps_list rm (probes s) = Ok tt ->
        fst run = Some (Ok service)
        /\ attempts (snd run) = attempts s /\ sleeps (snd run) = sleeps s
        /\ cred_log (snd run) = cred_log s).
Proof. apply get_connection_facts. Qed.



End SessionCoverage.

(** ** Executor: failures of the session, and the run of a finished job *)

Section ExecutorCoverage.
Context {L : CryptoLib} (rm : SplunkClient.Remote) (self : SplunkClient.Client).
Import SplunkClient.

(** X9. When the session cannot be opened, [execute_query] answers with
    an error envelope of type [general_error] that carries the query as
    it was given and the text of the exception; no job has been created.
    An authentication failure is reported this way too, not as
    [http_error]. *)
Theorem execute_query_without_session (fuel : nat) (query : string)
    (earliest_time latest_time : option string) (max_results timeout : option Z)
    (s : State) (e : exn) :
  fst (get_connection rm self false s) = Some (Raise e) ->
  fst (execute_query rm self fuel query earliest_time latest_time max_results timeout s)
    = Some (Ok (Error query (exn_str e) "general_error"))
  /\ created (snd (execute_query rm self fuel query earliest_time latest_time
                     max_results timeout s)) = created s
  /\ polls (snd (execute_query rm self fuel query earliest_time latest_time
                   max_results timeout s)) = polls s.
Proof.
  intros Hconn.
  pose proof (get_connection_facts rm self false s) as Hfacts. cbv zeta in Hfacts.
  destruct (keeps_get_connection rm self false s) as (_ & Hp & Hj).
  destruct (get_connection rm self false s) as [r s1] eqn:Hrun. cbn [fst snd] in *.
  subst r. rewrite (execute_query_disconnected _ _ _ _ _ _ _ _ _ _ _ Hrun). cbn [fst snd].
  split; [|split; assumption].
  destruct Hfacts as (_ & _ & _ & He & _).
  by destruct (He e eq_refl) as [[msg ->]|[[msg ->]|[key ->]]].
Qed.

(** The polling loop for a job that reports done at its [k]-th poll
    from now, while every call to the outside takes at most [d]
    milliseconds and the [k] rounds fit in the timeout. *)
Lemma wait_for_job_done (job : Job) (start_time timeout d : Z) :
  0 <= d ->
  (forall n, latency rm n <= d) ->
  forall (k fuel : nat) (s : State),
    (forall i, (i < k)%nat -> job_is_done job (polls s + i)%nat = Ok false) ->
    job_is_done job (polls s + k)%nat = Ok true ->
    now s - start_time + Z.of_nat k * (500 + 2 * d) <= seconds timeout ->
    (k < fuel)%nat ->
    exists s',
      wait_for_job rm fuel job start_time timeout s = (Some (Ok tt), s')
      /\ polls s' = (polls s + S k)%nat
      /\ sleeps s' = (sleeps s ++ replicate k 500)%list
      /\ cancels s' = cancels s
      /\ created s' = created s
      /\ _last_query_info s' = _last_query_info s
      /\ _connections s' = _connections s.
Proof.
  intros Hd Hlat. induction k as [|k IH]; intros fuel s Hbusy Hdone Htime Hfuel;
    (destruct fuel as [|fuel]; [lia|]); rewrite wait_for_job_step.
  - rewrite Nat.add_0_r in Hdone. rewrite Hdone. cbv zeta.
    eexists. split; [reflexivity|]. cbn. rewrite app_nil_r.
    repeat split. lia.
  - pose proof (Hbusy 0%nat ltac:(lia)) as Hfirst. rewrite Nat.add_0_r in Hfirst.
    rewrite Hfirst. cbv zeta.
    pose proof (Hlat (steps s)). pose proof (Hlat (S (steps s))).
    rewrite (proj2 (Z.ltb_ge _ _)) by (cbn; lia).
    destruct (IH fuel (after_sleep rm 500 (count_poll (elapse rm 0 s))))
      as (s' & Hrun & Hp & Hs & Hc & Hj & Hq & Hconn).
    + intros i Hi. cbn. replace (S (polls s + i)) with (polls s + S i)%nat by lia.
      apply Hbusy. lia.
    + cbn. replace (S (polls s + k)) with (polls s + S k)%nat by lia. exact Hdone.
    + cbn. lia.
    + lia.
    + exists s'. split; [exact Hrun|]. cbn in Hp, Hs, Hc, Hj, Hq, Hconn.
      split; [lia|]. split; [by rewrite Hs, <- app_assoc|]. done.
Qed.

(** X10. A query whose job reports done at its [k]-th poll: the loop
    sleeps [k] times half a second; the statistics are stored in
    [_last_query_info] with the job id and the query as sent; the job is
    cancelled once, after the results are read.  When that last
    [job.cancel()] goes through, the envelope is the success envelope with
    the query as sent, the time range used and the results; when it raises,
    the results are dropped and the call ends with what the [except]
    clauses make of that exception. *)
Theorem execute_query_finished_job (fuel k : nat) (query : string)
    (earliest_time latest_time : option string) (max_results timeout : option Z)
    (s s1 : State) (service : Service) (job : Job) (d : Z)
    (stats : Stats) (results_data : ResultsData) :
  let q := normalize_query query in
  let earliest := or_setting earliest_time (default_earliest_time (query_settings self)) "-30d" in
  let latest := or_setting latest_time (default_latest_time (query_settings self)) "now" in
  let count := or_setting max_results (SplunkClient.max_results (query_settings self)) 10000 in
  let limit := or_setting timeout (max_execution_time (query_settings self)) 300 in
  get_connection rm self false s = (Some (Ok service), s1) ->
  jobs_create rm q {| ja_earliest_time := earliest; ja_latest_time := latest;
                      ja_max_count := count |} = Ok job ->
  0 <= d ->
  (forall n, latency rm n <= d) ->
  (forall i, (i < k)%nat -> job_is_done job (polls s + i)%nat = Ok false) ->
  job_is_done job (polls s + k)%nat = Ok true ->
  Z.of_nat k * (500 + 2 * d) <= seconds limit ->
  (k < fuel)%nat ->
  job_stats job = Ok stats ->
  job_results job count = Ok results_data ->
  exists s',
    execute_query rm self fuel query earliest_time latest_time max_results timeout s
    = (Some match job_cancel job with
             | Ok _ =>
                 Ok (Success q {| earliest := earliest; latest := latest |} stats
                       (default [] (rd_results results_data))
                       (default [] (rd_fields results_data))
                       (default [] (rd_messages results_data)))
             | Raise e => handle_exception q e
             end, s')
    /\ polls s' = (polls s + S k)%nat
    /\ sleeps s' = (sleeps s1 ++ replicate k 500)%list
    /\ created s' = S (created s)
    /\ cancels s' = S (cancels s)
    /\ _last_query_info s' = Some (sid job, q, stats).
Proof.
  intros q earliest latest count limit Hconn Hjob Hd Hlat Hbusy Hdone Htime Hfuel
    Hstats Hres.
  rewrite (execute_query_connected _ _ _ _ _ _ _ _ _ _ _ Hconn). cbv zeta.
  destruct (keeps_get_connection rm self false s) as (Hc & Hp & Hj).
  rewrite Hconn in Hc, Hp, Hj. simpl in Hc, Hp, Hj.
  fold q earliest latest count limit.
  unfold run_job. rewrite bind_run. unfold remote_create_job. rewrite Hjob.
  rewrite bind_run. unfold time, gets. cbv beta iota. rewrite bind_run.
  set (s2 := count_created (elapse rm 0 s1)).
  destruct (wait_for_job_done job (now s2) limit d Hd Hlat k fuel s2)
    as (s3 & Hrun & Hp3 & Hs3 & Hc3 & Hj3 & Hq3 & _).
  { intros i Hi. cbn. rewrite Hp. by apply Hbusy. }
  { cbn. by rewrite Hp. }
  { lia. }
  { exact Hfuel. }
  rewrite Hrun. cbv beta iota.
  rewrite bind_run. unfold remote_stats. rewrite Hstats.
  rewrite bind_run. unfold modify. cbv beta iota.
  rewrite bind_run. unfold remote_results. rewrite Hres.
  rewrite bind_run. unfold remote_cancel.
  cbn in Hp3, Hs3, Hc3, Hj3.
  destruct (job_cancel job) as [[]|e]; (eexists; split; [reflexivity|]); cbn;
    (split; [lia|]; split; [exact Hs3|]; split; [lia|]; split; [lia|reflexivity]).
Qed.

End ExecutorCoverage.

Section ClientCoverageExamples.
#[local] Existing Instance Small.lib.
Import SplunkClient.


Lemma execute_query_without_session_witness :
  let run := execute_query (Small.remote Small.rejecting (Raise SocketTimeout)) Small.client
               6 "error 500" None None None None Small.fresh in
  fst run = Some (Ok (Error "error 500" "Authentication failed: Invalid credentials"
                        "general_error"))
  /\ created (snd run) = 0%nat
  /\ polls (snd run) = 0%nat.
Proof.
  apply (execute_query_without_session
           (Small.remote Small.rejecting (Raise SocketTimeout)) Small.client
           6 "error 500" None None None None Small.fresh
           (ConnectionError "Authentication failed: Invalid credentials")).
  vm_compute. reflexivity.
Defined.

Lemma execute_query_finished_job_witness :
  exists s',
    execute_query (Small.remote Small.up (Ok Small.sourcetypes_job)) Small.client 6
      "error 500" None None None None Small.connected
    = (Some (Ok (Success "search error 500" {| earliest := "-30d"; latest := "now" |}
                   Small.stats
                   [[("sourcetype", VStr "syslog"); ("totalCount", VStr "12")];
                    [("sourcetype", VStr "")];
                    [("totalCount", VStr "7")];
                    [("sourcetype", VStr "access_combined")]] [] [])), s')
    /\ polls s' = 1%nat
    /\ sleeps s' = []
    /\ created s' = 1%nat
    /\ cancels s' = 1%nat
    /\ _last_query_info s' = Some ("1700000000.19", "search error 500", Small.stats).
Proof.
  apply (execute_query_finished_job
           (Small.remote Small.up (Ok Small.sourcetypes_job)) Small.client 6 0
           "error 500" None None None None Small.connected
           (count_probe (elapse (Small.remote Small.up (Ok Small.sourcetypes_job)) 0
                           Small.connected))
           0%nat Small.sourcetypes_job 20 Small.stats
           {| rd_results :=
                Some [[("sourcetype", VStr "syslog"); ("totalCount", VStr "12")];
                      [("sourcetype", VStr "")];
                      [("totalCount", VStr "7")];
                      [("sourcetype", VStr "access_combined")]];
              rd_fields := None;
              rd_messages := None |}).
  - reflexivity.
  - reflexivity.
  - lia.
  - intros n. vm_compute. discriminate.
  - intros i Hi. lia.
  - reflexivity.
  - vm_compute. discriminate.
  - lia.
  - reflexivity.
  - reflexivity.
Defined.

End ClientCoverageExamples.

(** ** The query as it is sent *)

Section QueryText.
Import SplunkClient.

Lemma string_app_assoc (a b c : string) : (a +:+ b) +:+ c = a +:+ (b +:+ c).
Proof.
  induction a as [|x a IH]; [reflexivity|].
  change (String x ((a +:+ b) +:+ c) = String x (a +:+ (b +:+ c))). by rewrite IH.
Qed.

Lemma string_app_nil_r (a : string) : a +:+ "" = a.
Proof.
  induction a as [|x a IH]; [reflexivity|].
  change (String x (a +:+ "") = String x a). by rewrite IH.
Qed.

Lemma string_rev_app_spec (s acc : string) :
  String.rev_app s acc = String.rev s +:+ acc.
Proof.
  revert acc. induction s as [|x s IH]; intros acc; [reflexivity|].
  unfold String.rev. cbn [String.rev_app].
  rewrite (IH (String x acc)), (IH (String x "")).
  by rewrite string_app_assoc.
Qed.

Lemma string_rev_app (a b : string) :
  String.rev (a +:+ b) = String.rev b +:+ String.rev a.
Proof.
  induction a as [|x a IH].
  - change (String.rev b = String.rev b +:+ ""). by rewrite string_app_nil_r.
  - change (String.rev_app (a +:+ b) (String x "")
            = String.rev b +:+ String.rev_app a (String x "")).
    rewrite !string_rev_app_spec, IH. by rewrite string_app_assoc.
Qed.

Lemma string_app_cons (a : ascii) (x y : string) :
  String a x +:+ y = String a (x +:+ y).
Proof. reflexivity. Qed.

(** Stripping stops at the latest at a character [c] that is not white
    space and is no byte of a longer white space character. *)
Lemma strip_front_keeps_suffix (sp2 : ascii -> ascii -> bool)
    (sp3 : ascii -> ascii -> ascii -> bool) (c : ascii) (y : string) :
  is_space c = false ->
  (forall a, sp2 c a = false) -> (forall a, sp2 a c = false) ->
  (forall a b, sp3 c a b = false) -> (forall a b, sp3 a c b = false) ->
  (forall a b, sp3 a b c = false) ->
  forall (n : nat) (x : string),
    (String.length x <= n)%nat ->
    exists t, strip_front sp2 sp3 (x +:+ String c y) = t +:+ String c y.
Proof.
  intros Hc H21 H22 H31 H32 H33.
  induction n as [|n IH]; intros x Hlen.
  - destruct x as [|a x]; [|cbn in Hlen; lia].
    exists "". change ("" +:+ String c y) with (String c y).
    cbn [strip_front]. rewrite Hc. destruct y as [|b [|d y]]; try reflexivity.
    + by rewrite H21.
    + by rewrite H21, H31.
  - destruct x as [|a x1].
    { apply (IH ""). cbn. lia. }
    rewrite string_app_cons. cbn [strip_front].
    destruct (is_space a).
    { apply IH. cbn in Hlen. lia. }
    destruct x1 as [|b x2].
    { change ("" +:+ String c y) with (String c y). cbv iota. rewrite H22.
      exists (String a ""). destruct y as [|d y]; [reflexivity|]. by rewrite H32. }
    rewrite string_app_cons. cbv iota.
    destruct (sp2 a b).
    { apply IH. cbn in Hlen. lia. }
    destruct x2 as [|d x3].
    { change ("" +:+ String c y) with (String c y). cbv iota. rewrite H33.
      by exists (String a (String b "")). }
    rewrite string_app_cons. cbv iota.
    destruct (sp3 a b d).
    { apply IH. cbn in Hlen. lia. }
    by exists (String a (String b (String d x3))).
Qed.

Lemma string_prefix_app (p s : string) : String.prefix p (p +:+ s) = true.
Proof.
  induction p as [|a p IH]; [by destruct s|].
  change (match ascii_dec a a with
          | left _ => String.prefix p (p +:+ s)
          | right _ => false
          end = true).
  by destruct (ascii_dec a a).
Qed.

Lemma strip_search_prefix (query : string) :
  startswith (strip ("search " +:+ query)) "search" = true.
Proof.
  unfold strip, rstrip, startswith.
  change (lstrip ("search " +:+ query)) with ("search " +:+ query).
  rewrite string_rev_app.
  change (String.rev "search ") with (" hcraes").
  destruct (strip_front_keeps_suffix
              (fun a b => is_space2 b a) (fun a b c => is_space3 c b a) "h" "craes")
    with (n := String.length (String.rev query +:+ " ")) (x := String.rev query +:+ " ")
    as [t Ht]; try reflexivity.
  - intros a. unfold is_space2. cbv beta iota zeta.
    by destruct (nat_of_ascii a =? 194)%nat.
  - intros a b. unfold is_space3. cbv beta iota zeta.
    by destruct (nat_of_ascii b =? 225)%nat, (nat_of_ascii b =? 226)%nat,
         (nat_of_ascii b =? 227)%nat, (nat_of_ascii a =? 154)%nat,
         (nat_of_ascii a =? 128)%nat, (nat_of_ascii a =? 129)%nat.
  - intros a b. unfold is_space3. cbv beta iota zeta.
    by destruct (nat_of_ascii b =? 225)%nat, (nat_of_ascii b =? 226)%nat,
         (nat_of_ascii b =? 227)%nat.
  - rewrite string_app_assoc in Ht. change (" " +:+ "hcraes") with " hcraes" in Ht.
    rewrite Ht, string_rev_app. apply (string_prefix_app "search").
Qed.

(** White space beyond ASCII goes too: a no-break space in front, an
    ideographic space at the end. *)
Example strip_unicode : strip "  admin	　" = "admin".
Proof. vm_compute. reflexivity. Qed.

Example normalize_query_unicode :
  normalize_query " index=main" = " index=main".
Proof. vm_compute. reflexivity. Qed.

(** X11. The query sent to the service is the query given or the query
    given after [search ]; stripped of white space, it begins with
    [search], [|] or [index]; normalizing it again changes nothing. *)
Theorem normalize_query_generating (query : string) :
  (normalize_query query = query \/ normalize_query query = "search " +:+ query)
  /\ existsb (startswith (strip (normalize_query query))) ["search"; "|"; "index"] = true
  /\ normalize_query (normalize_query query) = normalize_query query.
Proof.
  assert (existsb (startswith (strip (normalize_query query))) ["search"; "|"; "index"]
          = true) as Hguard.
  { unfold normalize_query.
    destruct (existsb (startswith (strip query)) _) eqn:Hq; [exact Hq|].
    cbn [existsb]. by rewrite strip_search_prefix. }
  split; [|split; [exact Hguard|]].
  - clear Hguard. unfold normalize_query. destruct (existsb _ _); [by left|by right].
  - unfold normalize_query at 1. by rewrite Hguard.
Qed.

End QueryText.

(** ** Formatter: cleaned records, pagination, event summary *)

Section FormatterCoverage.
Context {R : PyRuntime}.
Import ResponseFormatter.

Lemma has_key_get (r : record) (k : string) :
  has_key r k = match get r k with Some _ => true | None => false end.
Proof.
  induction r as [|[k' v] r IH]; [reflexivity|]. cbn [has_key existsb get fst].
  destruct (String.eqb k' k); [reflexivity|exact IH].
Qed.

Lemma get_setitem (d : record) (k k' : string) (v : value) :
  get (setitem d k v) k' = if String.eqb k k' then Some v else get d k'.
Proof.
  induction d as [|[k0 v0] d IH]; cbn [setitem get].
  - by destruct (String.eqb k k').
  - destruct (String.eqb_spec k0 k) as [->|Hne]; cbn [get].
    + by destruct (String.eqb k k').
    + rewrite IH. destruct (String.eqb_spec k0 k') as [->|Hne'].
      * by rewrite (proj2 (String.eqb_neq _ _)) by congruence.
      * reflexivity.
Qed.

Lemma keys_setitem (d : record) (k : string) (v : value) :
  (setitem d k v).*1 = if has_key d k then d.*1 else (d.*1 ++ [k])%list.
Proof.
  induction d as [|[k0 v0] d IH]; [reflexivity|].
  cbn [setitem has_key existsb fst]. fold (has_key d k).
  destruct (String.eqb k0 k); [reflexivity|]. cbn [orb]. rewrite fmap_cons, IH.
  by destruct (has_key d k).
Qed.

(** The first loop of [clean_result], over any list of fields. *)
Lemma get_priority_loop (result : record) (fields : list string) (k : string) :
  forall acc : record,
    get (foldl (fun cleaned field =>
                  match get result field with
                  | Some v => setitem cleaned field v
                  | None => cleaned
                  end) acc fields) k
    = if existsb (String.eqb k) fields
      then match get result k with Some v => Some v | None => get acc k end
      else get acc k.
Proof.
  induction fields as [|f fields IH]; intros acc; [reflexivity|].
  cbn [foldl existsb]. rewrite IH.
  destruct (String.eqb_spec k f) as [->|Hne]; cbn [orb].
  - destruct (get result f) as [v|] eqn:Hf.
    + rewrite get_setitem, String.eqb_refl. by destruct (existsb _ fields).
    + by destruct (existsb _ fields).
  - destruct (get result f) as [v|]; [|reflexivity].
    rewrite get_setitem, (proj2 (String.eqb_neq _ _)) by congruence. reflexivity.
Qed.

(** The second loop: the fields that are not internal and not there yet. *)
Lemma get_public_loop (result : record) (k : string) :
  forall acc : record,
    get (foldl (fun cleaned item =>
                  if negb (startswith (fst item) "_") && negb (has_key cleaned (fst item))
                  then setitem cleaned (fst item) (snd item)
                  else cleaned) acc result) k
    = match get acc k with
      | Some v => Some v
      | None => if startswith k "_" then None else get result k
      end.
Proof.
  induction result as [|[k0 v0] result IH]; intros acc; cbn [foldl fst snd get].
  - destruct (get acc k); [reflexivity|]. by destruct (startswith k "_").
  - rewrite IH. destruct (String.eqb_spec k0 k) as [->|Hne].
    + rewrite has_key_get. destruct (get acc k) as [v|] eqn:Hacc.
      * rewrite andb_false_r. by rewrite Hacc.
      * rewrite andb_true_r. destruct (startswith k "_"); cbn [negb].
        -- by rewrite Hacc.
        -- by rewrite get_setitem, String.eqb_refl.
    + destruct (negb _ && negb _); [|reflexivity].
      rewrite get_setitem, (proj2 (String.eqb_neq _ _)) by congruence. reflexivity.
Qed.

(** The third loop: the internal fields other than [_time] and [_raw];
    the keys of a dict are distinct. *)
Lemma get_internal_loop (result : record) (k : string) :
  NoDup result.*1 ->
  forall acc : record,
    get (foldl (fun cleaned item =>
                  if startswith (fst item) "_"
                     && negb (existsb (String.eqb (fst item)) ["_time"; "_raw"])
                  then setitem cleaned (fst item) (snd item)
                  else cleaned) acc result) k
    = if startswith k "_" && negb (existsb (String.eqb k) ["_time"; "_raw"])
      then match get result k with Some v => Some v | None => get acc k end
      else get acc k.
Proof.
  induction result as [|[k0 v0] result IH]; intros Hnd acc; cbn [foldl fst snd get].
  - by destruct (_ && _).
  - rewrite fmap_cons in Hnd. apply NoDup_cons in Hnd as [Hk0 Hnd]. cbn [fst] in Hk0.
    rewrite (IH Hnd). destruct (String.eqb_spec k0 k) as [->|Hne].
    + assert (get result k = None) as Hnone.
      { destruct (get result k) as [v|] eqn:Hg; [|reflexivity]. exfalso. apply Hk0.
        clear -Hg. induction result as [|[k1 v1] result IH]; [discriminate|].
        cbn [get] in Hg. rewrite fmap_cons. cbn [fst].
        destruct (String.eqb_spec k1 k) as [->|Hne]; [by left|right; by apply IH]. }
      rewrite Hnone. destruct (_ && _); [|reflexivity].
      by rewrite get_setitem, String.eqb_refl.
    + destruct (startswith k0 "_" && _); [|reflexivity].
      rewrite get_setitem, (proj2 (String.eqb_neq _ _)) by congruence. reflexivity.
Qed.

Lemma priority_fields_internal (k : string) :
  existsb (String.eqb k) priority_fields = true ->
  startswith k "_" = true -> existsb (String.eqb k) ["_time"; "_raw"] = true.
Proof.
  unfold priority_fields. cbn [existsb]. intros Hp Hint.
  destruct (String.eqb k "_time"); [reflexivity|].
  destruct (String.eqb_spec k "host") as [Heq|_];
    [rewrite Heq in Hint; by vm_compute in Hint|].
  destruct (String.eqb_spec k "source") as [Heq|_];
    [rewrite Heq in Hint; by vm_compute in Hint|].
  destruct (String.eqb_spec k "sourcetype") as [Heq|_];
    [rewrite Heq in Hint; by vm_compute in Hint|].
  destruct (String.eqb_spec k "message") as [Heq|_];
    [rewrite Heq in Hint; by vm_compute in Hint|].
  exact Hp.
Qed.

Lemma clean_result_get (result : record) (k : string) :
  NoDup result.*1 ->
  get (clean_result result) k
  = if startswith k "_"
    then if existsb (String.eqb k) ["_time"; "_raw"] then get result k
         else if has_key result "_raw" || has_key result "message" then None
              else get result k
    else get result k.
Proof.
  intros Hnd. unfold clean_result.
  match goal with
  | |- context [foldl ?f [] priority_fields] => set (c1 := foldl f [] priority_fields)
  end.
  match goal with
  | |- context [foldl ?g c1 result] => set (c2 := foldl g c1 result)
  end.
  assert (forall k', get c1 k' = if existsb (String.eqb k') priority_fields
                                 then get result k' else None) as Hc1.
  { intros k'. unfold c1. rewrite get_priority_loop. cbn [get].
    destruct (existsb _ _); [|reflexivity]. by destruct (get result k'). }
  assert (forall k', get c2 k' = if existsb (String.eqb k') priority_fields
                                 then get result k'
                                 else if startswith k' "_" then None else get result k') as Hc2.
  { intros k'. unfold c2. rewrite get_public_loop, Hc1.
    destruct (existsb (String.eqb k') priority_fields) eqn:Hp.
    - destruct (get result k') as [v|] eqn:Hg; [reflexivity|].
      by destruct (startswith k' "_").
    - reflexivity. }
  assert (has_key c2 "_raw" = has_key result "_raw") as Hraw
    by (rewrite !has_key_get, Hc2; reflexivity).
  assert (has_key c2 "message" = has_key result "message") as Hmsg
    by (rewrite !has_key_get, Hc2; reflexivity).
  rewrite Hraw, Hmsg, <- negb_orb.
  destruct (has_key result "_raw" || has_key result "message"); cbn [negb].
  - rewrite Hc2. destruct (startswith k "_") eqn:Hint.
    + destruct (existsb (String.eqb k) priority_fields) eqn:Hp.
      * by rewrite (priority_fields_internal k Hp Hint).
      * destruct (existsb (String.eqb k) ["_time"; "_raw"]) eqn:Htr; [|reflexivity].
        exfalso. revert Hp Htr. unfold priority_fields. cbn [existsb].
        repeat (destruct (String.eqb k _); cbn [orb]; try discriminate).
    + destruct (existsb _ priority_fields) eqn:Hp; reflexivity.
  - rewrite (get_internal_loop result k Hnd), Hc2.
    destruct (startswith k "_") eqn:Hint; cbn [andb].
    + destruct (existsb (String.eqb k) ["_time"; "_raw"]) eqn:Htr; cbn [negb].
      * assert (existsb (String.eqb k) priority_fields = true) as ->; [|reflexivity].
        revert Htr. unfold priority_fields. cbn [existsb].
        repeat (destruct (String.eqb k _); cbn [orb]; try reflexivity); discriminate.
      * destruct (existsb (String.eqb k) priority_fields) eqn:Hp.
        -- by rewrite (priority_fields_internal k Hp Hint) in Htr.
        -- by destruct (get result k).
    + by destruct (existsb _ priority_fields).
Qed.

(** X13. What a cleaned record holds, for a record with distinct keys
    (a dict): every field that is not internal, [_time] and [_raw], with
    the values of the record; and the other internal fields exactly when
    the record has neither [_raw] nor [message]. *)
Theorem clean_result_contents (result : record) :
  NoDup result.*1 ->
  (forall k, startswith k "_" = false -> get (clean_result result) k = get result k)
  /\ get (clean_result result) "_time" = get result "_time"
  /\ get (clean_result result) "_raw" = get result "_raw"
  /\ (forall k, startswith k "_" = true -> k <> "_time" -> k <> "_raw" ->
        get (clean_result result) k
        = if has_key result "_raw" || has_key result "message" then None
          else get result k).
Proof.
  intros Hnd. split; [|split; [|split]].
  - intros k Hk. by rewrite (clean_result_get result k Hnd), Hk.
  - by rewrite (clean_result_get result "_time" Hnd).
  - by rewrite (clean_result_get result "_raw" Hnd).
  - intros k Hk Htime Hraw. rewrite (clean_result_get result k Hnd), Hk.
    cbn [existsb].
    by rewrite (proj2 (String.eqb_neq _ _) Htime), (proj2 (String.eqb_neq _ _) Hraw).
Qed.

Lemma has_key_keys (d : record) (k : string) : has_key d k = true <-> k ∈ d.*1.
Proof.
  induction d as [|[k0 v0] d IH]; cbn [has_key existsb fst].
  - split; [discriminate|]. by intros ?%elem_of_nil.
  - fold (has_key d k). rewrite fmap_cons, elem_of_cons, orb_true_iff, IH. cbn [fst].
    rewrite String.eqb_eq. split; (intros [Heq|Hin]; [left; congruence|by right]).
Qed.

(** A loop whose every step leaves the dict alone or sets one item
    keeps the keys it found, in their order, and keeps them distinct. *)
Lemma setitem_loop_keys {A} (step : record -> A -> record) (items : list A) :
  (forall acc x, step acc x = acc \/ exists k v, step acc x = setitem acc k v) ->
  forall acc : record,
    NoDup acc.*1 ->
    NoDup (foldl step acc items).*1
    /\ exists rest, (foldl step acc items).*1 = (acc.*1 ++ rest)%list.
Proof.
  intros Hstep. induction items as [|x items IH]; intros acc Hnd; cbn [foldl].
  - split; [exact Hnd|]. exists []. by rewrite app_nil_r.
  - assert (NoDup (step acc x).*1 /\ exists rest, (step acc x).*1 = (acc.*1 ++ rest)%list)
      as [Hnd' [rest' Hrest']].
    { destruct (Hstep acc x) as [->|(k & v & ->)].
      - split; [exact Hnd|]. exists []. by rewrite app_nil_r.
      - rewrite keys_setitem. destruct (has_key acc k) eqn:Hk.
        + split; [exact Hnd|]. exists []. by rewrite app_nil_r.
        + split; [|by exists [k]]. apply NoDup_app. split; [exact Hnd|].
          split; [|apply NoDup_singleton].
          intros k' Hin ->%list_elem_of_singleton.
          apply has_key_keys in Hin. congruence. }
    destruct (IH (step acc x) Hnd') as [Hnd'' [rest Hrest]].
    split; [exact Hnd''|]. exists (rest' ++ rest)%list.
    by rewrite Hrest, Hrest', app_assoc.
Qed.

Lemma priority_loop_keys (result : record) :
  (foldl (fun cleaned field =>
            match get result field with
            | Some v => setitem cleaned field v
            | None => cleaned
            end) [] priority_fields).*1
  = List.filter (has_key result) priority_fields.
Proof.
  unfold priority_fields. cbn [foldl List.filter]. rewrite !has_key_get.
  destruct (get result "_time"), (get result "host"), (get result "source"),
    (get result "sourcetype"), (get result "message"), (get result "_raw");
    reflexivity.
Qed.

(** X14. The keys of a cleaned record are distinct, and they begin with
    the priority fields that the record has, in the order [_time],
    [host], [source], [sourcetype], [message], [_raw]. *)
Theorem clean_result_order (result : record) :
  NoDup (clean_result result).*1
  /\ exists rest,
       (clean_result result).*1
       = (List.filter (has_key result)
            ["_time"; "host"; "source"; "sourcetype"; "message"; "_raw"] ++ rest)%list.
Proof.
  unfold clean_result.
  match goal with
  | |- context [foldl ?f [] priority_fields] => set (c1 := foldl f [] priority_fields)
  end.
  match goal with
  | |- context [foldl ?g c1 result] => set (c2 := foldl g c1 result)
  end.
  assert (NoDup c1.*1) as Hnd1.
  { unfold c1. apply setitem_loop_keys; [|apply NoDup_nil_2].
    intros acc field. destruct (get result field) as [v|]; eauto. }
  assert (c1.*1 = List.filter (has_key result) priority_fields) as Hk1
    by apply priority_loop_keys.
  assert (NoDup c2.*1 /\ exists rest, c2.*1 = (c1.*1 ++ rest)%list) as [Hnd2 [rest2 Hk2]].
  { unfold c2. apply setitem_loop_keys; [|exact Hnd1].
    intros acc item. destruct (_ && _); eauto. }
  destruct (negb (has_key c2 "_raw") && negb (has_key c2 "message")).
  - match goal with
    | |- context [foldl ?h c2 result] =>
        destruct (setitem_loop_keys h result) with (acc := c2) as [Hnd3 [rest3 Hk3]]
    end.
    + intros acc item. destruct (_ && _); eauto.
    + exact Hnd2.
    + split; [exact Hnd3|]. exists (rest2 ++ rest3)%list.
      by rewrite Hk3, Hk2, Hk1, app_assoc.
  - split; [exact Hnd2|]. exists rest2. by rewrite Hk2, Hk1.
Qed.

Lemma pagination_facts (total page_size : Z) :
  0 < page_size ->
  0 <= total ->
  exists p,
    _calculate_pagination total page_size = Ok p
    /\ total_results p = total
    /\ ResponseFormatter.page_size p = page_size
    /\ (total_pages p - 1) * page_size < total <= total_pages p * page_size
    /\ (requires_pagination p = true <-> page_size < total).
Proof.
  intros Hps Htotal. rewrite (_calculate_pagination_ok total page_size) by lia.
  eexists. split; [reflexivity|]. cbn.
  pose proof (Z.div_mod (total + page_size - 1) page_size ltac:(lia)) as Hdiv.
  pose proof (Z.mod_pos_bound (total + page_size - 1) page_size Hps) as Hmod.
  set (q := (total + page_size - 1) / page_size) in *.
  set (r := (total + page_size - 1) mod page_size) in *.
  split; [reflexivity|]. split; [reflexivity|]. split; [nia|].
  rewrite Z.ltb_lt. split; intros H; nia.
Qed.

(** X15. For a positive page size the number of pages is the least
    number of pages that hold all the results, and pagination is required
    exactly when the results exceed one page. *)
Theorem pagination_is_ceiling (total page_size : Z) :
  0 < page_size ->
  0 <= total ->
  exists p,
    _calculate_pagination total page_size = Ok p
    /\ total_results p = total
    /\ ResponseFormatter.page_size p = page_size
    /\ (total_pages p - 1) * page_size < total <= total_pages p * page_size
    /\ (requires_pagination p = true <-> page_size < total).
Proof. apply pagination_facts. Qed.

(** X16. For a positive page size the two tests of
    [format_query_response] agree: the report carries a preview and the
    pagination guidance exactly when its pagination block requires
    pagination, and then it has no [results] key. *)
Theorem preview_iff_requires_pagination (query : string) (time_range : TimeRange)
    (stats : Stats) (results fields messages : list record)
    (include_raw : bool) (page_size : Z) (report : Report) :
  0 < page_size ->
  format_query_response (Success query time_range stats results fields messages)
    include_raw page_size = Ok report ->
  exists p,
    report_pagination report = Some p
    /\ (requires_pagination p = true ->
          report_results_preview report = Some (_clean_results (take 100 results))
          /\ report_results report = None)
    /\ (requires_pagination p = false ->
          report_results_preview report = None
          /\ report_results report
             = if include_raw then Some (_clean_results results) else None).
Proof.
  intros Hps Hrun.
  destruct (format_query_response_inv _ _ _ _ _ _ _ _ _ Hrun) as (Hne & es & Hes).
  destruct (format_query_response_success query time_range stats results fields
              messages include_raw page_size es Hne Hes)
    as (report' & Hrun' & Hpag & _ & Hres & Hprev).
  rewrite Hrun in Hrun'. injection Hrun' as <-.
  destruct (pagination_facts (Z.of_nat (length results)) page_size Hps ltac:(lia))
    as (p & Hp & _ & _ & _ & Hreq).
  rewrite Hp in Hpag. cbn in Hpag. injection Hpag as Hpag.
  exists p. split; [by symmetry|]. rewrite Hres, Hprev.
  destruct (Z.leb_spec (Z.of_nat (length results)) page_size) as [Hle|Hgt].
  - split; [|done]. intros Hreq'. apply Hreq in Hreq'. lia.
  - split; [done|]. intros Hreq'. apply Hreq in Hgt. congruence.
Qed.

Lemma get_of_strings (r : record) (k : string) (v : value) :
  Forall (fun item => exists s, snd item = VStr s) r ->
  get r k = Some v -> exists s, v = VStr s.
Proof.
  induction 1 as [|[k0 v0] r Hv Hr IH]; cbn [get]; [discriminate|].
  destruct (String.eqb k0 k); [|exact IH]. by intros [= <-].
Qed.

Lemma sum_incr (c : Counter) (k : string) : sum_list (incr c k).*2 = S (sum_list c.*2).
Proof.
  induction c as [|[k' n] c IH]; cbn [incr]; [reflexivity|].
  destruct (String.eqb k' k); rewrite !fmap_cons; cbn; [lia|].
  cbn in IH. rewrite IH. lia.
Qed.

Lemma sum_insert_desc (x : string * nat) (c : Counter) :
  sum_list (insert_desc x c).*2 = (snd x + sum_list c.*2)%nat.
Proof.
  induction c as [|y c IH]; cbn [insert_desc]; [reflexivity|].
  destruct (snd x <? snd y)%nat; rewrite !fmap_cons; cbn; [|reflexivity].
  cbn in IH. rewrite IH. lia.
Qed.

Lemma sum_sort_desc (c : Counter) : sum_list (sort_desc c).*2 = sum_list c.*2.
Proof.
  induction c as [|x c IH]; [reflexivity|].
  cbn [sort_desc foldr]. fold (sort_desc c). rewrite sum_insert_desc, IH. reflexivity.
Qed.

(** Counting a field of string-valued records: every record is counted
    once, under the value of the field or under [unknown]. *)
Lemma count_field_strings (field : string) (results : list record) :
  Forall (Forall (fun item => exists s, snd item = VStr s)) results ->
  forall c : Counter,
    exists c', count_field field results c = Ok c'
               /\ sum_list c'.*2 = (sum_list c.*2 + length results)%nat.
Proof.
  induction 1 as [|r results Hr Hrs IH]; intros c; cbn [count_field].
  - exists c. split; [reflexivity|]. cbn. lia.
  - assert (exists s, default (VStr "unknown") (get r field) = VStr s) as [s ->].
    { destruct (get r field) as [v|] eqn:Hg; [|by exists "unknown"].
      exact (get_of_strings r field v Hr Hg). }
    destruct (IH (incr c s)) as (c' & Hrun & Hsum).
    exists c'. split; [exact Hrun|]. rewrite Hsum, sum_incr. cbn [length]. lia.
Qed.

Lemma severity_distribution_strings (fields : list string) (results : list record) :
  Forall (Forall (fun item => exists s, snd item = VStr s)) results ->
  exists d,
    severity_distribution fields results = Ok d
    /\ (existsb (fun f => any_has f results) fields = false -> d = None)
    /\ (existsb (fun f => any_has f results) fields = true ->
          exists c, d = Some c
                    /\ StronglySorted by_count_desc c
                    /\ sum_list c.*2 = length results).
Proof.
  intros Hstr. induction fields as [|f fields IH]; cbn [severity_distribution existsb].
  - exists None. by repeat split.
  - destruct (any_has f results); cbn [orb]; [|exact IH].
    destruct (count_field_strings f results Hstr []) as (c & -> & Hsum).
    cbn. eexists. split; [reflexivity|]. split; [done|]. intros _.
    eexists. split; [reflexivity|]. split; [apply sort_desc_sorted|].
    by rewrite sum_sort_desc.
Qed.

Lemma event_summary_strings (results : list record) :
  results <> [] ->
  Forall (Forall (fun item => exists s, snd item = VStr s)) results ->
  exists es,
    _generate_event_summary results = Ok es
    /\ es_total_events es = Some (length results)
    /\ (any_has "sourcetype" results = false -> es_sourcetypes es = None)
    /\ (any_has "sourcetype" results = true ->
          exists c, es_sourcetypes es = Some c
                    /\ StronglySorted by_count_desc c
                    /\ sum_list c.*2 = length results)
    /\ (any_has "host" results = false ->
          es_top_hosts es = None /\ es_unique_hosts es = None)
    /\ (any_has "host" results = true ->
          exists top n, es_top_hosts es = Some top /\ es_unique_hosts es = Some n
                        /\ length top = Nat.min 5 n
                        /\ StronglySorted by_count_desc top)
    /\ (existsb (fun f => any_has f results) ["severity"; "level"; "log_level"] = false ->
          es_severity_distribution es = None)
    /\ (existsb (fun f => any_has f results) ["severity"; "level"; "log_level"] = true ->
          exists c, es_severity_distribution es = Some c
                    /\ StronglySorted by_count_desc c
                    /\ sum_list c.*2 = length results).
Proof.
  intros Hne Hstr.
  destruct (count_field_strings "host" results Hstr []) as (hosts & Hhosts & _).
  destruct (count_field_strings "source" results Hstr []) as (sources & Hsources & _).
  destruct (count_field_strings "sourcetype" results Hstr [])
    as (sourcetypes & Hsourcetypes & Hsum).
  destruct (severity_distribution_strings ["severity"; "level"; "log_level"] results Hstr)
    as (d & Hsev & Hnone & Hsome).
  exists {| es_total_events := Some (length results);
            es_unique_hosts :=
              if any_has "host" results then Some (length hosts) else None;
            es_top_hosts :=
              if any_has "host" results then Some (most_common (Some 5%nat) hosts)
              else None;
            es_unique_sources :=
              if any_has "source" results then Some (length sources) else None;
            es_top_sources :=
              if any_has "source" results then Some (most_common (Some 5%nat) sources)
              else None;
            es_sourcetypes :=
              if any_has "sourcetype" results then Some (most_common None sourcetypes)
              else None;
            es_severity_distribution := d |}.
  split.
  { unfold _generate_event_summary.
    destruct results as [|r0 results0] eqn:Hresults; [done|]. rewrite <- Hresults in *.
    rewrite Hhosts, Hsources, Hsourcetypes, Hsev.
    by destruct (any_has "host" results), (any_has "source" results),
         (any_has "sourcetype" results). }
  cbn [es_total_events es_unique_hosts es_top_hosts es_sourcetypes
       es_severity_distribution].
  split; [reflexivity|]. split; [by intros ->|]. split.
  { intros ->. eexists. split; [reflexivity|]. split; [apply sort_desc_sorted|].
    unfold most_common. by rewrite sum_sort_desc. }
  split; [by intros ->|]. split.
  { intros ->. eexists _, _. split; [reflexivity|]. split; [reflexivity|]. split.
    - unfold most_common.
      by rewrite length_take, (Permutation_length (sort_desc_perm hosts)).
    - apply (most_common_spec 5). }
  split; [exact Hnone|exact Hsome].
Qed.

(** X17. The event summary of string-valued records, when there is at
    least one: it is computed; it counts the records; the sourcetype
    distribution is there exactly when some record has a [sourcetype], is
    in decreasing order of count and counts every record once (under
    [unknown] without the field); the top hosts are at most five; the
    severity distribution is there exactly when some record has one of
    [severity], [level] and [log_level], and counts every record once. *)
Theorem event_summary_of_strings (results : list record) :
  results <> [] ->
  Forall (Forall (fun item => exists s, snd item = VStr s)) results ->
  exists es,
    _generate_event_summary results = Ok es
    /\ es_total_events es = Some (length results)
    /\ (any_has "sourcetype" results = false -> es_sourcetypes es = None)
    /\ (any_has "sourcetype" results = true ->
          exists c, es_sourcetypes es = Some c
                    /\ StronglySorted by_count_desc c
                    /\ sum_list c.*2 = length results)
    /\ (any_has "host" results = false ->
          es_top_hosts es = None /\ es_unique_hosts es = None)
    /\ (any_has "host" results = true ->
          exists top n, es_top_hosts es = Some top /\ es_unique_hosts es = Some n
                        /\ length top = Nat.min 5 n
                        /\ StronglySorted by_count_desc top)
    /\ (existsb (fun f => any_has f results) ["severity"; "level"; "log_level"] = false ->
          es_severity_distribution es = None)
    /\ (existsb (fun f => any_has f results) ["severity"; "level"; "log_level"] = true ->
          exists c, es_severity_distribution es = Some c
                    /\ StronglySorted by_count_desc c
                    /\ sum_list c.*2 = length results).
Proof. apply event_summary_strings. Qed.

(** X18. [format_query_response] on a success envelope of string-valued
    records: a page size of zero raises [ZeroDivisionError]; every other
    page size gives a report, whose statistics read the counters of the
    job and whose field summary is that of the results. *)
Theorem format_query_response_of_strings (query : string) (time_range : TimeRange)
    (stats : Stats) (results fields messages : list record)
    (include_raw : bool) (page_size : Z) :
  Forall (Forall (fun item => exists s, snd item = VStr s)) results ->
  (page_size = 0 ->
     format_query_response (Success query time_range stats results fields messages)
       include_raw page_size = Raise ZeroDivisionError)
  /\ (page_size <> 0 ->
       exists report,
         format_query_response (Success query time_range stats results fields messages)
           include_raw page_size = Ok report
         /\ report_field_summary report = _generate_field_summary results
         /\ exists p, report_pagination report = Some p
                      /\ total_results p = Z.of_nat (length results)).
Proof.
  intros Hstr. split.
  - intros ->. reflexivity.
  - intros Hps.
    assert (exists es, _generate_event_summary results = Ok es) as [es Hes].
    { destruct results as [|r0 results0] eqn:Hresults; [by eexists|].
      rewrite <- Hresults in *.
      destruct (event_summary_strings results ltac:(by rewrite Hresults) Hstr)
        as (es & Hes & _). eauto. }
    destruct (format_query_response_success query time_range stats results fields
                messages include_raw page_size es Hps Hes)
      as (report & Hrun & Hpag & Hfs & _).
    exists report. split; [exact Hrun|]. split; [exact Hfs|].
    rewrite (_calculate_pagination_ok _ _ Hps) in Hpag. cbn in Hpag.
    injection Hpag as Hpag. eexists. split; [by symmetry|]. reflexivity.
Qed.

End FormatterCoverage.

Section FormatterCoverageExamples.
#[local] Existing Instance Small.runtime.
Import ResponseFormatter.

Lemma clean_result_contents_witness :
  let result := [("_time", VStr "2024-01-01T00:00:00"); ("_si", VStr "idx-1");
                 ("user", VStr "root"); ("host", VStr "web-1")] in
  (forall k, startswith k "_" = false -> get (clean_result result) k = get result k)
  /\ get (clean_result result) "_time" = get result "_time"
  /\ get (clean_result result) "_raw" = get result "_raw"
  /\ (forall k, startswith k "_" = true -> k <> "_time" -> k <> "_raw" ->
        get (clean_result result) k
        = if has_key result "_raw" || has_key result "message" then None
          else get result k).
Proof.
  apply (clean_result_contents
           [("_time", VStr "2024-01-01T00:00:00"); ("_si", VStr "idx-1");
            ("user", VStr "root"); ("host", VStr "web-1")]).
  refine (bool_decide_unpack _ _). vm_compute. exact I.
Defined.

Lemma pagination_is_ceiling_witness :
  exists p,
    _calculate_pagination 2001 1000 = Ok p
    /\ total_results p = 2001
    /\ ResponseFormatter.page_size p = 1000
    /\ (total_pages p - 1) * 1000 < 2001 <= total_pages p * 1000
    /\ (requires_pagination p = true <-> 1000 < 2001).
Proof. apply (pagination_is_ceiling 2001 1000); lia. Defined.

Lemma preview_iff_requires_pagination_witness :
  exists report p,
    format_query_response
      (Success "index=main" {| earliest := "-1h"; latest := "now" |} Small.stats
         Small.events [] []) true 2 = Ok report
    /\ report_pagination report = Some p
    /\ requires_pagination p = true
    /\ report_results_preview report = Some (_clean_results (take 100 Small.events))
    /\ report_results report = None.
Proof.
  edestruct (preview_iff_requires_pagination "index=main"
               {| earliest := "-1h"; latest := "now" |} Small.stats Small.events [] []
               true 2) as (p & Hp & Hyes & _); [lia|vm_compute; reflexivity|].
  eexists _, p. split; [vm_compute; reflexivity|]. split; [exact Hp|].
  assert (requires_pagination p = true) as Hreq.
  { vm_compute in Hp. injection Hp as <-. reflexivity. }
  split; [exact Hreq|]. exact (Hyes Hreq).
Defined.

Lemma event_summary_of_strings_witness :
  exists es,
    _generate_event_summary Small.events = Ok es
    /\ es_total_events es = Some 3%nat.
Proof.
  destruct (event_summary_of_strings Small.events) as (es & Hes & Htotal & _).
  - discriminate.
  - repeat constructor; eauto.
  - exists es. split; [exact Hes|exact Htotal].
Defined.

Lemma format_query_response_of_strings_witness :
  exists report,
    format_query_response
      (Success "index=main" {| earliest := "-1h"; latest := "now" |} Small.stats
         Small.events [] []) true 1000 = Ok report
    /\ report_field_summary report = _generate_field_summary Small.events.
Proof.
  destruct (format_query_response_of_strings "index=main"
              {| earliest := "-1h"; latest := "now" |} Small.stats Small.events [] []
              true 1000) as [_ Hok].
  - repeat constructor; eauto.
  - destruct (Hok ltac:(lia)) as (report & Hrun & Hfs & _).
    exists report. split; [exact Hrun|exact Hfs].
Defined.

Lemma field_summary_of_strings_witness :
  let items := concat (take 100 Small.events) in
  (_generate_field_summary Small.events).*1 = public_fields items
  /\ Forall (fun fi =>
               let values := field_values (fst fi) items in
               sample_values (snd fi) = take 5 (first_seen values)
               /\ NoDup (sample_values (snd fi))
               /\ unique_count (snd fi) = length (first_seen values)
               /\ length (top_values (snd fi)) = Nat.min 5 (unique_count (snd fi))
               /\ NoDup (top_values (snd fi)).*1
               /\ StronglySorted by_count_desc (top_values (snd fi))
               /\ Forall (fun vc => fst vc ∈ values
                                    /\ snd vc = occurrences (fst vc) values)
                         (top_values (snd fi))
               /\ (forall v, v ∈ values -> v ∉ (top_values (snd fi)).*1 ->
                     Forall (fun vc => (occurrences v values <= snd vc)%nat)
                            (top_values (snd fi))))
            (_generate_field_summary Small.events).
Proof.
  apply (field_summary_of_strings Small.events). repeat constructor; eauto.
Defined.

(** The summary of the three events: two fields, [host] with two values
    and [level] with two. *)
Example field_summary_events :
  _generate_field_summary Small.events
  = [("host", {| sample_values := ["web-1"; "web-2"]; unique_count := 2;
                 top_values := [("web-1", 2%nat); ("web-2", 1%nat)] |});
     ("level", {| sample_values := ["ERROR"; "INFO"]; unique_count := 2;
                  top_values := [("ERROR", 2%nat); ("INFO", 1%nat)] |})].
Proof. vm_compute. reflexivity. Qed.

End FormatterCoverageExamples.

(** ** Configuration reader *)

Section ConfigCoverage.
Import ConfigReader.

Lemma contains_find {A} (d : list (string * A)) (k : string) :
  contains d k = match find d k with Some _ => true | None => false end.
Proof.
  induction d as [|[k' v] d IH]; [reflexivity|]. cbn [contains existsb find fst].
  destruct (String.eqb k' k); [reflexivity|exact IH].
Qed.

Lemma contains_keys {A} (d : list (string * A)) (k : string) :
  contains d k = true <-> k ∈ d.*1.
Proof.
  induction d as [|[k0 v0] d IH]; cbn [contains existsb fst].
  - split; [discriminate|]. by intros ?%elem_of_nil.
  - fold (contains d k). rewrite fmap_cons, elem_of_cons, orb_true_iff, IH. cbn [fst].
    rewrite String.eqb_eq. split; (intros [Heq|Hin]; [left; congruence|by right]).
Qed.

Lemma item_contains {A} (d : list (string * A)) (k : string) :
  contains d k = true -> exists v, item d k = Ok v /\ find d k = Some v.
Proof.
  rewrite contains_find. unfold item. destruct (find d k) as [v|]; [eauto|discriminate].
Qed.

(** X22. Building the reader.  A missing file raises
    [FileNotFoundError]; every other failure, of the parser or of the
    validation, raises [ValueError]; an empty file is reported through
    the clause for unexpected errors, as [Error loading configuration:
    Configuration file is empty]. *)
Theorem config_reader_init_failures (config_path : string) :
  (exists msg,
     __init__ config_path Missing = Raise (LibraryError "FileNotFoundError" msg))
  /\ __init__ config_path (Loaded None)
     = Raise (ValueError "Error loading configuration: Configuration file is empty")
  /\ (forall f e, __init__ config_path f = Raise e ->
        f <> Missing -> exists msg, e = ValueError msg).
Proof.
  split; [cbn; eauto|]. split; [reflexivity|].
  intros f e Hrun Hf. unfold __init__ in Hrun.
  destruct f as [|[] e'|[config|]]; try done; cbn in Hrun;
    try (injection Hrun as <-; eauto; fail).
  unfold _validate_config in Hrun.
  destruct (contains config "splunk") eqn:Hs; cbn in Hrun;
    [|injection Hrun as <-; eauto].
  destruct (contains config "indexes") eqn:Hi; cbn in Hrun;
    [|injection Hrun as <-; eauto].
  destruct (contains config "query_settings") eqn:Hq; cbn in Hrun;
    [|injection Hrun as <-; eauto].
  destruct (item_contains config "splunk" Hs) as (splunk & Hsplunk & _).
  destruct (item_contains config "indexes" Hi) as (indexes & Hindexes & _).
  rewrite Hsplunk in Hrun. cbn in Hrun.
  destruct (contains splunk "host"); cbn in Hrun; [|injection Hrun as <-; eauto].
  destruct (contains splunk "port"); cbn in Hrun; [|injection Hrun as <-; eauto].
  destruct (contains splunk "username"); cbn in Hrun; [|injection Hrun as <-; eauto].
  rewrite Hindexes in Hrun. cbn in Hrun.
  destruct (contains indexes "uat"); cbn in Hrun; [|injection Hrun as <-; eauto].
  destruct (contains indexes "prod"); cbn in Hrun; [|injection Hrun as <-; eauto].
  discriminate.
Qed.

Lemma validate_config_inv (config : document) :
  _validate_config config = Ok tt ->
  exists splunk indexes query_settings,
    find config "splunk" = Some splunk
    /\ find config "indexes" = Some indexes
    /\ find config "query_settings" = Some query_settings
    /\ contains splunk "host" = true
    /\ contains splunk "port" = true
    /\ contains splunk "username" = true
    /\ contains indexes "uat" = true
    /\ contains indexes "prod" = true.
Proof.
  unfold _validate_config. cbn [require_sections].
  destruct (contains config "splunk") eqn:Hs; cbn; [|discriminate].
  destruct (contains config "indexes") eqn:Hi; cbn; [|discriminate].
  destruct (contains config "query_settings") eqn:Hq; cbn; [|discriminate].
  destruct (item_contains config "splunk" Hs) as (splunk & Hsplunk & Hfs).
  destruct (item_contains config "indexes" Hi) as (indexes & Hindexes & Hfi).
  destruct (item_contains config "query_settings" Hq) as (qs & _ & Hfq).
  rewrite Hsplunk. cbn.
  destruct (contains splunk "host") eqn:Hh; cbn; [|discriminate].
  destruct (contains splunk "port") eqn:Hp; cbn; [|discriminate].
  destruct (contains splunk "username") eqn:Hu; cbn; [|discriminate].
  rewrite Hindexes. cbn.
  destruct (contains indexes "uat") eqn:Huat; cbn; [|discriminate].
  destruct (contains indexes "prod") eqn:Hprod; cbn; [|discriminate].
  intros _. exists splunk, indexes, qs. by repeat split.
Qed.

Lemma get_index_for_environment_known (config : document) (indexes : section)
    (environment : string) :
  find config "indexes" = Some indexes ->
  contains indexes environment = true ->
  exists index, get_index_for_environment config environment = Ok index
                /\ find indexes environment = Some index.
Proof.
  intros Hi He. unfold get_index_for_environment.
  assert (item config "indexes" = Ok indexes) as -> by (unfold item; by rewrite Hi).
  cbn. rewrite He. cbn. destruct (item_contains indexes environment He) as (v & Hv & Hf).
  eauto.
Qed.

(** X23. A reader that was built serves what the server asks of it: the
    connection settings with [host], [port] and [username], the indexes
    of [uat] and [prod], and the query settings of the file (the built-in
    defaults of [get_query_settings] are never used). *)
Theorem config_reader_init_serves (config_path : string) (f : file) (config : document) :
  __init__ config_path f = Ok config ->
  f = Loaded (Some config)
  /\ (exists splunk,
        get_splunk_config config = Ok splunk
        /\ contains splunk "host" = true
        /\ contains splunk "port" = true
        /\ contains splunk "username" = true)
  /\ (exists uat prod,
        get_index_for_environment config "uat" = Ok uat
        /\ get_index_for_environment config "prod" = Ok prod)
  /\ find config "query_settings" = Some (get_query_settings config).
Proof.
  unfold __init__. destruct f as [|[] e|[loaded|]]; cbn -[_validate_config];
    try discriminate.
  destruct (_validate_config loaded) as [[]|e] eqn:Hvalid; cbn; [|discriminate].
  intros [= ->]. split; [reflexivity|].
  destruct (validate_config_inv config Hvalid)
    as (splunk & indexes & qs & Hs & Hi & Hq & Hh & Hp & Hu & Huat & Hprod).
  split; [|split].
  - exists splunk. unfold get_splunk_config, item. rewrite Hs. by repeat split.
  - destruct (get_index_for_environment_known config indexes "uat" Hi Huat) as (uat & ? & _).
    destruct (get_index_for_environment_known config indexes "prod" Hi Hprod)
      as (prod & ? & _).
    eauto.
  - unfold get_query_settings. by rewrite Hq.
Qed.

(** X24. [get_index_for_environment] answers exactly for the
    environments [list_environments] names; for any other name it raises
    a [ValueError] that lists them, in the order of the file. *)
Theorem get_index_for_environment_spec (config : document) (environments : list string) :
  list_environments config = Ok environments ->
  (forall environment, environment ∈ environments ->
     exists index, get_index_for_environment config environment = Ok index)
  /\ (forall environment, environment ∉ environments ->
        get_index_for_environment config environment
        = Raise (ValueError ("Environment '" +:+ environment +:+ "' not found. "
                             +:+ "Available environments: "
                             +:+ String.concat ", " environments))).
Proof.
  unfold list_environments, item. destruct (find config "indexes") as [indexes|] eqn:Hi;
    [|discriminate]. cbn. intros [= <-]. split.
  - intros environment Hin. apply contains_keys in Hin.
    destruct (get_index_for_environment_known config indexes environment Hi Hin)
      as (index & ? & _). eauto.
  - intros environment Hnin. unfold get_index_for_environment.
    assert (item config "indexes" = Ok indexes) as -> by (unfold item; by rewrite Hi).
    cbn.
    destruct (contains indexes environment) eqn:Hc; [|reflexivity].
    apply contains_keys in Hc. done.
Qed.

End ConfigCoverage.

Section ConfigCoverageExamples.
Import ConfigReader.

Lemma config_reader_init_serves_witness :
  Loaded (Some SmallServer.config) = Loaded (Some SmallServer.config)
  /\ (exists splunk,
        get_splunk_config SmallServer.config = Ok splunk
        /\ contains splunk "host" = true
        /\ contains splunk "port" = true
        /\ contains splunk "username" = true)
  /\ (exists uat prod,
        get_index_for_environment SmallServer.config "uat" = Ok uat
        /\ get_index_for_environment SmallServer.config "prod" = Ok prod)
  /\ find SmallServer.config "query_settings"
     = Some (get_query_settings SmallServer.config).
Proof.
  apply (config_reader_init_serves "config.yml" (Loaded (Some SmallServer.config))).
  reflexivity.
Defined.

Lemma get_index_for_environment_spec_witness :
  exists index, get_index_for_environment SmallServer.config "prod" = Ok index.
Proof.
  destruct (get_index_for_environment_spec SmallServer.config ["uat"; "prod"]) as [Hin _].
  - reflexivity.
  - apply Hin. refine (bool_decide_unpack _ _). by vm_compute.
Defined.

End ConfigCoverageExamples.

(** ** The configuration resource and the reader's memory *)

Section ResourceCoverage.
Context {L : CryptoLib}.
Import ConfigReader Server.

Lemma find_assign {A} (d : list (string * A)) (k k' : string) (v : A) :
  find (assign d k v) k' = if String.eqb k k' then Some v else find d k'.
Proof.
  induction d as [|[k0 v0] d IH]; cbn [assign find].
  - by destruct (String.eqb k k').
  - destruct (String.eqb_spec k0 k) as [->|Hne]; cbn [find].
    + by destruct (String.eqb k k').
    + rewrite IH. destruct (String.eqb_spec k0 k') as [->|Hne'].
      * by rewrite (proj2 (String.eqb_neq _ _)) by congruence.
      * reflexivity.
Qed.

Lemma find_deref (m : Memory) (top : list (string * nat)) (k : string) :
  find (deref m top) k = heap m <$> find top k.
Proof.
  induction top as [|[k' a] top IH]; [reflexivity|]. cbn [deref map find fst snd].
  destruct (String.eqb k' k); [reflexivity|exact IH].
Qed.

Lemma strings_of_lookup (s : section) (k : string) :
  strings_of s !! k = match find s k with Some (SStr v) => Some v | _ => None end.
Proof.
  induction s as [|[k' v] s IH]; [reflexivity|]. cbn [strings_of foldr find fst snd].
  fold (strings_of s). destruct (String.eqb_spec k' k) as [->|Hne].
  - destruct v; [by rewrite lookup_insert_eq|by rewrite lookup_delete_eq..].
  - destruct v; [by rewrite lookup_insert_ne|by rewrite lookup_delete_ne..].
Qed.

(** One masking step at the address [a]. *)
Lemma mask_spec (a : nat) (key masked : string) (m : Memory) :
  config (mask a key masked m) = config m
  /\ (forall b, b <> a -> heap (mask a key masked m) b = heap m b)
  /\ (forall k, find (heap (mask a key masked m) a) k
                = if String.eqb key k
                  then (if contains (heap m a) k then Some (SStr masked) else None)
                  else find (heap m a) k).
Proof.
  unfold mask. destruct (contains (heap m a) key) eqn:Hc.
  - split; [reflexivity|]. split.
    + intros b Hb. cbn. by rewrite (proj2 (Nat.eqb_neq _ _)) by exact Hb.
    + intros k. cbn. rewrite Nat.eqb_refl, find_assign.
      destruct (String.eqb_spec key k) as [<-|]; [by rewrite Hc|reflexivity].
  - split; [reflexivity|]. split; [reflexivity|].
    intros k. destruct (String.eqb_spec key k) as [<-|]; [|reflexivity].
    rewrite Hc. rewrite contains_find in Hc. by destruct (find (heap m a) key).
Qed.

Lemma read_resource_config_facts (m : Memory) (a : nat) :
  find (config m) "splunk" = Some a ->
  let run := read_resource "splunk://config" m in
  fst run = ConfigResource (view (snd run))
  /\ get_splunk_config (view (snd run)) = Ok (heap (snd run) a)
  /\ (forall key masked,
        (key, masked) ∈ [("password", "***HIDDEN***");
                         ("password_encrypted", "***ENCRYPTED***");
                         ("password_salt", "***SALT***")] ->
        find (heap (snd run) a) key
        = if contains (heap m a) key then Some (SStr masked) else None)
  /\ (forall key, key ∉ ["password"; "password_encrypted"; "password_salt"] ->
        find (heap (snd run) a) key = find (heap m a) key).
Proof.
  intros Ha. cbv zeta. unfold read_resource. cbn [String.eqb Ascii.eqb Bool.eqb].
  change (String.eqb "splunk://config" "splunk://config") with true. cbv iota.
  rewrite Ha. cbn [fst snd].
  set (m1 := mask a "password" "***HIDDEN***" m).
  set (m2 := mask a "password_encrypted" "***ENCRYPTED***" m1).
  set (m3 := mask a "password_salt" "***SALT***" m2).
  destruct (mask_spec a "password" "***HIDDEN***" m) as (Hc1 & _ & Hf1).
  destruct (mask_spec a "password_encrypted" "***ENCRYPTED***" m1) as (Hc2 & _ & Hf2).
  destruct (mask_spec a "password_salt" "***SALT***" m2) as (Hc3 & _ & Hf3).
  fold m1 in Hc1, Hf1. fold m2 in Hc2, Hf2. fold m3 in Hc3, Hf3.
  assert (config m3 = config m) as Hc by congruence.
  assert (forall k, contains (heap m1 a) k = contains (heap m a) k) as Hk1.
  { intros k. rewrite !contains_find, Hf1. destruct (String.eqb "password" k); [|done].
    rewrite contains_find. by destruct (find (heap m a) k). }
  assert (forall k, contains (heap m2 a) k = contains (heap m a) k) as Hk2.
  { intros k. rewrite <- Hk1. rewrite !contains_find, Hf2.
    destruct (String.eqb "password_encrypted" k); [|done].
    rewrite contains_find. by destruct (find (heap m1 a) k). }
  split; [unfold view; by rewrite Hc|]. split.
  { unfold get_splunk_config, item, view. by rewrite find_deref, Hc, Ha. }
  split.
  - intros key masked Hin. rewrite Hf3, Hf2, Hf1, Hk2, Hk1.
    repeat (apply elem_of_cons in Hin as [[= -> ->]|Hin]; [reflexivity|]).
    by apply elem_of_nil in Hin.
  - intros key Hkey. rewrite Hf3, Hf2, Hf1.
    rewrite !(proj2 (String.eqb_neq _ _)); [reflexivity|..];
      intros <-; apply Hkey; refine (bool_decide_unpack _ _); by vm_compute.
Qed.

(** X25. Reading the resource [splunk://config].  The document served
    shows the three secrets of the [splunk] section, as far as they are
    configured, as [***HIDDEN***], [***ENCRYPTED***] and [***SALT***], and
    every other entry as it is.  The section is masked in place, through
    the copy of the top-level dict: the document served is the reader's
    own configuration after the call, so the reader has lost the
    secrets. *)
Theorem read_resource_config_masks_in_place (m : Memory) (a : nat) :
  find (config m) "splunk" = Some a ->
  let run := read_resource "splunk://config" m in
  fst run = ConfigResource (view (snd run))
  /\ get_splunk_config (view (snd run)) = Ok (heap (snd run) a)
  /\ (forall key masked,
        (key, masked) ∈ [("password", "***HIDDEN***");
                         ("password_encrypted", "***ENCRYPTED***");
                         ("password_salt", "***SALT***")] ->
        find (heap (snd run) a) key
        = if contains (heap m a) key then Some (SStr masked) else None)
  /\ (forall key, key ∉ ["password"; "password_encrypted"; "password_salt"] ->
        find (heap (snd run) a) key = find (heap m a) key).
Proof. apply read_resource_config_facts. Qed.

(** X26. A configuration with a plain password: before the resource is
    read the credential manager returns the configured password from the
    reader's connection settings; afterwards it returns [***HIDDEN***]. *)
Theorem read_resource_config_spoils_password (cm : CredentialManager.t) (m : Memory)
    (a : nat) (user pw : string) :
  find (config m) "splunk" = Some a ->
  find (heap m a) "username" = Some (SStr user) ->
  find (heap m a) "password" = Some (SStr pw) ->
  find (heap m a) "password_encrypted" = None ->
  exists before after,
    get_splunk_config (view m) = Ok before
    /\ snd (CredentialManager.get_credentials cm (strings_of before))
       = Ok {| CredentialManager.username := user; CredentialManager.password := pw |}
    /\ get_splunk_config (view (snd (read_resource "splunk://config" m))) = Ok after
    /\ snd (CredentialManager.get_credentials cm (strings_of after))
       = Ok {| CredentialManager.username := user;
               CredentialManager.password := "***HIDDEN***" |}.
Proof.
  intros Ha Huser Hpw Henc.
  destruct (read_resource_config_facts m a Ha) as (_ & Hafter & Hmask & Hkeep).
  exists (heap m a), (heap (snd (read_resource "splunk://config" m)) a).
  split; [unfold get_splunk_config, item, view; by rewrite find_deref, Ha|].
  split.
  { unfold CredentialManager.get_credentials.
    by rewrite !strings_of_lookup, Huser, Henc, Hpw. }
  split; [exact Hafter|].
  unfold CredentialManager.get_credentials. rewrite !strings_of_lookup.
  rewrite (Hkeep "username") by (refine (bool_decide_unpack _ _); by vm_compute).
  rewrite Huser.
  rewrite (Hmask "password_encrypted" "***ENCRYPTED***")
    by (refine (bool_decide_unpack _ _); by vm_compute).
  rewrite (Hmask "password" "***HIDDEN***")
    by (refine (bool_decide_unpack _ _); by vm_compute).
  rewrite !contains_find, Henc, Hpw. reflexivity.
Qed.

End ResourceCoverage.

Section ResourceCoverageExamples.
#[local] Existing Instance Small.lib.
Import ConfigReader Server.

Lemma read_resource_config_masks_in_place_witness :
  let run := read_resource "splunk://config" SmallServer.memory in
  fst run = ConfigResource (view (snd run))
  /\ get_splunk_config (view (snd run)) = Ok (heap (snd run) 0%nat)
  /\ (forall key masked,
        (key, masked) ∈ [("password", "***HIDDEN***");
                         ("password_encrypted", "***ENCRYPTED***");
                         ("password_salt", "***SALT***")] ->
        find (heap (snd run) 0%nat) key
        = if contains (heap SmallServer.memory 0%nat) key then Some (SStr masked) else None)
  /\ (forall key, key ∉ ["password"; "password_encrypted"; "password_salt"] ->
        find (heap (snd run) 0%nat) key = find (heap SmallServer.memory 0%nat) key).
Proof.
  apply (read_resource_config_masks_in_place SmallServer.memory 0%nat). reflexivity.
Defined.

Lemma read_resource_config_spoils_password_witness :
  exists before after,
    get_splunk_config (view SmallServer.memory) = Ok before
    /\ snd (CredentialManager.get_credentials (CredentialManager.__init__ Small.host)
              (strings_of before))
       = Ok {| CredentialManager.username := "admin";
               CredentialManager.password := "hunter2" |}
    /\ get_splunk_config (view (snd (read_resource "splunk://config" SmallServer.memory)))
       = Ok after
    /\ snd (CredentialManager.get_credentials (CredentialManager.__init__ Small.host)
              (strings_of after))
       = Ok {| CredentialManager.username := "admin";
               CredentialManager.password := "***HIDDEN***" |}.
Proof.
  apply (read_resource_config_spoils_password (CredentialManager.__init__ Small.host)
           SmallServer.memory 0%nat "admin" "hunter2"); reflexivity.
Defined.

End ResourceCoverageExamples.

(** ** The tools of the server *)

Section ToolCoverage.
Context {L : CryptoLib} {R : PyRuntime} {T : PyText}.
Context (rm : SplunkClient.Remote) (adm : ClientStatus.Admin) (self : SplunkClient.Client).
Context (cfg : ConfigReader.document).
Import SplunkClient ClientStatus ConfigReader Server ResponseFormatter.

Lemma check_connection_run (s : State) :
  check_connection rm adm self s =
  match get_connection rm self false s with
  | (Some (Ok service), s1) =>
      match service_info adm with
      | Ok info =>
          match indexes_list rm with
          | Ok names =>
              (Some (Ok (Connected
                           {| version := default "Unknown" (info !! "version");
                              build := default "Unknown" (info !! "build");
                              server_name := default "Unknown" (info !! "serverName") |}
                           (take 10 names) strftime_now)),
               elapse rm 0 (elapse rm 0 s1))
          | Raise e =>
              (Some (Ok (Unreachable (exn_str e) strftime_now)),
               elapse rm 0 (elapse rm 0 s1))
          end
      | Raise e => (Some (Ok (Unreachable (exn_str e) strftime_now)), elapse rm 0 s1)
      end
  | (Some (Raise e), s1) => (Some (Ok (Unreachable (exn_str e) strftime_now)), s1)
  | (None, s1) => (None, s1)
  end.
Proof.
  unfold check_connection. rewrite bind_run. unfold try. rewrite bind_run.
  destruct (get_connection rm self false s) as [[[service|e]|] s1]; try reflexivity.
  rewrite bind_run. unfold remote_info.
  destruct (service_info adm) as [info|e]; [|reflexivity].
  cbv beta iota. rewrite bind_run. unfold remote_indexes.
  by destruct (indexes_list rm) as [names|e].
Qed.

Lemma check_connection_returns (s : State) :
  exists data, fst (check_connection rm adm self s) = Some (Ok data).
Proof.
  rewrite check_connection_run.
  pose proof (terminates_get_connection rm self false s) as Hterm.
  destruct (get_connection rm self false s) as [[[service|e]|] s1]; cbn [fst] in *;
    [|eauto|done].
  destruct (service_info adm) as [info|e]; [|eauto].
  destruct (indexes_list rm) as [names|e]; eauto.
Qed.

(** X27. [check_connection] never raises.  It reports [connected]
    exactly when the session is there, [service.info()] answers and the
    indexes can be listed: then with the version, build and server name
    of the answer ([Unknown] for a missing one), the first ten index
    names at most and the time of the check; otherwise it reports the
    text of the first exception.  When the session cannot be opened the
    service is not asked anything more. *)
Theorem check_connection_outcomes (s : State) :
  let run := check_connection rm adm self s in
  let session := get_connection rm self false s in
  (exists data, fst run = Some (Ok data))
  /\ (forall service info names,
        fst session = Some (Ok service) -> service_info adm = Ok info ->
        indexes_list rm = Ok names ->
        fst run
        = Some (Ok (Connected
                      {| version := default "Unknown" (info !! "version");
                         build := default "Unknown" (info !! "build");
                         server_name := default "Unknown" (info !! "serverName") |}
                      (take 10 names) strftime_now)))
  /\ (forall server_info available_indexes time,
        fst run = Some (Ok (Connected server_info available_indexes time)) ->
        (length available_indexes <= 10)%nat
        /\ exists service info names,
             fst session = Some (Ok service)
             /\ service_info adm = Ok info
             /\ indexes_list rm = Ok names
             /\ available_indexes = take 10 names)
  /\ (forall e, fst session = Some (Raise e) ->
        run = (Some (Ok (Unreachable (exn_str e) strftime_now)), snd session))
  /\ (forall service e, fst session = Some (Ok service) -> service_info adm = Raise e ->
        fst run = Some (Ok (Unreachable (exn_str e) strftime_now)))
  /\ (forall service info e,
        fst session = Some (Ok service) -> service_info adm = Ok info ->
        indexes_list rm = Raise e ->
        fst run = Some (Ok (Unreachable (exn_str e) strftime_now))).
Proof.
  cbv zeta. rewrite check_connection_run.
  pose proof (terminates_get_connection rm self false s) as Hterm.
  destruct (get_connection rm self false s) as [[[service|e]|] s1]; cbn [fst snd] in *;
    [| |done].
  - destruct (service_info adm) as [info|e] eqn:Hinfo.
    + destruct (indexes_list rm) as [names|e] eqn:Hnames; cbn [fst].
      * split; [eauto|]. split; [by intros ? ? ? _ [= <-] [= <-]|].
        split; [|by repeat split].
        intros si idx t [= <- <- <-]. split; [rewrite length_take; lia|].
        exists service, info, names. by repeat split.
      * split; [eauto|]. split; [by intros ? ? ? _ _ ?|].
        split; [by intros ? ? ? ?|]. split; [by intros ? ?|].
        split; [by intros ? ? ? ?|]. by intros ? ? ? _ _ [= <-].
    + cbn [fst]. split; [eauto|]. split; [by intros ? ? ? _ ?|].
      split; [by intros ? ? ? ?|]. split; [by intros ? ?|].
      split; [by intros ? ? _ [= <-]|]. by intros ? ? ? _ ?.
  - split; [eauto|]. split; [by intros ? ? ? ?|].
    split; [by intros ? ? ? ?|]. split; [by intros ? [= <-]|].
    split; [by intros ? ? ?|]. by intros ? ? ? ?.
Qed.

(** X28. [close_all_connections] never raises, also when the logout
    does; it logs out of the cached session, once, and leaves the cache
    empty, so the next [get_connection] opens a session as if it were
    forced to. *)
Theorem close_all_connections_clears (s : State) :
  let run := close_all_connections rm adm s in
  fst run = Some (Ok tt)
  /\ _connections (snd run) = None
  /\ steps (snd run)
     = (steps s + match _connections s with Some _ => 1 | None => 0 end)%nat
  /\ attempts (snd run) = attempts s
  /\ probes (snd run) = probes s
  /\ (forall force_new,
        get_connection rm self force_new (snd run) = get_connection rm self true (snd run)).
Proof.
  cbv zeta. unfold close_all_connections. rewrite bind_run. unfold gets. cbv beta iota.
  rewrite bind_run.
  assert (forall s1 force_new,
            _connections s1 = None ->
            get_connection rm self force_new s1 = get_connection rm self true s1) as Hnew.
  { intros s1 force_new Hnone. unfold get_connection. rewrite !bind_run. unfold gets.
    cbv beta iota. rewrite Hnone. by destruct force_new. }
  destruct (_connections s) as [service|] eqn:Hcached.
  - rewrite bind_run. unfold try, remote_logout.
    destruct (service_logout adm service) as [[]|e]; cbn;
      (split; [reflexivity|]; split; [reflexivity|]; split; [lia|];
       split; [reflexivity|]; split; [reflexivity|]);
      intros force_new; by apply Hnew.
  - cbn. split; [reflexivity|]. split; [reflexivity|]. split; [lia|].
    split; [reflexivity|]. split; [reflexivity|]. intros force_new. by apply Hnew.
Qed.

Lemma count_field_raises (field : string) (results : list record) (e : exn) :
  forall c : Counter,
    count_field field results c = Raise e ->
    e = LibraryError "TypeError" "unhashable type: 'list'".
Proof.
  induction results as [|r results IH]; intros c; cbn [count_field]; [discriminate|].
  destruct (default (VStr "unknown") (get r field)); [apply IH|by intros [= <-]].
Qed.

Lemma event_summary_raises (results : list record) (e : exn) :
  _generate_event_summary results = Raise e ->
  e = LibraryError "TypeError" "unhashable type: 'list'".
Proof.
  unfold _generate_event_summary. destruct results as [|r0 results0] eqn:Hresults;
    [discriminate|]. rewrite <- Hresults. clear Hresults r0 results0.
  assert (forall field (k : option Counter -> result EventSummary),
            (forall c, k c = Raise e -> e = LibraryError "TypeError" "unhashable type: 'list'") ->
            ((if any_has field results
              then Some <$> count_field field results [] else Ok None) ≫= k) = Raise e ->
            e = LibraryError "TypeError" "unhashable type: 'list'") as Hstep.
  { intros field k Hk. destruct (any_has field results); cbn; [|apply Hk].
    destruct (count_field field results []) as [c|e'] eqn:Hc; cbn; [apply Hk|].
    intros [= <-]. by eapply count_field_raises. }
  apply Hstep. intros hosts. apply Hstep. intros sources. apply Hstep. intros sourcetypes.
  cbn [severity_distribution].
  repeat match goal with
    | |- context [if any_has ?f results then _ else _] =>
        destruct (any_has f results);
        [destruct (count_field f results []) as [c|e'] eqn:Hc; cbn;
         [discriminate|intros [= <-]; by eapply count_field_raises]|]
    end.
  discriminate.
Qed.

Lemma format_query_response_raises (query_data : Envelope) (include_raw : bool)
    (page_size : Z) (e : exn) :
  format_query_response query_data include_raw page_size = Raise e ->
  e = ZeroDivisionError \/ e = LibraryError "TypeError" "unhashable type: 'list'".
Proof.
  destruct query_data as [query time_range stats results fields messages|q er et];
    [|discriminate].
  unfold format_query_response, _calculate_pagination.
  destruct (page_size =? 0); [intros [= <-]; by left|]. cbn.
  destruct (_generate_event_summary results) as [es|e'] eqn:Hes; cbn.
  - by destruct (_ <=? _).
  - intros [= <-]. right. by eapply event_summary_raises.
Qed.

Lemma get_index_for_environment_raises (environment : string) (e : exn) :
  _validate_config cfg = Ok tt ->
  get_index_for_environment cfg environment = Raise e -> exists msg, e = ValueError msg.
Proof.
  intros Hvalid. destruct (validate_config_inv cfg Hvalid) as (_ & indexes & _ & _ & Hi & _).
  unfold get_index_for_environment.
  assert (item cfg "indexes" = Ok indexes) as -> by (unfold item; by rewrite Hi).
  cbn. destruct (contains indexes environment) eqn:Hc; cbn; [|intros [= <-]; eauto].
  destruct (item_contains indexes environment Hc) as (v & -> & _). discriminate.
Qed.

(** What the [try] block of [call_tool] comes to: a response that is
    not an error response, or one of four exceptions. *)
Lemma call_tool_body_outcomes (fuel : nat) (name : string) (arguments : Arguments)
    (s : State) :
  _validate_config cfg = Ok tt ->
  match fst (call_tool_body rm adm self cfg fuel name arguments s) with
  | Some (Ok response) => forall tool error message, response <> ToolError tool error message
  | Some (Raise e) =>
      (exists msg, e = ValueError msg)
      \/ e = ZeroDivisionError
      \/ e = LibraryError "TypeError" "unhashable type: 'list'"
      \/ e = LibraryError "AttributeError"
             "'HTTPError' object has no attribute 'message'"
  | None => True
  end.
Proof.
  intros Hvalid. unfold call_tool_body.
  assert (forall (value : option string) (msg : string) (k : string -> M Response) s0,
            (forall v s1, match fst (k v s1) with
                          | Some (Ok response) =>
                              forall tool error message,
                                response <> ToolError tool error message
                          | Some (Raise e) =>
                              (exists msg, e = ValueError msg)
                              \/ e = ZeroDivisionError
                              \/ e = LibraryError "TypeError" "unhashable type: 'list'"
                              \/ e = LibraryError "AttributeError"
                                     "'HTTPError' object has no attribute 'message'"
                          | None => True
                          end) ->
            match fst ((required value msg ≫= k) s0) with
            | Some (Ok response) =>
                forall tool error message, response <> ToolError tool error message
            | Some (Raise e) =>
                (exists msg, e = ValueError msg)
                \/ e = ZeroDivisionError
                \/ e = LibraryError "TypeError" "unhashable type: 'list'"
                \/ e = LibraryError "AttributeError"
                       "'HTTPError' object has no attribute 'message'"
            | None => True
            end) as Hrequired.
  { intros value msg k s0 Hk. rewrite bind_run. unfold required.
    destruct value as [v|]; [destruct (String.eqb v "")|]; cbn; eauto; apply Hk. }
  destruct (String.eqb name "get_index_for_environment").
  { apply Hrequired. intros environment s1. rewrite bind_run. unfold lift.
    destruct (get_index_for_environment cfg environment) as [index|e] eqn:Hindex; cbn.
    - done.
    - left. by eapply get_index_for_environment_raises. }
  destruct (String.eqb name "check_connection").
  { rewrite bind_run.
    destruct (check_connection_returns s) as [data Hdata].
    destruct (check_connection rm adm self s) as [r s1]. cbn [fst] in Hdata. subst r.
    cbn. by destruct data. }
  destruct (String.eqb name "execute_query").
  { apply Hrequired. intros query s1. rewrite bind_run.
    pose proof (execute_query_raises_only rm self fuel (unescape_quotes query)
                  (arg_earliest_time arguments) (arg_latest_time arguments)
                  (arg_max_results arguments) None s1) as Hcaught.
    destruct (execute_query _ _ _ _ _ _ _ _ _) as [[[result|e]|] s2]; cbn [fst] in *;
      [|do 3 right; by apply Hcaught|done].
    rewrite bind_run. unfold lift.
    destruct (format_query_response result _ _) as [formatted|e] eqn:Hformat; cbn.
    - done.
    - right. destruct (format_query_response_raises _ _ _ _ Hformat) as [->| ->]; eauto. }
  destruct (String.eqb name "get_available_indexes").
  { rewrite bind_run, get_indexes_run.
    destruct (get_connection rm self false s) as [[[service|e]|] s1]; cbn; done. }
  destruct (String.eqb name "get_sourcetypes").
  { rewrite bind_run, get_sourcetypes_run.
    destruct (get_connection rm self false s) as [[[service|e]|] s1]; cbn; [| |done].
    - destruct (execute_query _ _ _ _ _ _ _ _ _) as [[[[]|e]|] s2]; cbn;
        unfold format_sourcetypes_response;
        try (destruct (arg_index arguments) as [i|]; [destruct (String.eqb i "")|]; done).
    - unfold format_sourcetypes_response.
      destruct (arg_index arguments) as [i|]; [destruct (String.eqb i "")|]; done. }
  cbn. eauto.
Qed.

(** X29. [call_tool] catches everything, and of its four [except]
    clauses two never run for a reader that was validated: an error
    response carries the name of the tool and either [Invalid
    parameters:] with the text of a [ValueError], or [Failed to execute]
    with the text of a division by zero or of an unhashable list, both
    raised by the formatter, or of the [AttributeError] that
    [execute_query] raises in its clause for [HTTPError]; never the
    message of a missing configuration file or of a failed connection. *)
Theorem call_tool_error_responses (fuel : nat) (name : string) (arguments : Arguments)
    (s : State) :
  _validate_config cfg = Ok tt ->
  (forall e, fst (call_tool rm adm self cfg fuel name arguments s) <> Some (Raise e))
  /\ (forall tool error message,
        fst (call_tool rm adm self cfg fuel name arguments s)
        = Some (Ok (ToolError tool error message)) ->
        tool = name
        /\ (message = "Invalid parameters: " +:+ error
            \/ message = "Failed to execute " +:+ name +:+ ": " +:+ error
               /\ (error = "integer division or modulo by zero"
                   \/ error = "unhashable type: 'list'"
                   \/ error = "'HTTPError' object has no attribute 'message'"))).
Proof.
  intros Hvalid. pose proof (call_tool_body_outcomes fuel name arguments s Hvalid) as Hbody.
  unfold call_tool. rewrite bind_run. unfold try.
  destruct (call_tool_body rm adm self cfg fuel name arguments s) as [[[response|e]|] s1];
    cbn [fst] in *.
  - split; [done|]. intros tool error message [= ->]. by destruct (Hbody tool error message).
  - split; [done|]. intros tool error message.
    destruct Hbody as [[msg ->]|[->|[->| ->]]]; cbn; intros [= <- <- <-]; split; eauto 6.
  - split; [done|]. by intros ? ? ?.
Qed.

(** X30. A call that names no tool, that lacks its required argument, or
    that asks for an environment the configuration does not have, is
    answered with [Invalid parameters:] and leaves the client as it was:
    no session is opened and nothing is asked of the service. *)
Theorem call_tool_rejects_before_splunk (fuel : nat) (arguments : Arguments) (s : State) :
  (forall name,
     name ∉ ["get_index_for_environment"; "check_connection"; "execute_query";
             "get_available_indexes"; "get_sourcetypes"] ->
     call_tool rm adm self cfg fuel name arguments s
     = (Some (Ok (ToolError name ("Unknown tool: " +:+ name)
                    ("Invalid parameters: " +:+ "Unknown tool: " +:+ name))), s))
  /\ (arg_query arguments = None \/ arg_query arguments = Some "" ->
      call_tool rm adm self cfg fuel "execute_query" arguments s
      = (Some (Ok (ToolError "execute_query" "query parameter is required"
                     "Invalid parameters: query parameter is required")), s))
  /\ (arg_environment arguments = None \/ arg_environment arguments = Some "" ->
      call_tool rm adm self cfg fuel "get_index_for_environment" arguments s
      = (Some (Ok (ToolError "get_index_for_environment" "environment parameter is required"
                     "Invalid parameters: environment parameter is required")), s))
  /\ (forall environment error,
        arg_environment arguments = Some environment -> environment <> "" ->
        get_index_for_environment cfg environment = Raise (ValueError error) ->
        call_tool rm adm self cfg fuel "get_index_for_environment" arguments s
        = (Some (Ok (ToolError "get_index_for_environment" error
                       ("Invalid parameters: " +:+ error))), s)).
Proof.
  split; [|split; [|split]].
  - intros name Hname. unfold call_tool, call_tool_body.
    rewrite !(proj2 (String.eqb_neq _ _)); [reflexivity|..];
      intros ->; apply Hname; refine (bool_decide_unpack _ _); by vm_compute.
  - intros Hq. unfold call_tool, call_tool_body.
    change (String.eqb "execute_query" "get_index_for_environment") with false.
    change (String.eqb "execute_query" "check_connection") with false.
    change (String.eqb "execute_query" "execute_query") with true. cbv iota.
    by destruct Hq as [-> | ->].
  - intros He. unfold call_tool, call_tool_body.
    change (String.eqb "get_index_for_environment" "get_index_for_environment") with true.
    cbv iota. by destruct He as [-> | ->].
  - intros environment error He Hne Hraise. unfold call_tool, call_tool_body.
    change (String.eqb "get_index_for_environment" "get_index_for_environment") with true.
    cbv iota. rewrite He. unfold required.
    rewrite (proj2 (String.eqb_neq _ _) Hne). rewrite bind_run. unfold try.
    rewrite bind_run. cbn. rewrite bind_run. unfold lift. rewrite Hraise. reflexivity.
Qed.

(** X12. Every error envelope [execute_query] returns is classified
    [timeout] or [general_error], never [http_error]: the clause that
    would build that envelope raises instead.  The envelope carries the
    query as given or as sent, and [format_query_response] answers it,
    whatever the page size, with the error report that carries the tips
    of its type. *)
Theorem execute_query_error_report (fuel : nat) (query : string)
    (earliest_time latest_time : option string) (max_results timeout : option Z)
    (s : State) (envelope : Envelope) (include_raw : bool) (page_size : Z) :
  fst (execute_query rm self fuel query earliest_time latest_time max_results timeout s)
    = Some (Ok envelope) ->
  status envelope = "error" ->
  exists sent error error_type,
    envelope = Error sent error error_type
    /\ (sent = query \/ sent = normalize_query query)
    /\ format_query_response envelope include_raw page_size
       = Ok (QueryError sent now_isoformat error error_type
               (_get_troubleshooting_tips error_type))
    /\ (error_type = "timeout" /\ _get_troubleshooting_tips error_type = tips_timeout
        \/ error_type = "general_error"
           /\ _get_troubleshooting_tips error_type = tips_general_error).
Proof.
  intros Hrun Hstatus.
  assert (exists sent e, handle_exception sent e = Ok envelope
                         /\ (sent = query \/ sent = normalize_query query))
    as (sent & e & Hhandled & Hsent).
  { destruct (get_connection rm self false s) as [[[service|e]|] s1] eqn:Hconn.
    - rewrite (execute_query_connected _ _ _ _ _ _ _ _ _ _ _ Hconn) in Hrun.
      cbv zeta in Hrun.
      destruct (run_job _ _ _ _ _ _ _ _ _) as [[[env|e]|] s2] eqn:Hjob; cbn in Hrun;
        [|injection Hrun as Hrun; eauto|discriminate].
      injection Hrun as ->. exfalso. revert Hjob. unfold run_job.
      repeat (rewrite bind_run;
              match goal with
              | |- context [match ?m with _ => _ end] =>
                  destruct m as [[[?|?]|] ?]; try discriminate
              end).
      intros [= <- _]. discriminate.
    - rewrite (execute_query_disconnected _ _ _ _ _ _ _ _ _ _ _ Hconn) in Hrun.
      injection Hrun as Hrun. eauto.
    - by destruct (terminates_get_connection rm self false s); rewrite Hconn. }
  exists sent.
  destruct (handle_exception_cases sent e)
    as [(error & error_type & Heq & Htype & _)|[_ Heq]]; rewrite Heq in Hhandled;
    [|discriminate].
  injection Hhandled as <-. exists error, error_type.
  split; [reflexivity|]. split; [exact Hsent|]. split; [reflexivity|].
  destruct Htype as [-> | ->]; [left|right]; by split.
Qed.

End ToolCoverage.

Section ToolCoverageExamples.
#[local] Existing Instance Small.lib.
#[local] Existing Instance Small.runtime.
#[local] Existing Instance SmallServer.text.
Import SplunkClient ClientStatus ConfigReader Server ResponseFormatter.

Lemma call_tool_error_responses_witness :
  (forall e,
     fst (call_tool (Small.remote Small.up (Ok Small.sourcetypes_job)) SmallServer.admin
            Small.client SmallServer.config 6 "metrics" SmallServer.no_arguments
            Small.connected) <> Some (Raise e))
  /\ (forall tool error message,
        fst (call_tool (Small.remote Small.up (Ok Small.sourcetypes_job)) SmallServer.admin
               Small.client SmallServer.config 6 "metrics" SmallServer.no_arguments
               Small.connected)
        = Some (Ok (ToolError tool error message)) ->
        tool = "metrics"
        /\ (message = "Invalid parameters: " +:+ error
            \/ message = "Failed to execute " +:+ "metrics" +:+ ": " +:+ error
               /\ (error = "integer division or modulo by zero"
                   \/ error = "unhashable type: 'list'"
                   \/ error = "'HTTPError' object has no attribute 'message'"))).
Proof.
  apply (call_tool_error_responses
           (Small.remote Small.up (Ok Small.sourcetypes_job)) SmallServer.admin
           Small.client SmallServer.config 6 "metrics" SmallServer.no_arguments
           Small.connected).
  reflexivity.
Defined.

Lemma execute_query_error_report_witness :
  exists sent error error_type,
    Error "index=main error" "Query execution exceeded timeout of 2 seconds" "timeout"
    = Error sent error error_type
    /\ (sent = "index=main error" \/ sent = normalize_query "index=main error")
    /\ format_query_response
         (Error "index=main error" "Query execution exceeded timeout of 2 seconds" "timeout")
         true 0
       = Ok (QueryError sent now_isoformat error error_type
               (_get_troubleshooting_tips error_type))
    /\ (error_type = "timeout" /\ _get_troubleshooting_tips error_type = tips_timeout
        \/ error_type = "general_error"
           /\ _get_troubleshooting_tips error_type = tips_general_error).
Proof.
  apply (execute_query_error_report (Small.remote Small.up (Ok Small.endless_job))
           Small.client 6 "index=main error" None None None None Small.connected
           (Error "index=main error" "Query execution exceeded timeout of 2 seconds"
              "timeout") true 0).
  - vm_compute. reflexivity.
  - reflexivity.
Defined.

(** An [HTTPError] while the results are fetched reaches the caller of
    the tool as the missing attribute. *)
Example call_tool_unreadable_job :
  fst (call_tool (Small.remote Small.up (Ok Small.unreadable_job)) SmallServer.admin
         Small.client SmallServer.config 6 "execute_query"
         {| arg_environment := None; arg_query := Some "index=main error";
            arg_earliest_time := None; arg_latest_time := None;
            arg_max_results := None; arg_index := None |}
         Small.connected)
  = Some (Ok (ToolError "execute_query" "'HTTPError' object has no attribute 'message'"
                ("Failed to execute execute_query: "
                 +:+ "'HTTPError' object has no attribute 'message'"))).
Proof. vm_compute. reflexivity. Qed.

End ToolCoverageExamples.
